(** * B+Tree index over a page pool: a shallow embedding of
      [src/storage/index/b_plus_tree.cpp]

    The tree owns page identifiers only; every node lives on a page of the
    buffer pool.  The pool is modelled as a finite map from page ids to
    pages, the header page as the field [root_page_id_], and every
    operation of the tree as a function on that state.  A result of [None]
    means that the C++ operation does not return normally (it fetches a
    page that is not in the pool, or its descent never reaches a leaf). *)

From Stdlib Require Import ZArith List Lia Bool Permutation.
From stdpp Require Import base option gmap.
Import ListNotations.

Local Open Scope Z_scope.

(** ** Keys, values, comparator *)

Definition page_id_t := Z.
Definition INVALID_PAGE_ID : Z := -1.

(** Modelled from the spec: the key type and its comparator are template
    parameters declared outside [b_plus_tree.cpp].  Keys are fixed-size
    patterns filled from an integer ([SetFromInteger]); the comparator is a
    three-way total order returning -1 / 0 / +1.  Keys are integers here and
    the comparator is the three-way comparison of integers. *)
Definition KeyType := Z.
Definition ValueType := Z.

Definition comparator_ (a b : KeyType) : Z :=
  match a ?= b with
  | Lt => -1
  | Eq => 0
  | Gt => 1
  end.

(** ** Node pages *)

Inductive IndexPageType := INVALID_INDEX_PAGE | LEAF_PAGE | INTERNAL_PAGE.

(** Modelled from the spec: the page classes ([b_plus_tree_page.h],
    [b_plus_tree_leaf_page.h], [b_plus_tree_internal_page.h]) are not part
    of the source file.  A node page carries its kind, its current size, its
    maximum size, the next-leaf link (leaves only) and an array of slots.
    A slot is a pair (key, value): a record id on a leaf, a child page id on
    an internal page.  [array_] is the part of the page's slot array that
    has been written so far; it can be longer than [size_] (slots beyond the
    size keep their old content, as [SetSize] does not clear them), and a
    slot that was never written reads as (0, 0), the content of a fresh
    page. *)
Record BPlusTreePage := mkPage {
  page_type_ : IndexPageType;
  size_ : Z;
  max_size_ : Z;
  next_page_id_ : page_id_t;
  array_ : list (KeyType * Z)
}.

Definition zero_slot : KeyType * Z := (0, 0).

Definition zero_page : BPlusTreePage :=
  mkPage INVALID_INDEX_PAGE 0 0 0 [].

Definition IsLeafPage (p : BPlusTreePage) : bool :=
  match page_type_ p with LEAF_PAGE => true | _ => false end.

Definition GetSize (p : BPlusTreePage) : Z := size_ p.
Definition GetMaxSize (p : BPlusTreePage) : Z := max_size_ p.
Definition GetNextPageId (p : BPlusTreePage) : page_id_t := next_page_id_ p.

(** Modelled from the spec (section 4.5): min_size = ceil(max_size / 2). *)
Definition GetMinSize (p : BPlusTreePage) : Z := (max_size_ p + 1) / 2.

Definition SlotAt (p : BPlusTreePage) (i : Z) : KeyType * Z :=
  nth (Z.to_nat i) (array_ p) zero_slot.
Definition KeyAt (p : BPlusTreePage) (i : Z) : KeyType := fst (SlotAt p i).
Definition ValueAt (p : BPlusTreePage) (i : Z) : Z := snd (SlotAt p i).

(** In-place write of slot [n] of the array; the array has room beyond the
    written part, so a write past its end extends it. *)
Fixpoint write_slot (n : nat) (f : KeyType * Z -> KeyType * Z)
    (l : list (KeyType * Z)) : list (KeyType * Z) :=
  match n, l with
  | O, [] => [f zero_slot]
  | O, x :: t => f x :: t
  | S n', [] => zero_slot :: write_slot n' f []
  | S n', x :: t => x :: write_slot n' f t
  end.

Definition with_array (p : BPlusTreePage) (a : list (KeyType * Z)) : BPlusTreePage :=
  mkPage (page_type_ p) (size_ p) (max_size_ p) (next_page_id_ p) a.

Definition SetKeyAt (p : BPlusTreePage) (i : Z) (k : KeyType) : BPlusTreePage :=
  with_array p (write_slot (Z.to_nat i) (fun s => (k, snd s)) (array_ p)).
Definition SetValueAt (p : BPlusTreePage) (i : Z) (v : Z) : BPlusTreePage :=
  with_array p (write_slot (Z.to_nat i) (fun s => (fst s, v)) (array_ p)).

Definition SetSize (p : BPlusTreePage) (n : Z) : BPlusTreePage :=
  mkPage (page_type_ p) n (max_size_ p) (next_page_id_ p) (array_ p).
Definition IncreaseSize (p : BPlusTreePage) (d : Z) : BPlusTreePage :=
  SetSize p (size_ p + d).
Definition SetPageType (p : BPlusTreePage) (t : IndexPageType) : BPlusTreePage :=
  mkPage t (size_ p) (max_size_ p) (next_page_id_ p) (array_ p).
Definition SetNextPageId (p : BPlusTreePage) (n : page_id_t) : BPlusTreePage :=
  mkPage (page_type_ p) (size_ p) (max_size_ p) n (array_ p).

(** Modelled from the spec (section 4.3): initialising a leaf sets
    kind = LEAF, size = 0, next_leaf_pid = INVALID_PID and the capacity;
    initialising an internal page sets kind = INTERNAL, size = 0 and the
    capacity. *)
Definition InitLeaf (p : BPlusTreePage) (max_size : Z) : BPlusTreePage :=
  mkPage LEAF_PAGE 0 max_size INVALID_PAGE_ID (array_ p).
Definition InitInternal (p : BPlusTreePage) (max_size : Z) : BPlusTreePage :=
  mkPage INTERNAL_PAGE 0 max_size (next_page_id_ p) (array_ p).

(** ** Loops *)

(** [for (j = lo; j < hi; j++) body(j)], the bounds being loop-invariant. *)
Fixpoint for_up {S : Type} (n : nat) (j : Z) (body : Z -> S -> S) (s : S) : S :=
  match n with
  | O => s
  | Datatypes.S n' => for_up n' (j + 1) body (body j s)
  end.
Definition for_range {S : Type} (lo hi : Z) (body : Z -> S -> S) (s : S) : S :=
  for_up (Z.to_nat (hi - lo)) lo body s.

(** [for (j = hi; j > lo; j--) body(j)]. *)
Fixpoint for_down {S : Type} (n : nat) (j : Z) (body : Z -> S -> S) (s : S) : S :=
  match n with
  | O => s
  | Datatypes.S n' => for_down n' (j - 1) body (body j s)
  end.
Definition for_range_down {S : Type} (hi lo : Z) (body : Z -> S -> S) (s : S) : S :=
  for_down (Z.to_nat (hi - lo)) hi body s.

(** ** Binary search within a node (lines 381-423) *)

(** The loop [while (l < r)] of both searches; [fuel] bounds the number of
    iterations, and [r - l] iterations always suffice
    (see [bf_loop_fuel_enough]). *)
Fixpoint bf_loop (fuel : nat) (p : BPlusTreePage) (key : KeyType) (l r : Z) : Z * Z :=
  match fuel with
  | O => (l, r)
  | Datatypes.S f =>
      if l <? r then
        let mid := Z.shiftr (l + r + 1) 1 in
        if negb (comparator_ (KeyAt p mid) key =? 1)
        then bf_loop f p key mid r
        else bf_loop f p key l (mid - 1)
      else (l, r)
  end.

Definition BinaryFind_leaf (p : BPlusTreePage) (key : KeyType) : Z :=
  let l := 0 in
  let r := GetSize p - 1 in
  let '(_, r) := bf_loop (Z.to_nat (r - l)) p key l r in
  if (0 <=? r) && (comparator_ (KeyAt p r) key =? 1) then -1 else r.

Definition BinaryFind_internal (p : BPlusTreePage) (key : KeyType) : Z :=
  let l := 1 in
  let r := GetSize p - 1 in
  let '(_, r) := bf_loop (Z.to_nat (r - l)) p key l r in
  if (r =? -1) || (comparator_ (KeyAt p r) key =? 1) then 0 else r.

(** ** The tree and the page pool *)

(** The tree object ([leaf_max_size_], [internal_max_size_]), the header page
    ([root_page_id_]) and the buffer pool.  Modelled from the spec: the
    paging service is an external contract; allocating a page returns an id
    that was never handed out before ([next_alloc_]) together with a fresh
    page, and deleting a page returns it to the pool. *)
Record BPlusTree := mkTree {
  leaf_max_size_ : Z;
  internal_max_size_ : Z;
  root_page_id_ : page_id_t;
  pages_ : gmap Z BPlusTreePage;
  next_alloc_ : page_id_t
}.

(** The constructor (lines 21-40) stores the fan-out limits and sets the
    header's root id to INVALID, on the pool it is given.  [BPlusTree_new]
    is that state on a pool that holds no page yet and whose allocator
    starts at 0; the header page itself is the field [root_page_id_], not
    an entry of [pages_].  Any state with [root_page_id_ = INVALID_PAGE_ID]
    is a tree as the constructor leaves it on some pool. *)
Definition BPlusTree_new (leaf_max_size internal_max_size : Z) : BPlusTree :=
  mkTree leaf_max_size internal_max_size INVALID_PAGE_ID ∅ 0.

Definition IsEmpty (t : BPlusTree) : bool := root_page_id_ t =? INVALID_PAGE_ID.
Definition GetRootPageId (t : BPlusTree) : page_id_t := root_page_id_ t.

Definition FetchPage (t : BPlusTree) (pid : page_id_t) : option BPlusTreePage :=
  pages_ t !! pid.

Definition set_root (t : BPlusTree) (r : page_id_t) : BPlusTree :=
  mkTree (leaf_max_size_ t) (internal_max_size_ t) r (pages_ t) (next_alloc_ t).

Definition set_pages (t : BPlusTree) (m : gmap Z BPlusTreePage) : BPlusTree :=
  mkTree (leaf_max_size_ t) (internal_max_size_ t) (root_page_id_ t) m (next_alloc_ t).

(** Writing through a page pointer obtained from a write guard. *)
Definition put_page (t : BPlusTree) (pid : page_id_t) (p : BPlusTreePage) : BPlusTree :=
  set_pages t (<[pid := p]> (pages_ t)).

(** The page behind a pointer that was obtained from a guard earlier. *)
Definition page_at (t : BPlusTree) (pid : page_id_t) : BPlusTreePage :=
  default zero_page (pages_ t !! pid).

Definition modify_page (t : BPlusTree) (pid : page_id_t)
    (f : BPlusTreePage -> BPlusTreePage) : BPlusTree :=
  put_page t pid (f (page_at t pid)).

Definition NewPage (t : BPlusTree) : page_id_t * BPlusTree :=
  let id := next_alloc_ t in
  (id, mkTree (leaf_max_size_ t) (internal_max_size_ t) (root_page_id_ t)
         (<[id := zero_page]> (pages_ t)) (id + 1)).

Definition DeletePage (t : BPlusTree) (pid : page_id_t) : BPlusTree :=
  set_pages t (delete pid (pages_ t)).

(** A descent that visits more pages than the pool holds has visited one
    page twice, and then loops for ever (it only reads): the descents run
    with this many steps. *)
Definition descent_fuel (t : BPlusTree) : nat := Datatypes.S (size (pages_ t)).

(** ** Search (lines 65-91) *)

(** The loop [while (!tmp_page->IsLeafPage())] of [GetValue], started on
    page [pid]; it ends on a leaf. *)
Fixpoint descend (fuel : nat) (t : BPlusTree) (key : KeyType) (pid : page_id_t)
    : option (page_id_t * BPlusTreePage) :=
  match fuel with
  | O => None
  | Datatypes.S f =>
      match FetchPage t pid with
      | None => None
      | Some p =>
          if IsLeafPage p then Some (pid, p)
          else descend f t key (ValueAt p (BinaryFind_internal p key))
      end
  end.

(** [GetValue]: [Some (Some v)] is "true, with v pushed on the result",
    [Some None] is "false". *)
Definition GetValue (t : BPlusTree) (key : KeyType) : option (option ValueType) :=
  if root_page_id_ t =? INVALID_PAGE_ID then Some None
  else
    match descend (descent_fuel t) t key (root_page_id_ t) with
    | None => None
    | Some (_, leaf_page) =>
        let slot_num := BinaryFind_leaf leaf_page key in
        if negb (slot_num =? -1) && (comparator_ (KeyAt leaf_page slot_num) key =? 0)
        then Some (Some (ValueAt leaf_page slot_num))
        else Some None
    end.

(** ** Insertion (lines 104-241) *)

(** Phase 1: the descent that records the page id of every visited node,
    root first, target leaf last (lines 119-130). *)
Fixpoint descend_road (fuel : nat) (t : BPlusTree) (key : KeyType) (pid : page_id_t)
    : option (list page_id_t) :=
  match fuel with
  | O => None
  | Datatypes.S f =>
      match FetchPage t pid with
      | None => None
      | Some p =>
          if IsLeafPage p then Some [pid]
          else
            match descend_road f t key (ValueAt p (BinaryFind_internal p key)) with
            | None => None
            | Some road => Some (pid :: road)
            end
      end
  end.

(** The scan for the slot of the new entry (lines 143-149 and 193-199):
    the first [j] in [0, size) whose key compares greater, else [size]. *)
Fixpoint find_pos (n : nat) (p : BPlusTreePage) (key : KeyType) (j : Z) : Z :=
  match n with
  | O => GetSize p
  | Datatypes.S n' =>
      if comparator_ (KeyAt p j) key =? 1 then j
      else find_pos n' p key (j + 1)
  end.
Definition insert_pos (p : BPlusTreePage) (key : KeyType) : Z :=
  find_pos (Z.to_nat (GetSize p)) p key 0.

(** Lines 150-156 and 200-206: grow by one, shift the slots above [pos] up
    by one, write the new entry at [pos]. *)
Definition insert_slot (p : BPlusTreePage) (pos : Z) (key : KeyType) (value : Z)
    : BPlusTreePage :=
  let p1 := IncreaseSize p 1 in
  let p2 :=
    for_range_down (GetSize p1 - 1) pos
      (fun j q =>
         let q1 := SetKeyAt q j (KeyAt q (j - 1)) in
         SetValueAt q1 j (ValueAt q1 (j - 1)))
      p1 in
  SetValueAt (SetKeyAt p2 pos key) pos value.

(** Lines 167-173 and 215-221: [half = size / 2]; the slots [half, size) of
    the over-full page go to the new page, the old page keeps [half]. *)
Definition move_slot (old_page : BPlusTreePage) (half j : Z) (new_page : BPlusTreePage)
    : BPlusTreePage :=
  let q1 := SetKeyAt new_page (j - half) (KeyAt old_page j) in
  SetValueAt q1 (j - half) (ValueAt old_page j).

Definition split_page (old_page new_page : BPlusTreePage)
    : BPlusTreePage * BPlusTreePage :=
  let half := Z.quot (GetSize old_page) 2 in
  let new1 := SetSize new_page (GetSize old_page - half) in
  let new2 := for_range half (GetSize old_page) (move_slot old_page half) new1 in
  (SetSize old_page half, new2).

(** Lines 176-189 and 224-237: a split of the root allocates a new internal
    root with two slots and stores its id in the header. *)
Definition new_root (t : BPlusTree) (old_root : page_id_t) (old_page : BPlusTreePage)
    (new_key : KeyType) (new_page_id : page_id_t) : BPlusTree :=
  let '(new_id, t1) := NewPage t in
  let r0 := InitInternal zero_page (internal_max_size_ t) in
  let r1 := SetSize r0 2 in
  let r2 := SetPageType r1 INTERNAL_PAGE in
  let r3 := SetKeyAt r2 0 (KeyAt old_page 0) in
  let r4 := SetValueAt r3 0 old_root in
  let r5 := SetKeyAt r4 1 new_key in
  let r6 := SetValueAt r5 1 new_page_id in
  set_root (put_page t1 new_id r6) new_id.

(** The internal levels of the bottom-up loop (lines 190-238); [up] holds
    road[i], road[i-1], ..., road[0], and (new_key, new_page_id) is the
    carry of the split below. *)
Fixpoint insert_internal_levels (t : BPlusTree) (up : list page_id_t)
    (new_key : KeyType) (new_page_id : page_id_t) : BPlusTree :=
  match up with
  | [] => t
  | pid :: rest =>
      let internal_page := page_at t pid in
      let pos := insert_pos internal_page new_key in
      let internal_page := insert_slot internal_page pos new_key new_page_id in
      if GetSize internal_page <=? GetMaxSize internal_page
      then put_page t pid internal_page
      else
        let '(new_id, t1) := NewPage t in
        let new_page := SetPageType (InitInternal zero_page (internal_max_size_ t)) INTERNAL_PAGE in
        let '(internal_page, new_page) := split_page internal_page new_page in
        let t2 := put_page (put_page t1 pid internal_page) new_id new_page in
        let new_key := KeyAt new_page 0 in
        match rest with
        | [] => new_root t2 pid internal_page new_key new_id
        | _ :: _ => insert_internal_levels t2 rest new_key new_id
        end
  end.

(** The leaf level of the bottom-up loop (lines 140-189), followed by the
    internal levels. *)
Definition insert_levels (t : BPlusTree) (up : list page_id_t)
    (key : KeyType) (value : ValueType) : BPlusTree :=
  match up with
  | [] => t
  | pid :: rest =>
      let leaf_page := page_at t pid in
      let pos := insert_pos leaf_page key in
      let leaf_page := insert_slot leaf_page pos key value in
      if GetSize leaf_page <=? GetMaxSize leaf_page
      then put_page t pid leaf_page
      else
        let '(new_id, t1) := NewPage t in
        let new_page := SetPageType (InitLeaf zero_page (leaf_max_size_ t)) LEAF_PAGE in
        let new_page := SetNextPageId new_page (GetNextPageId leaf_page) in
        let leaf_page := SetNextPageId leaf_page new_id in
        let '(leaf_page, new_page) := split_page leaf_page new_page in
        let t2 := put_page (put_page t1 pid leaf_page) new_id new_page in
        let new_key := KeyAt new_page 0 in
        match rest with
        | [] => new_root t2 pid leaf_page new_key new_id
        | _ :: _ => insert_internal_levels t2 rest new_key new_id
        end
  end.

(** Lines 111-118: an empty tree gets a fresh leaf as its root. *)
Definition ensure_root (t : BPlusTree) : BPlusTree :=
  if root_page_id_ t =? INVALID_PAGE_ID then
    let '(id, t1) := NewPage t in
    let root_page := SetPageType (InitLeaf zero_page (leaf_max_size_ t)) LEAF_PAGE in
    set_root (put_page t1 id root_page) id
  else t.

(** [Insert]: the returned boolean is the C++ return value, the tree is the
    state the call leaves behind. *)
Definition Insert (t : BPlusTree) (key : KeyType) (value : ValueType)
    : option (bool * BPlusTree) :=
  let t1 := ensure_root t in
  match descend_road (descent_fuel t1) t1 key (root_page_id_ t1) with
  | None => None
  | Some road =>
      let leaf_page := page_at t1 (List.last road INVALID_PAGE_ID) in
      let slot_num := BinaryFind_leaf leaf_page key in
      if negb (slot_num =? -1) && (comparator_ (KeyAt leaf_page slot_num) key =? 0)
      then Some (false, t1)
      else Some (true, insert_levels t1 (rev road) key value)
  end.

(** ** Removal (lines 254-375) *)

(** Phase 1: the descent that records (page id, slot taken) for every
    visited node (lines 263-275); the leaf's slot is filled in later. *)
Fixpoint descend_slots (fuel : nat) (t : BPlusTree) (key : KeyType) (pid : page_id_t)
    : option (list (page_id_t * Z)) :=
  match fuel with
  | O => None
  | Datatypes.S f =>
      match FetchPage t pid with
      | None => None
      | Some p =>
          if IsLeafPage p then Some [(pid, 0)]
          else
            let slot_num := BinaryFind_internal p key in
            match descend_slots f t key (ValueAt p slot_num) with
            | None => None
            | Some road => Some ((pid, slot_num) :: road)
            end
      end
  end.

(** Lines 287-291 and 330-334: shrink by one and shift the slots above
    [slot] down by one. *)
Definition remove_slot (p : BPlusTreePage) (slot : Z) : BPlusTreePage :=
  let p1 := IncreaseSize p (-1) in
  for_range slot (GetSize p1)
    (fun j q =>
       let q1 := SetKeyAt q j (KeyAt q (j + 1)) in
       SetValueAt q1 j (ValueAt q1 (j + 1)))
    p1.

(** [dst->SetKeyAt(di, src->KeyAt(si)); dst->SetValueAt(di, src->ValueAt(si))]
    through page pointers into the pool ([dst] and [src] are page ids). *)
Definition copy_slot (t : BPlusTree) (dst : page_id_t) (di : Z)
    (src : page_id_t) (si : Z) : BPlusTree :=
  let t1 := modify_page t dst (fun q => SetKeyAt q di (KeyAt (page_at t src) si)) in
  modify_page t1 dst (fun q => SetValueAt q di (ValueAt (page_at t1 src) si)).

(** What the loop does after a level: [return] or go on with the parent. *)
Inductive flow := Return | Continue.

(** Lines 301-326: a non-root leaf [pid] is below its minimum; [ppid] is its
    parent and [pos] the slot taken in the parent. *)
Definition leaf_underflow (t : BPlusTree) (pid ppid : page_id_t) (pos : Z)
    : option (BPlusTree * flow) :=
  match FetchPage t ppid with
  | None => None
  | Some parent_page =>
      if negb (pos =? 0) then
        let sib := ValueAt parent_page (pos - 1) in
        match FetchPage t sib with
        | None => None
        | Some _ =>
            let t1 :=
              for_range 0 (GetSize (page_at t pid))
                (fun j s => copy_slot s sib (j + GetSize (page_at s pid)) pid j) t in
            let t2 := modify_page t1 sib
                        (fun q => IncreaseSize q (GetSize (page_at t1 pid))) in
            if GetSize (page_at t2 sib) <=? GetMaxSize (page_at t2 sib) then
              let t3 := modify_page t2 sib
                          (fun q => SetNextPageId q (GetNextPageId (page_at t2 pid))) in
              Some (DeletePage t3 pid, Continue)
            else
              let half := Z.quot (GetSize (page_at t2 sib)) 2 in
              let t3 := modify_page t2 pid
                          (fun q => SetSize q (GetSize (page_at t2 sib) - half)) in
              let t4 :=
                for_range half (GetSize (page_at t3 sib))
                  (fun j s => copy_slot s pid (j - half) sib j) t3 in
              let t5 := modify_page t4 sib (fun q => SetSize q half) in
              let t6 := modify_page t5 ppid
                          (fun q => SetKeyAt q pos (KeyAt (page_at t5 pid) 0)) in
              Some (t6, Return)
        end
      else Some (t, Continue)
  end.

(** Lines 344-371: the same for a non-root internal page. *)
Definition internal_underflow (t : BPlusTree) (pid ppid : page_id_t) (pos : Z)
    : option (BPlusTree * flow) :=
  match FetchPage t ppid with
  | None => None
  | Some parent_page =>
      if negb (pos =? 0) then
        let sib := ValueAt parent_page (pos - 1) in
        match FetchPage t sib with
        | None => None
        | Some _ =>
            let ta := modify_page t sib
                        (fun q => SetKeyAt q (GetSize q) (KeyAt (page_at t ppid) (pos - 1))) in
            let tb := modify_page ta sib
                        (fun q => SetValueAt q (GetSize q) (ValueAt (page_at ta pid) 0)) in
            let tc := modify_page tb sib (fun q => IncreaseSize q 1) in
            let t1 :=
              for_range 0 (GetSize (page_at tc pid))
                (fun j s => copy_slot s sib (j + GetSize (page_at s sib)) pid j) tc in
            let t2 := modify_page t1 sib
                        (fun q => IncreaseSize q (GetSize (page_at t1 pid))) in
            if GetSize (page_at t2 sib) <=? GetMaxSize (page_at t2 sib) then
              Some (DeletePage t2 pid, Continue)
            else
              let half := Z.quot (GetSize (page_at t2 sib)) 2 in
              let t3 := modify_page t2 pid
                          (fun q => SetSize q (GetSize (page_at t2 sib) - half)) in
              let t4 :=
                for_range half (GetSize (page_at t3 sib))
                  (fun j s => copy_slot s pid (j - half) sib j) t3 in
              let t5 := modify_page t4 sib (fun q => SetSize q half) in
              let t6 := modify_page t5 ppid
                          (fun q => SetKeyAt q pos (KeyAt (page_at t5 pid) 0)) in
              Some (t6, Return)
        end
      else Some (t, Continue)
  end.

(** The bottom-up loop (lines 283-373); [up] holds road[i], ..., road[0] and
    [leaf_level] tells whether road[i] is the last element of the road. *)
Fixpoint remove_levels (t : BPlusTree) (up : list (page_id_t * Z)) (leaf_level : bool)
    : option BPlusTree :=
  match up with
  | [] => Some t
  | (pid, slot) :: rest =>
      match FetchPage t pid with
      | None => None
      | Some _ =>
          let t1 := modify_page t pid (fun p => remove_slot p slot) in
          let page := page_at t1 pid in
          if GetMinSize page <=? GetSize page then Some t1
          else
            match rest with
            | [] =>
                if leaf_level then
                  if GetSize page =? 0
                  then Some (DeletePage (set_root t1 INVALID_PAGE_ID) pid)
                  else Some t1
                else
                  if GetSize page =? 1
                  then Some (DeletePage (set_root t1 (ValueAt page 0)) pid)
                  else Some t1
            | (ppid, pos) :: _ =>
                match (if leaf_level then leaf_underflow t1 pid ppid pos
                       else internal_underflow t1 pid ppid pos) with
                | None => None
                | Some (t2, Return) => Some t2
                | Some (t2, Continue) => remove_levels t2 rest false
                end
            end
      end
  end.

(** [Remove] returns nothing; the result is the state it leaves behind. *)
Definition Remove (t : BPlusTree) (key : KeyType) : option BPlusTree :=
  if root_page_id_ t =? INVALID_PAGE_ID then Some t
  else
    match descend_slots (descent_fuel t) t key (root_page_id_ t) with
    | None => None
    | Some road =>
        match rev road with
        | [] => None
        | (leaf_id, _) :: rest =>
            let leaf_page := page_at t leaf_id in
            let slot_num := BinaryFind_leaf leaf_page key in
            if (slot_num =? -1) || negb (comparator_ (KeyAt leaf_page slot_num) key =? 0)
            then Some t
            else remove_levels t ((leaf_id, slot_num) :: rest) true
        end
    end.

(** ** Index iterator (lines 425-497) *)

Record IndexIterator := mkIterator { it_page_id : page_id_t; it_index : Z }.

Definition End : IndexIterator := mkIterator (-1) (-1).

(** The descent of [Begin()] always takes slot 0 (lines 442-446). *)
Fixpoint descend_leftmost (fuel : nat) (t : BPlusTree) (pid : page_id_t)
    : option page_id_t :=
  match fuel with
  | O => None
  | Datatypes.S f =>
      match FetchPage t pid with
      | None => None
      | Some p =>
          if IsLeafPage p then Some pid
          else descend_leftmost f t (ValueAt p 0)
      end
  end.

Definition Begin (t : BPlusTree) : option IndexIterator :=
  if root_page_id_ t =? INVALID_PAGE_ID then Some End
  else
    match descend_leftmost (descent_fuel t) t (root_page_id_ t) with
    | None => None
    | Some pid => Some (mkIterator pid 0)
    end.

(** The descent of [Begin(key)] (lines 470-478): a routing result of -1
    would end the call with [End()]. *)
Fixpoint descend_begin (fuel : nat) (t : BPlusTree) (key : KeyType) (pid : page_id_t)
    : option (option (page_id_t * BPlusTreePage)) :=
  match fuel with
  | O => None
  | Datatypes.S f =>
      match FetchPage t pid with
      | None => None
      | Some p =>
          if IsLeafPage p then Some (Some (pid, p))
          else
            let slot_num := BinaryFind_internal p key in
            if slot_num =? -1 then Some None
            else descend_begin f t key (ValueAt p slot_num)
      end
  end.

Definition Begin_key (t : BPlusTree) (key : KeyType) : option IndexIterator :=
  if root_page_id_ t =? INVALID_PAGE_ID then Some End
  else
    match descend_begin (descent_fuel t) t key (root_page_id_ t) with
    | None => None
    | Some None => Some End
    | Some (Some (pid, leaf_page)) =>
        let slot_num := BinaryFind_leaf leaf_page key in
        if negb (slot_num =? -1) then Some (mkIterator pid slot_num)
        else Some End
    end.

(** ** Bulk drivers (lines 519-547) *)

(** [InsertFromFile] and [RemoveFromFile] on the list of integers read from
    the file: every key [k] is inserted with the record id made from [k]. *)
Fixpoint InsertFromFile (t : BPlusTree) (keys : list Z) : option BPlusTree :=
  match keys with
  | [] => Some t
  | key :: rest =>
      match Insert t key key with
      | None => None
      | Some (_, t') => InsertFromFile t' rest
      end
  end.

Fixpoint RemoveFromFile (t : BPlusTree) (keys : list Z) : option BPlusTree :=
  match keys with
  | [] => Some t
  | key :: rest =>
      match Remove t key with
      | None => None
      | Some t' => RemoveFromFile t' rest
      end
  end.

(** The live slots of a page: the first [size] slots of its array. *)
Definition slots (p : BPlusTreePage) : list (KeyType * Z) :=
  map (SlotAt p) (map Z.of_nat (seq 0 (Z.to_nat (GetSize p)))).

(** Keys strictly increasing under the comparator on the slots
    [lo, size). *)
Definition keys_increasing (lo : Z) (p : BPlusTreePage) : Prop :=
  forall i j, lo <= i -> i < j -> j < GetSize p ->
    comparator_ (KeyAt p i) (KeyAt p j) = -1.

(** ** Reference definitions and example inputs *)

(** The cursor position that "the first slot whose key is >= key" asks
    for: the claim's reading of [Begin(key)], kept apart from the code's. *)
Fixpoint first_slot_ge (n : nat) (p : BPlusTreePage) (key : KeyType) (j : Z) : option Z :=
  match n with
  | O => None
  | Datatypes.S n' =>
      if comparator_ (KeyAt p j) key =? -1 then first_slot_ge n' p key (j + 1)
      else Some j
  end.

Definition Begin_key_claimed (t : BPlusTree) (key : KeyType) : option IndexIterator :=
  match descend (descent_fuel t) t key (root_page_id_ t) with
  | None => None
  | Some (pid, leaf_page) =>
      match first_slot_ge (Z.to_nat (GetSize leaf_page)) leaf_page key 0 with
      | Some slot => Some (mkIterator pid slot)
      | None => Some End
      end
  end.

(** The keys 1, 2, ..., n in ascending order. *)
Definition ascending (n : nat) : list Z := map Z.of_nat (seq 1 n).

(** The tree with leaf_max = internal_max = 4 after inserting [keys]. *)
Definition tree_of (keys : list Z) : BPlusTree :=
  default (BPlusTree_new 4 4) (InsertFromFile (BPlusTree_new 4 4) keys).

(** The tree after inserting [ins] and then removing [rem]. *)
Definition tree_after (ins rem : list Z) : BPlusTree :=
  default (BPlusTree_new 4 4)
    (match InsertFromFile (BPlusTree_new 4 4) ins with
     | Some t => RemoveFromFile t rem
     | None => None
     end).

(** A leaf holding the keys 1, 3, 5. *)
Definition example_leaf : BPlusTreePage :=
  mkPage LEAF_PAGE 3 4 INVALID_PAGE_ID [(1, 1); (3, 3); (5, 5)].

(** A leaf with max_size 4 over-filled to 5 entries, and the fresh leaf a
    split hands to [split_page]. *)
Definition overfull_leaf : BPlusTreePage :=
  mkPage LEAF_PAGE 5 4 1 [(1, 1); (2, 2); (3, 3); (4, 4); (5, 5)].
Definition fresh_leaf : BPlusTreePage :=
  SetNextPageId (SetPageType (InitLeaf zero_page 4) LEAF_PAGE) INVALID_PAGE_ID.

(** ** Definitions used by the further properties *)

(** The body of the shifting loop of an insertion (lines 151-154 and
    201-204): slot [j] takes the content of slot [j - 1]. *)
Definition shift_up_step (j : Z) (q : BPlusTreePage) : BPlusTreePage :=
  let q1 := SetKeyAt q j (KeyAt q (j - 1)) in
  SetValueAt q1 j (ValueAt q1 (j - 1)).

(** The body of the shifting loop of a removal (lines 288-291 and 331-334):
    slot [j] takes the content of slot [j + 1]. *)
Definition shift_down_step (j : Z) (q : BPlusTreePage) : BPlusTreePage :=
  let q1 := SetKeyAt q j (KeyAt q (j + 1)) in
  SetValueAt q1 j (ValueAt q1 (j + 1)).

(** Two pages with the same header fields (kind, size, capacity, link). *)
Definition same_header (a b : BPlusTreePage) : Prop :=
  page_type_ a = page_type_ b /\ size_ a = size_ b /\
  max_size_ a = max_size_ b /\ next_page_id_ a = next_page_id_ b.

(** The test at the end of the descents of [GetValue], [Insert] and
    [Remove] (lines 85-90, 133-136, 278-281): the value under [key] on a
    leaf, if the leaf search lands on [key]. *)
Definition leaf_lookup (p : BPlusTreePage) (key : KeyType) : option ValueType :=
  let slot_num := BinaryFind_leaf p key in
  if negb (slot_num =? -1) && (comparator_ (KeyAt p slot_num) key =? 0)
  then Some (ValueAt p slot_num)
  else None.

(** A leaf with the keys 1, 3, 5 and room for one more entry, as the pool
    holds it after inserting 1, 3, 5. *)
Definition tree_135 : BPlusTree := tree_of [1; 3; 5].

(** A tree that consists of one leaf, the root, with strictly increasing
    keys. *)
Definition single_leaf (t : BPlusTree) (p : BPlusTreePage) : Prop :=
  root_page_id_ t <> INVALID_PAGE_ID /\
  FetchPage t (root_page_id_ t) = Some p /\
  IsLeafPage p = true /\
  0 <= GetSize p /\
  keys_increasing 0 p.

(** Two states of the same tree object and allocator: the fan-out limits
    are equal and the allocator has not moved. *)
Definition same_allocator (t t' : BPlusTree) : Prop :=
  leaf_max_size_ t' = leaf_max_size_ t /\
  internal_max_size_ t' = internal_max_size_ t /\
  next_alloc_ t' = next_alloc_ t.

(** What [Insert] keeps: the fan-out limits, a root id that is a page id
    (not negative), and an allocator that only moves forward. *)
Definition insert_keeps (t t' : BPlusTree) : Prop :=
  leaf_max_size_ t' = leaf_max_size_ t /\
  internal_max_size_ t' = internal_max_size_ t /\
  next_alloc_ t <= next_alloc_ t' /\
  0 <= root_page_id_ t' /\ root_page_id_ t' < next_alloc_ t'.

(** The root leaf of the tree after inserting 7, and the full root leaf of
    the tree after inserting 1, 2, 3, 4. *)
Definition leaf_7 : BPlusTreePage :=
  mkPage LEAF_PAGE 1 4 INVALID_PAGE_ID [(7, 7)].
Definition full_leaf : BPlusTreePage :=
  mkPage LEAF_PAGE 4 4 INVALID_PAGE_ID [(1, 1); (2, 2); (3, 3); (4, 4)].


(** An empty tree, as the constructor leaves it, on a pool that is already
    in use: page 0 is taken (by the header page, for instance) and the
    allocator hands out 1 next. *)
Definition tree_on_used_pool : BPlusTree :=
  mkTree 4 4 INVALID_PAGE_ID (<[0 := zero_page]> ∅) 1.

(** "The leftmost leaf": [leftmost_leaf t pid leaf] holds when the children
    in slot 0, followed from page [pid] through internal pages of the pool,
    lead to the leaf page [leaf]. *)
Inductive leftmost_leaf (t : BPlusTree) : page_id_t -> page_id_t -> Prop :=
| leftmost_here (pid : page_id_t) (p : BPlusTreePage) :
    FetchPage t pid = Some p -> IsLeafPage p = true -> leftmost_leaf t pid pid
| leftmost_below (pid leaf : page_id_t) (p : BPlusTreePage) :
    FetchPage t pid = Some p -> IsLeafPage p = false ->
    leftmost_leaf t (ValueAt p 0) leaf -> leftmost_leaf t pid leaf.

(** [reach_in n t pid leaf]: the descent from [pid] passes exactly [n]
    internal pages before it arrives at [leaf]. *)
Definition reach_in (n : nat) (t : BPlusTree) (pid leaf : page_id_t) : Prop :=
  descend_leftmost (Datatypes.S n) t pid = Some leaf /\
  descend_leftmost n t pid = None.

(** The page of one level of [Insert]'s bottom-up loop after the entry has
    been written into it (lines 143-156 and 193-206), before the test
    against max_size. *)
Definition grown_page (t : BPlusTree) (pid : page_id_t) (key : KeyType) (value : Z)
    : BPlusTreePage :=
  insert_slot (page_at t pid) (insert_pos (page_at t pid) key) key value.

(** "The left node retains size / 2 entries and the right sibling receives
    the remaining entries, in order": [left] and [right] are the two halves
    of the over-full page [over]. *)
Definition split_halves (over left right : BPlusTreePage) : Prop :=
  GetSize left = GetSize over / 2 /\
  GetSize right = GetSize over - GetSize over / 2 /\
  (forall j, 0 <= j -> j < GetSize over / 2 -> SlotAt left j = SlotAt over j) /\
  (forall j, 0 <= j -> j < GetSize over - GetSize over / 2 ->
     SlotAt right j = SlotAt over (GetSize over / 2 + j)).

(** "carry_key is the first key of the new node": what the tree [result]
    shows of the carry after page [pid] was split into [left] (still page
    [pid]) and [right] (the page allocated for the split, [next_alloc_ t]).
    With levels above ([rest]), the loop goes on there with the carry
    (first key of [right], id of [right]); with none, the split node was
    the root, and a new root (the next page allocated) holds the old root
    in slot 0 and the carry in slot 1. *)
Definition carried_up (t : BPlusTree) (pid : page_id_t) (rest : list page_id_t)
    (left right : BPlusTreePage) (result : BPlusTree) : Prop :=
  match rest with
  | [] =>
      root_page_id_ result = next_alloc_ t + 1 /\
      FetchPage result pid = Some left /\
      FetchPage result (next_alloc_ t) = Some right /\
      exists r, FetchPage result (next_alloc_ t + 1) = Some r /\
                IsLeafPage r = false /\ GetSize r = 2 /\
                ValueAt r 0 = pid /\
                SlotAt r 1 = (KeyAt right 0, next_alloc_ t)
  | _ :: _ =>
      result = insert_internal_levels
                 (put_page (put_page (snd (NewPage t)) pid left) (next_alloc_ t) right)
                 rest (KeyAt right 0) (next_alloc_ t)
  end.

(** The state between two levels of the loop: the leaf [pid] has been split
    (lines 159-175), the level above has not been touched yet. *)
Definition leaf_split_state (t : BPlusTree) (pid : page_id_t) (key : KeyType) (value : Z)
    : BPlusTree :=
  let over := grown_page t pid key value in
  let new_page :=
    SetNextPageId (SetPageType (InitLeaf zero_page (leaf_max_size_ t)) LEAF_PAGE)
      (GetNextPageId over) in
  let halves := split_page (SetNextPageId over (next_alloc_ t)) new_page in
  put_page (put_page (snd (NewPage t)) pid (fst halves)) (next_alloc_ t) (snd halves).


(** * Properties *)

(** A conjunction of closed equations, each settled by evaluation. *)
Ltac evaluate :=
  repeat (apply conj; [vm_compute; reflexivity|]); vm_compute; reflexivity.

(** ** The spec's first scenarios, run on the embedding *)

(** Scenario 1: inserting 1, 2, 3, 4 gives a single leaf root holding them;
    [GetValue] finds 3 and reports 5 absent. *)
Example scenario_single_leaf :
  InsertFromFile (BPlusTree_new 4 4) (ascending 4) = Some (tree_of (ascending 4)) /\
  root_page_id_ (tree_of (ascending 4)) = 0 /\
  IsLeafPage (page_at (tree_of (ascending 4)) 0) = true /\
  slots (page_at (tree_of (ascending 4)) 0) = [(1, 1); (2, 2); (3, 3); (4, 4)] /\
  GetValue (tree_of (ascending 4)) 3 = Some (Some 3) /\
  GetValue (tree_of (ascending 4)) 5 = Some None.
Proof. evaluate. Qed.

(** Scenario 2: inserting 5 splits the leaf; the new root is internal with
    separator 3 over the leaves 1, 2 and 3, 4, 5, chained in this order. *)
Example scenario_leaf_split :
  Insert (tree_of (ascending 4)) 5 5 = Some (true, tree_of (ascending 5)) /\
  root_page_id_ (tree_of (ascending 5)) = 2 /\
  IsLeafPage (page_at (tree_of (ascending 5)) 2) = false /\
  slots (page_at (tree_of (ascending 5)) 2) = [(1, 0); (3, 1)] /\
  slots (page_at (tree_of (ascending 5)) 0) = [(1, 1); (2, 2)] /\
  slots (page_at (tree_of (ascending 5)) 1) = [(3, 3); (4, 4); (5, 5)] /\
  GetNextPageId (page_at (tree_of (ascending 5)) 0) = 1 /\
  GetNextPageId (page_at (tree_of (ascending 5)) 1) = INVALID_PAGE_ID.
Proof. evaluate. Qed.

(** ** The comparator *)

Lemma comparator_gt (a b : KeyType) : (comparator_ a b =? 1) = (b <? a).
Proof.
  unfold comparator_. destruct (Z.compare_spec a b); simpl; symmetry.
  - apply Z.ltb_ge. lia.
  - apply Z.ltb_ge. lia.
  - apply Z.ltb_lt. lia.
Qed.

Lemma comparator_eq (a b : KeyType) : (comparator_ a b =? 0) = (a =? b).
Proof.
  unfold comparator_. destruct (Z.compare_spec a b); simpl; symmetry.
  - apply Z.eqb_eq. lia.
  - apply Z.eqb_neq. lia.
  - apply Z.eqb_neq. lia.
Qed.

Lemma comparator_lt (a b : KeyType) : comparator_ a b = -1 <-> a < b.
Proof.
  unfold comparator_. destruct (Z.compare_spec a b); split; intros; (lia || discriminate || reflexivity).
Qed.

Lemma comparator_not_gt (a b : KeyType) : comparator_ a b <> 1 <-> a <= b.
Proof.
  unfold comparator_. destruct (Z.compare_spec a b); split; intros; try lia; try discriminate; congruence.
Qed.

Lemma comparator_is_gt (a b : KeyType) : comparator_ a b = 1 <-> b < a.
Proof.
  unfold comparator_. destruct (Z.compare_spec a b); split; intros; try lia; try discriminate; reflexivity.
Qed.

Lemma keys_increasing_lt lo p i j :
  keys_increasing lo p -> lo <= i -> i < j -> j < GetSize p -> KeyAt p i < KeyAt p j.
Proof. intros H ? ? ?. apply comparator_lt. apply H; assumption. Qed.

(** ** Binary search *)

Lemma shiftr_1 (x : Z) : Z.shiftr x 1 = x / 2.
Proof. rewrite Z.shiftr_div_pow2 by lia. reflexivity. Qed.

Section BinaryFindLoop.
Variable p : BPlusTreePage.
Variable key : KeyType.
Variable lo : Z.
Hypothesis Hsorted : keys_increasing lo p.

(** The loop narrows [l, r] to one slot: nothing above [r] is <= key, and
    slot [l] is <= key unless [l] is still the lowest slot. *)
Lemma bf_loop_inv (fuel : nat) : forall l r,
  lo <= l -> l <= r -> r < GetSize p ->
  (Z.to_nat (r - l) <= fuel)%nat ->
  (l = lo \/ KeyAt p l <= key) ->
  (forall i, r < i -> i < GetSize p -> key < KeyAt p i) ->
  exists m, bf_loop fuel p key l r = (m, m) /\ lo <= m /\ m < GetSize p /\
    (m = lo \/ KeyAt p m <= key) /\
    (forall i, m < i -> i < GetSize p -> key < KeyAt p i).
Proof.
  induction fuel as [|f IH]; intros l r Hl Hlr Hr Hfuel Hlow Hhigh.
  - assert (l = r) by lia. subst r. exists l. simpl. auto.
  - simpl. destruct (Z.ltb_spec l r) as [Hlt|Hge].
    + rewrite shiftr_1. rewrite comparator_gt.
      set (mid := (l + r + 1) / 2).
      assert (Hmid : l < mid /\ mid <= r) by (unfold mid; pose proof (Z.div_mod (l + r + 1) 2 ltac:(lia));
          pose proof (Z.mod_pos_bound (l + r + 1) 2 ltac:(lia)); lia).
      destruct (Z.ltb_spec key (KeyAt p mid)) as [Hgt|Hle]; simpl.
      * apply IH; try lia.
        intros i Hi1 Hi2.
        destruct (Z.eq_dec i mid) as [->|Hne]; [assumption|].
        assert (KeyAt p mid < KeyAt p i) by (apply (keys_increasing_lt lo); auto; lia).
        lia.
      * apply IH; try lia. auto.
    + assert (l = r) by lia. subst r. exists l. auto.
Qed.
End BinaryFindLoop.

Lemma BinaryFind_leaf_spec (p : BPlusTreePage) (key : KeyType) :
  0 <= GetSize p -> keys_increasing 0 p ->
  let r := BinaryFind_leaf p key in
  (r = -1 /\ forall i, 0 <= i -> i < GetSize p -> key < KeyAt p i) \/
  (0 <= r /\ r < GetSize p /\ KeyAt p r <= key /\
   forall i, r < i -> i < GetSize p -> key < KeyAt p i).
Proof.
  intros Hsize Hsorted. unfold BinaryFind_leaf.
  destruct (Z.eq_dec (GetSize p) 0) as [Hz|Hnz].
  - replace (Z.to_nat (GetSize p - 1 - 0)) with O by lia. simpl.
    rewrite Hz. simpl. left. split; [reflexivity | intros; lia].
  - destruct (bf_loop_inv p key 0 Hsorted (Z.to_nat (GetSize p - 1 - 0)) 0 (GetSize p - 1))
      as (m & Hloop & Hm0 & Hm1 & Hlow & Hhigh);
      [lia | lia | lia | lia | left; reflexivity | intros; lia |].
    rewrite Hloop. rewrite comparator_gt.
    destruct (Z.leb_spec 0 m) as [_|?]; [|lia].
    destruct (Z.ltb_spec key (KeyAt p m)) as [Hgt|Hle]; simpl.
    + left. split; [reflexivity|]. intros i Hi0 Hi1.
      destruct Hlow as [->|?]; [|lia].
      destruct (Z.eq_dec i 0) as [->|?]; [assumption|].
      assert (KeyAt p 0 < KeyAt p i) by (apply (keys_increasing_lt 0); auto; lia).
      lia.
    + right. auto.
Qed.

Lemma BinaryFind_internal_spec (p : BPlusTreePage) (key : KeyType) :
  0 <= GetSize p -> keys_increasing 1 p ->
  let r := BinaryFind_internal p key in
  (r = 0 /\ forall i, 1 <= i -> i < GetSize p -> key < KeyAt p i) \/
  (1 <= r /\ r < GetSize p /\ KeyAt p r <= key /\
   forall i, r < i -> i < GetSize p -> key < KeyAt p i).
Proof.
  intros Hsize Hsorted. unfold BinaryFind_internal.
  destruct (Z_le_gt_dec (GetSize p) 1) as [Hsmall|Hbig].
  - replace (Z.to_nat (GetSize p - 1 - 1)) with O by lia. simpl.
    left. split; [|intros; lia].
    destruct (Z.eqb_spec (GetSize p - 1) (-1)); simpl; [reflexivity|].
    destruct (comparator_ (KeyAt p (GetSize p - 1)) key =? 1); lia.
  - destruct (bf_loop_inv p key 1 Hsorted (Z.to_nat (GetSize p - 1 - 1)) 1 (GetSize p - 1))
      as (m & Hloop & Hm0 & Hm1 & Hlow & Hhigh);
      [lia | lia | lia | lia | left; reflexivity | intros; lia |].
    rewrite Hloop. rewrite comparator_gt.
    destruct (Z.eqb_spec m (-1)) as [?|_]; [lia|]. simpl.
    destruct (Z.ltb_spec key (KeyAt p m)) as [Hgt|Hle].
    + left. split; [reflexivity|]. intros i Hi0 Hi1.
      destruct Hlow as [->|?]; [|lia].
      destruct (Z.eq_dec i 1) as [->|?]; [assumption|].
      assert (KeyAt p 1 < KeyAt p i) by (apply (keys_increasing_lt 1); auto; lia).
      lia.
    + right. auto.
Qed.

Lemma keys_increasing_weaken (lo lo' : Z) (p : BPlusTreePage) :
  lo <= lo' -> keys_increasing lo p -> keys_increasing lo' p.
Proof. intros Hle H i j ? ? ?. apply H; lia. Qed.

(** C9. On a node whose keys are strictly increasing under the comparator,
    the leaf search returns the largest slot [i] with key[i] <= key, and -1
    when there is no such slot (in particular on a leaf of size 0); the
    internal search returns the largest slot [i >= 1] with key[i] <= key,
    and 0 when there is no such slot. *)
Theorem BinaryFind_largest_slot (p : BPlusTreePage) (key : KeyType) :
  0 <= GetSize p ->
  keys_increasing 0 p ->
  ((BinaryFind_leaf p key = -1 /\
    forall i, 0 <= i -> i < GetSize p -> comparator_ (KeyAt p i) key = 1) \/
   (0 <= BinaryFind_leaf p key /\ BinaryFind_leaf p key < GetSize p /\
    comparator_ (KeyAt p (BinaryFind_leaf p key)) key <> 1 /\
    forall i, BinaryFind_leaf p key < i -> i < GetSize p ->
      comparator_ (KeyAt p i) key = 1)) /\
  ((BinaryFind_internal p key = 0 /\
    forall i, 1 <= i -> i < GetSize p -> comparator_ (KeyAt p i) key = 1) \/
   (1 <= BinaryFind_internal p key /\ BinaryFind_internal p key < GetSize p /\
    comparator_ (KeyAt p (BinaryFind_internal p key)) key <> 1 /\
    forall i, BinaryFind_internal p key < i -> i < GetSize p ->
      comparator_ (KeyAt p i) key = 1)) /\
  (GetSize p = 0 -> BinaryFind_leaf p key = -1).
Proof.
  intros Hsize Hsorted. split; [|split].
  - destruct (BinaryFind_leaf_spec p key Hsize Hsorted) as [[Hr Hall]|(H0 & H1 & Hle & Hall)].
    + left. split; [assumption|]. intros. apply comparator_is_gt. auto.
    + right. repeat split; try assumption.
      * apply comparator_not_gt. assumption.
      * intros. apply comparator_is_gt. auto.
  - assert (Hs1 : keys_increasing 1 p) by (apply (keys_increasing_weaken 0); [lia|assumption]).
    destruct (BinaryFind_internal_spec p key Hsize Hs1) as [[Hr Hall]|(H0 & H1 & Hle & Hall)].
    + left. split; [assumption|]. intros. apply comparator_is_gt. auto.
    + right. repeat split; try assumption.
      * apply comparator_not_gt. assumption.
      * intros. apply comparator_is_gt. auto.
  - intros Hz. unfold BinaryFind_leaf.
    replace (Z.to_nat (GetSize p - 1 - 0)) with O by lia. simpl.
    rewrite Hz. reflexivity.
Qed.

(** The keys 1, 3, 5 are strictly increasing. *)
Lemma example_leaf_increasing : keys_increasing 0 example_leaf.
Proof.
  intros i j Hi Hij Hj. unfold GetSize in Hj. simpl in Hj.
  assert (Hc : (i = 0 /\ j = 1) \/ (i = 0 /\ j = 2) \/ (i = 1 /\ j = 2)) by lia.
  destruct Hc as [[-> ->]|[[-> ->]|[-> ->]]]; reflexivity.
Defined.

(** C9 on the leaf 1, 3, 5 and the key 4. *)
Lemma BinaryFind_largest_slot_witness :
  0 <= GetSize example_leaf /\ keys_increasing 0 example_leaf /\
  ((BinaryFind_leaf example_leaf 4 = -1 /\
    forall i, 0 <= i -> i < GetSize example_leaf ->
      comparator_ (KeyAt example_leaf i) 4 = 1) \/
   (0 <= BinaryFind_leaf example_leaf 4 /\
    BinaryFind_leaf example_leaf 4 < GetSize example_leaf /\
    comparator_ (KeyAt example_leaf (BinaryFind_leaf example_leaf 4)) 4 <> 1 /\
    forall i, BinaryFind_leaf example_leaf 4 < i -> i < GetSize example_leaf ->
      comparator_ (KeyAt example_leaf i) 4 = 1)) /\
  ((BinaryFind_internal example_leaf 4 = 0 /\
    forall i, 1 <= i -> i < GetSize example_leaf ->
      comparator_ (KeyAt example_leaf i) 4 = 1) \/
   (1 <= BinaryFind_internal example_leaf 4 /\
    BinaryFind_internal example_leaf 4 < GetSize example_leaf /\
    comparator_ (KeyAt example_leaf (BinaryFind_internal example_leaf 4)) 4 <> 1 /\
    forall i, BinaryFind_internal example_leaf 4 < i -> i < GetSize example_leaf ->
      comparator_ (KeyAt example_leaf i) 4 = 1)) /\
  (GetSize example_leaf = 0 -> BinaryFind_leaf example_leaf 4 = -1).
Proof.
  split; [vm_compute; discriminate|].
  split; [exact example_leaf_increasing|].
  apply (BinaryFind_largest_slot example_leaf 4).
  - vm_compute; discriminate.
  - exact example_leaf_increasing.
Defined.

(** ** Range cursor *)

Lemma BinaryFind_internal_not_minus_one (p : BPlusTreePage) (key : KeyType) :
  (BinaryFind_internal p key =? -1) = false.
Proof.
  unfold BinaryFind_internal.
  destruct (bf_loop _ p key 1 (GetSize p - 1)) as [l r].
  destruct (r =? -1) eqn:Hr; simpl; [reflexivity|].
  destruct (comparator_ (KeyAt p r) key =? 1); [reflexivity | assumption].
Qed.

(** The descent of [Begin(key)] is the descent of [GetValue]: its exit on a
    routing result of -1 is never taken. *)
Lemma descend_begin_descend (fuel : nat) (t : BPlusTree) (key : KeyType) :
  forall pid, descend_begin fuel t key pid =
              match descend fuel t key pid with
              | Some r => Some (Some r)
              | None => None
              end.
Proof.
  induction fuel as [|f IH]; intros pid; simpl; [reflexivity|].
  destruct (FetchPage t pid) as [p|]; [|reflexivity].
  destruct (IsLeafPage p); [reflexivity|].
  rewrite BinaryFind_internal_not_minus_one. apply IH.
Qed.

(** What [Begin(key)] does, on every state.  On a non-empty tree whose
    descent for [key] reaches the leaf [pid], it returns the cursor at the last slot
    of that leaf whose key is <= key, and the end cursor when the leaf has
    no such slot. *)
Theorem Begin_key_last_slot_le (t : BPlusTree) (key : KeyType)
    (pid : page_id_t) (leaf_page : BPlusTreePage) :
  root_page_id_ t <> INVALID_PAGE_ID ->
  descend (descent_fuel t) t key (root_page_id_ t) = Some (pid, leaf_page) ->
  0 <= GetSize leaf_page ->
  keys_increasing 0 leaf_page ->
  (Begin_key t key = Some End /\
   forall i, 0 <= i -> i < GetSize leaf_page ->
     comparator_ (KeyAt leaf_page i) key = 1) \/
  (exists slot, Begin_key t key = Some (mkIterator pid slot) /\
     0 <= slot /\ slot < GetSize leaf_page /\
     comparator_ (KeyAt leaf_page slot) key <> 1 /\
     forall i, slot < i -> i < GetSize leaf_page ->
       comparator_ (KeyAt leaf_page i) key = 1).
Proof.
  intros Hroot Hdesc Hsize Hsorted. unfold Begin_key.
  destruct (Z.eqb_spec (root_page_id_ t) INVALID_PAGE_ID) as [?|_]; [contradiction|].
  rewrite descend_begin_descend, Hdesc.
  destruct (BinaryFind_leaf_spec leaf_page key Hsize Hsorted)
    as [[Hr Hall]|(H0 & H1 & Hle & Hall)].
  - left. rewrite Hr. simpl. split; [reflexivity|].
    intros. apply comparator_is_gt. auto.
  - right. exists (BinaryFind_leaf leaf_page key).
    destruct (Z.eqb_spec (BinaryFind_leaf leaf_page key) (-1)) as [?|_]; [lia|].
    simpl. repeat split; try assumption.
    + apply comparator_not_gt. assumption.
    + intros. apply comparator_is_gt. auto.
Qed.

(** C7, as the claim has it, fails on the leaf with keys 1, 3, 5:
    [Begin(2)] is the cursor at slot 0 (key 1) where the first slot >= 2 is
    slot 1, and [Begin(0)] is the end cursor where the first slot >= 0 is
    slot 0. *)
Lemma Begin_key_counterexample :
  InsertFromFile (BPlusTree_new 4 4) [1; 3; 5] = Some (tree_of [1; 3; 5]) /\
  slots (page_at (tree_of [1; 3; 5]) 0) = [(1, 1); (3, 3); (5, 5)] /\
  Begin_key (tree_of [1; 3; 5]) 2 = Some (mkIterator 0 0) /\
  Begin_key_claimed (tree_of [1; 3; 5]) 2 = Some (mkIterator 0 1) /\
  Begin_key (tree_of [1; 3; 5]) 0 = Some End /\
  Begin_key_claimed (tree_of [1; 3; 5]) 0 = Some (mkIterator 0 0) /\
  ~ (forall (t : BPlusTree) (key : KeyType),
       root_page_id_ t <> INVALID_PAGE_ID ->
       Begin_key t key = Begin_key_claimed t key).
Proof.
  repeat (apply conj; [vm_compute; reflexivity|]).
  intros H.
  specialize (H (tree_of [1; 3; 5]) 2 ltac:(vm_compute; discriminate)).
  vm_compute in H. discriminate H.
Qed.

(** C7.  With leaf_max = internal_max = 4 and the keys 10, 20, 30, 40, 50
    inserted (leaves 10, 20 and 30, 40, 50), [Begin(25)] is the cursor at
    key 20, below the low key 25; [Begin(35)] is the cursor at key 30; and
    [Begin(5)] is the end cursor although every key of the tree is >= 5.
    The doc comment of lines 454-458 calls the argument a low key. *)
Theorem Begin_key_starts_below_low_key :
  InsertFromFile (BPlusTree_new 4 4) [10; 20; 30; 40; 50]
    = Some (tree_of [10; 20; 30; 40; 50]) /\
  slots (page_at (tree_of [10; 20; 30; 40; 50]) 0) = [(10, 10); (20, 20)] /\
  slots (page_at (tree_of [10; 20; 30; 40; 50]) 1) = [(30, 30); (40, 40); (50, 50)] /\
  Begin_key (tree_of [10; 20; 30; 40; 50]) 25 = Some (mkIterator 0 1) /\
  KeyAt (page_at (tree_of [10; 20; 30; 40; 50]) 0) 1 = 20 /\
  Begin_key_claimed (tree_of [10; 20; 30; 40; 50]) 25 = Some End /\
  Begin_key (tree_of [10; 20; 30; 40; 50]) 35 = Some (mkIterator 1 0) /\
  Begin_key_claimed (tree_of [10; 20; 30; 40; 50]) 35 = Some (mkIterator 1 1) /\
  Begin_key (tree_of [10; 20; 30; 40; 50]) 5 = Some End /\
  Begin_key_claimed (tree_of [10; 20; 30; 40; 50]) 5 = Some (mkIterator 0 0) /\
  ~ (forall (t : BPlusTree) (key : KeyType),
       root_page_id_ t <> INVALID_PAGE_ID ->
       Begin_key t key = Begin_key_claimed t key).
Proof.
  repeat (apply conj; [vm_compute; reflexivity|]).
  intros H.
  specialize (H (tree_of [10; 20; 30; 40; 50]) 25 ltac:(vm_compute; discriminate)).
  vm_compute in H. discriminate H.
Qed.

(** ** Slot arrays *)

Lemma nth_write_slot (f : KeyType * Z -> KeyType * Z) :
  forall (n m : nat) (l : list (KeyType * Z)),
    nth m (write_slot n f l) zero_slot =
    if Nat.eqb n m then f (nth m l zero_slot) else nth m l zero_slot.
Proof.
  induction n as [|n IH]; intros m l.
  - destruct l as [|x l]; destruct m as [|m]; simpl; try reflexivity.
    destruct m; reflexivity.
  - destruct l as [|x l]; destruct m as [|m]; simpl; try reflexivity.
    + rewrite IH. destruct (Nat.eqb n m); [|destruct m; reflexivity].
      destruct m; reflexivity.
    + apply IH.
Qed.

Lemma SlotAt_write (q : BPlusTreePage) (i j : Z) (k : KeyType) (v : Z) :
  0 <= i -> 0 <= j ->
  SlotAt (SetValueAt (SetKeyAt q i k) i v) j = if i =? j then (k, v) else SlotAt q j.
Proof.
  intros Hi Hj. unfold SlotAt, SetValueAt, SetKeyAt. simpl.
  rewrite !nth_write_slot.
  destruct (Z.eqb_spec i j) as [->|Hne].
  - rewrite Nat.eqb_refl. reflexivity.
  - destruct (Nat.eqb_spec (Z.to_nat i) (Z.to_nat j)) as [Heq|_]; [lia|reflexivity].
Qed.

Lemma GetSize_write (q : BPlusTreePage) (i : Z) (k : KeyType) (v : Z) :
  GetSize (SetValueAt (SetKeyAt q i k) i v) = GetSize q.
Proof. reflexivity. Qed.

(** The copy loop of a split: slot [j] of the source goes to slot
    [j - half] of the target. *)
Section CopyLoop.
Variable old_page : BPlusTreePage.
Variable half : Z.
Hypothesis Hhalf : 0 <= half.

Lemma copy_loop_size (n : nat) : forall j q,
  GetSize (for_up n j (move_slot old_page half) q) = GetSize q.
Proof.
  induction n as [|n IH]; intros j q; simpl; [reflexivity|].
  rewrite IH. reflexivity.
Qed.

Lemma copy_loop_slot (n : nat) : forall j q i,
  half <= j -> 0 <= i ->
  SlotAt (for_up n j (move_slot old_page half) q) i =
  if (j - half <=? i) && (i <? j - half + Z.of_nat n)
  then SlotAt old_page (i + half) else SlotAt q i.
Proof.
  induction n as [|n IH]; intros j q i Hj Hi.
  - simpl for_up.
    destruct (Z.leb_spec (j - half) i), (Z.ltb_spec i (j - half + Z.of_nat 0));
      simpl; try reflexivity; lia.
  - simpl for_up. rewrite IH by lia.
    unfold move_slot. rewrite SlotAt_write by lia.
    destruct (Z.leb_spec (j + 1 - half) i),
             (Z.ltb_spec i (j + 1 - half + Z.of_nat n)),
             (Z.eqb_spec (j - half) i),
             (Z.leb_spec (j - half) i),
             (Z.ltb_spec i (j - half + Z.of_nat (Datatypes.S n)));
      simpl; try reflexivity; try lia.
    replace (i + half) with j by lia. unfold KeyAt, ValueAt.
    destruct (SlotAt old_page j); reflexivity.
Qed.
End CopyLoop.

(** The split of one page.  A page over-filled to max_size + 1 entries is
    split at [half = size / 2] whether it is a leaf or an internal page: the
    old page keeps its first [half] entries, the new page receives the
    remaining [size - half] entries in order, and the carried key is the
    first key of the new page. *)
Theorem split_page_halves (old_page new_page : BPlusTreePage) :
  GetSize old_page = GetMaxSize old_page + 1 ->
  0 <= GetMaxSize old_page ->
  GetSize (fst (split_page old_page new_page)) = GetSize old_page / 2 /\
  GetSize (snd (split_page old_page new_page)) = GetSize old_page - GetSize old_page / 2 /\
  (forall j, 0 <= j -> j < GetSize old_page / 2 ->
     SlotAt (fst (split_page old_page new_page)) j = SlotAt old_page j) /\
  (forall j, 0 <= j -> j < GetSize old_page - GetSize old_page / 2 ->
     SlotAt (snd (split_page old_page new_page)) j = SlotAt old_page (GetSize old_page / 2 + j)) /\
  KeyAt (snd (split_page old_page new_page)) 0 = KeyAt old_page (GetSize old_page / 2).
Proof.
  intros Hfull Hmax.
  assert (Hsize : 0 < GetSize old_page) by lia.
  assert (Hq : Z.quot (GetSize old_page) 2 = GetSize old_page / 2)
    by (apply Z.quot_div_nonneg; lia).
  assert (Hhalf : 0 <= GetSize old_page / 2 /\ GetSize old_page / 2 < GetSize old_page).
  { pose proof (Z.div_mod (GetSize old_page) 2 ltac:(lia)).
    pose proof (Z.mod_pos_bound (GetSize old_page) 2 ltac:(lia)). lia. }
  assert (Hslot : forall j, 0 <= j -> j < GetSize old_page - GetSize old_page / 2 ->
     SlotAt (snd (split_page old_page new_page)) j = SlotAt old_page (GetSize old_page / 2 + j)).
  { intros j Hj0 Hj1. unfold split_page. rewrite Hq. simpl snd. unfold for_range.
    rewrite copy_loop_slot by lia.
    destruct (Z.leb_spec (GetSize old_page / 2 - GetSize old_page / 2) j); [|lia].
    destruct (Z.ltb_spec j (GetSize old_page / 2 - GetSize old_page / 2 +
      Z.of_nat (Z.to_nat (GetSize old_page - GetSize old_page / 2)))); [|lia].
    simpl. f_equal. lia. }
  split; [|split; [|split; [|split]]].
  - unfold split_page. rewrite Hq. reflexivity.
  - unfold split_page. rewrite Hq. simpl snd. unfold for_range.
    rewrite copy_loop_size. reflexivity.
  - intros j _ _. unfold split_page. reflexivity.
  - exact Hslot.
  - unfold KeyAt. rewrite Hslot by lia. f_equal. f_equal. lia.
Qed.

(** The split of the leaf 1, 2, 3, 4, 5 of max_size 4. *)
Lemma split_page_halves_witness :
  GetSize overfull_leaf = GetMaxSize overfull_leaf + 1 /\
  0 <= GetMaxSize overfull_leaf /\
  GetSize (fst (split_page overfull_leaf fresh_leaf)) = GetSize overfull_leaf / 2 /\
  GetSize (snd (split_page overfull_leaf fresh_leaf)) =
    GetSize overfull_leaf - GetSize overfull_leaf / 2 /\
  (forall j, 0 <= j -> j < GetSize overfull_leaf / 2 ->
     SlotAt (fst (split_page overfull_leaf fresh_leaf)) j = SlotAt overfull_leaf j) /\
  (forall j, 0 <= j -> j < GetSize overfull_leaf - GetSize overfull_leaf / 2 ->
     SlotAt (snd (split_page overfull_leaf fresh_leaf)) j =
     SlotAt overfull_leaf (GetSize overfull_leaf / 2 + j)) /\
  KeyAt (snd (split_page overfull_leaf fresh_leaf)) 0 =
    KeyAt overfull_leaf (GetSize overfull_leaf / 2).
Proof.
  split; [reflexivity|].
  split; [vm_compute; discriminate|].
  apply (split_page_halves overfull_leaf fresh_leaf).
  - reflexivity.
  - vm_compute; discriminate.
Defined.

(** C8, as the claim has it, fails on a leaf: inserting 5 into the leaf
    1, 2, 3, 4 (max_size 4) over-fills it to 5 entries, and the split leaves
    2 entries in the old leaf, not (5 + 1) / 2 = 3. *)
Lemma split_leaf_counterexample :
  InsertFromFile (BPlusTree_new 4 4) (ascending 4) = Some (tree_of (ascending 4)) /\
  slots (page_at (tree_of (ascending 4)) 0) = [(1, 1); (2, 2); (3, 3); (4, 4)] /\
  GetMaxSize (page_at (tree_of (ascending 4)) 0) = 4 /\
  Insert (tree_of (ascending 4)) 5 5 = Some (true, tree_of (ascending 5)) /\
  slots (page_at (tree_of (ascending 5)) 0) = [(1, 1); (2, 2)] /\
  slots (page_at (tree_of (ascending 5)) 1) = [(3, 3); (4, 4); (5, 5)] /\
  GetSize (page_at (tree_of (ascending 5)) 0) <> (5 + 1) / 2 /\
  ~ (forall old_page new_page : BPlusTreePage,
       GetSize old_page = GetMaxSize old_page + 1 ->
       IsLeafPage old_page = true ->
       GetSize (fst (split_page old_page new_page)) = (GetSize old_page + 1) / 2).
Proof.
  repeat (apply conj; [vm_compute; reflexivity|]).
  split; [vm_compute; discriminate|].
  intros H.
  specialize (H overfull_leaf fresh_leaf eq_refl eq_refl).
  vm_compute in H. discriminate H.
Qed.

(** C7 on the tree holding 1, 3, 5 and the key 2. *)
Lemma Begin_key_last_slot_le_witness :
  root_page_id_ (tree_of [1; 3; 5]) <> INVALID_PAGE_ID /\
  descend (descent_fuel (tree_of [1; 3; 5])) (tree_of [1; 3; 5]) 2
    (root_page_id_ (tree_of [1; 3; 5])) = Some (0, example_leaf) /\
  0 <= GetSize example_leaf /\
  keys_increasing 0 example_leaf /\
  ((Begin_key (tree_of [1; 3; 5]) 2 = Some End /\
    forall i, 0 <= i -> i < GetSize example_leaf ->
      comparator_ (KeyAt example_leaf i) 2 = 1) \/
   (exists slot, Begin_key (tree_of [1; 3; 5]) 2 = Some (mkIterator 0 slot) /\
      0 <= slot /\ slot < GetSize example_leaf /\
      comparator_ (KeyAt example_leaf slot) 2 <> 1 /\
      forall i, slot < i -> i < GetSize example_leaf ->
        comparator_ (KeyAt example_leaf i) 2 = 1)).
Proof.
  split; [vm_compute; discriminate|].
  split; [vm_compute; reflexivity|].
  split; [vm_compute; discriminate|].
  split; [exact example_leaf_increasing|].
  apply (Begin_key_last_slot_le (tree_of [1; 3; 5]) 2 0 example_leaf).
  - vm_compute; discriminate.
  - vm_compute; reflexivity.
  - vm_compute; discriminate.
  - exact example_leaf_increasing.
Defined.

(** ** Duplicate insert *)

Lemma descend_road_descend (fuel : nat) (t : BPlusTree) (key : KeyType) :
  forall pid0 pid p,
    descend fuel t key pid0 = Some (pid, p) ->
    exists road, descend_road fuel t key pid0 = Some road /\
                 road <> [] /\
                 List.last road INVALID_PAGE_ID = pid /\
                 FetchPage t pid = Some p.
Proof.
  induction fuel as [|f IH]; intros pid0 pid p H; simpl in *; [discriminate|].
  destruct (FetchPage t pid0) as [q|] eqn:Hq; [|discriminate].
  destruct (IsLeafPage q).
  - injection H as <- <-. exists [pid0]. repeat split; [discriminate | assumption].
  - destruct (IH _ _ _ H) as (road & Hroad & Hne & Hlast & Hp).
    rewrite Hroad. exists (pid0 :: road). repeat split; [discriminate | | assumption].
    destruct road as [|x road]; [contradiction|]. exact Hlast.
Qed.

(** Inserting a key that [GetValue] finds returns false and leaves the
    whole state (header and every page) as it was. *)
Lemma Insert_duplicate_unchanged (t : BPlusTree) (key : KeyType) (v value : ValueType) :
  GetValue t key = Some (Some v) -> Insert t key value = Some (false, t).
Proof.
  unfold GetValue, Insert, ensure_root. intros H.
  destruct (root_page_id_ t =? INVALID_PAGE_ID); [discriminate|].
  destruct (descend (descent_fuel t) t key (root_page_id_ t)) as [[pid p]|] eqn:Hd;
    [|discriminate].
  destruct (descend_road_descend _ _ _ _ _ _ Hd) as (road & Hroad & _ & Hlast & Hp).
  rewrite Hroad, Hlast. unfold page_at. unfold FetchPage in Hp. rewrite Hp. simpl.
  destruct (negb (BinaryFind_leaf p key =? -1) &&
            (comparator_ (KeyAt p (BinaryFind_leaf p key)) key =? 0));
    [reflexivity | discriminate].
Qed.

(** ** Underflow of a leftmost child *)

(** With [pos = 0] neither underflow handler touches any page, and neither
    returns: the loop goes on with the parent level. *)
Lemma underflow_leftmost_continues (t : BPlusTree) (pid ppid : page_id_t)
    (parent_page : BPlusTreePage) :
  FetchPage t ppid = Some parent_page ->
  leaf_underflow t pid ppid 0 = Some (t, Continue) /\
  internal_underflow t pid ppid 0 = Some (t, Continue).
Proof.
  intros Hp. unfold leaf_underflow, internal_underflow. rewrite Hp.
  split; reflexivity.
Qed.

(** ** Evaluations of the code *)

(** C1.  With leaf_max = internal_max = 4, inserting the distinct keys
    10, 20, 30, 40, 50, 1, 2, 3 into the empty tree leaves a tree in which
    [GetValue] reports the inserted keys 1, 2, 10 and 20 absent. *)
Theorem get_after_inserts_misses_keys :
  InsertFromFile (BPlusTree_new 4 4) [10; 20; 30; 40; 50; 1; 2; 3]
    = Some (tree_of [10; 20; 30; 40; 50; 1; 2; 3]) /\
  GetValue (tree_of [10; 20; 30; 40; 50; 1; 2; 3]) 1 = Some None /\
  map (GetValue (tree_of [10; 20; 30; 40; 50; 1; 2; 3])) [10; 20; 30; 40; 50; 1; 2; 3]
    = [Some None; Some None; Some (Some 30); Some (Some 40); Some (Some 50);
       Some None; Some None; Some (Some 3)] /\
  slots (page_at (tree_of [10; 20; 30; 40; 50; 1; 2; 3]) 2) = [(3, 3); (10, 0); (30, 1)] /\
  slots (page_at (tree_of [10; 20; 30; 40; 50; 1; 2; 3]) 0) = [(1, 1); (2, 2)] /\
  slots (page_at (tree_of [10; 20; 30; 40; 50; 1; 2; 3]) 3) = [(3, 3); (10, 10); (20, 20)] /\
  ~ (forall (keys : list Z) (t : BPlusTree),
       NoDup keys ->
       InsertFromFile (BPlusTree_new 4 4) keys = Some t ->
       forall k, In k keys -> GetValue t k = Some (Some k)).
Proof.
  repeat (apply conj; [vm_compute; reflexivity|]).
  intros H.
  assert (Hnd : NoDup [10; 20; 30; 40; 50; 1; 2; 3])
    by (apply (bool_decide_unpack _); vm_compute; exact I).
  assert (Hins : InsertFromFile (BPlusTree_new 4 4) [10; 20; 30; 40; 50; 1; 2; 3]
                 = Some (tree_of [10; 20; 30; 40; 50; 1; 2; 3]))
    by (vm_compute; reflexivity).
  specialize (H _ _ Hnd Hins 1).
  assert (Hin : In 1 [10; 20; 30; 40; 50; 1; 2; 3]) by (simpl; auto 10).
  specialize (H Hin). vm_compute in H. discriminate H.
Qed.

(** C2.  With leaf_max = internal_max = 4, inserting 1..5 in ascending order
    and removing 5, 4, 3, 2, 1 does not empty the tree: the header still
    names page 0, a leaf holding key 3. *)
Theorem remove_all_leaves_root :
  InsertFromFile (BPlusTree_new 4 4) (ascending 5) = Some (tree_of (ascending 5)) /\
  RemoveFromFile (tree_of (ascending 5)) [5; 4; 3; 2; 1]
    = Some (tree_after (ascending 5) [5; 4; 3; 2; 1]) /\
  root_page_id_ (tree_after (ascending 5) [5; 4; 3; 2; 1]) = 0 /\
  IsEmpty (tree_after (ascending 5) [5; 4; 3; 2; 1]) = false /\
  slots (page_at (tree_after (ascending 5) [5; 4; 3; 2; 1]) 0) = [(3, 3)] /\
  ~ (forall (keys order : list Z) (t t' : BPlusTree),
       NoDup keys -> Permutation keys order ->
       InsertFromFile (BPlusTree_new 4 4) keys = Some t ->
       RemoveFromFile t order = Some t' ->
       root_page_id_ t' = INVALID_PAGE_ID).
Proof.
  repeat (apply conj; [vm_compute; reflexivity|]).
  intros H.
  assert (Hnd : NoDup (ascending 5))
    by (apply (bool_decide_unpack _); vm_compute; exact I).
  assert (Hperm : Permutation (ascending 5) [5; 4; 3; 2; 1])
    by apply (Permutation_rev (ascending 5)).
  assert (Hins : InsertFromFile (BPlusTree_new 4 4) (ascending 5)
                 = Some (tree_of (ascending 5)))
    by (vm_compute; reflexivity).
  assert (Hrem : RemoveFromFile (tree_of (ascending 5)) [5; 4; 3; 2; 1]
                 = Some (tree_after (ascending 5) [5; 4; 3; 2; 1]))
    by (vm_compute; reflexivity).
  specialize (H _ _ _ _ Hnd Hperm Hins Hrem).
  vm_compute in H. discriminate H.
Qed.

(** C3.  Key 0 is absent from the tree built by inserting
    10, 20, 30, 40, 50, 1, 2; [Insert] of 0 returns true, and [Insert] of 0
    on the resulting tree returns true again, with no [Remove] in
    between. *)
Theorem reinsert_returns_true :
  InsertFromFile (BPlusTree_new 4 4) [10; 20; 30; 40; 50; 1; 2]
    = Some (tree_of [10; 20; 30; 40; 50; 1; 2]) /\
  GetValue (tree_of [10; 20; 30; 40; 50; 1; 2]) 0 = Some None /\
  Insert (tree_of [10; 20; 30; 40; 50; 1; 2]) 0 0
    = Some (true, tree_of [10; 20; 30; 40; 50; 1; 2; 0]) /\
  Insert (tree_of [10; 20; 30; 40; 50; 1; 2; 0]) 0 0
    = Some (true, tree_of [10; 20; 30; 40; 50; 1; 2; 0; 0]) /\
  GetValue (tree_of [10; 20; 30; 40; 50; 1; 2; 0]) 0 = Some None /\
  ~ (forall (t t' : BPlusTree) (k : KeyType) (v v' : ValueType),
       Insert t k v = Some (true, t') ->
       Insert t' k v' = Some (false, t')).
Proof.
  repeat (apply conj; [vm_compute; reflexivity|]).
  intros H.
  assert (Hins : Insert (tree_of [10; 20; 30; 40; 50; 1; 2]) 0 0
                 = Some (true, tree_of [10; 20; 30; 40; 50; 1; 2; 0]))
    by (vm_compute; reflexivity).
  specialize (H _ _ _ _ 0 Hins).
  vm_compute in H. discriminate H.
Qed.

(** C4.  In the tree built by inserting 1..7, the root (page 2) has the
    children 0, 1, 3 and leaf 0 holds 1, 2.  [Remove] of 1 leaves leaf 0
    with one entry, below its minimum of 2, in parent slot 0; the call then
    deletes slot 0 of the parent, so key 2 can no longer be found. *)
Theorem leftmost_underflow_drops_parent_slot :
  InsertFromFile (BPlusTree_new 4 4) (ascending 7) = Some (tree_of (ascending 7)) /\
  root_page_id_ (tree_of (ascending 7)) = 2 /\
  slots (page_at (tree_of (ascending 7)) 2) = [(1, 0); (3, 1); (5, 3)] /\
  slots (page_at (tree_of (ascending 7)) 0) = [(1, 1); (2, 2)] /\
  GetMinSize (page_at (tree_of (ascending 7)) 0) = 2 /\
  GetValue (tree_of (ascending 7)) 2 = Some (Some 2) /\
  Remove (tree_of (ascending 7)) 1 = Some (tree_after (ascending 7) [1]) /\
  root_page_id_ (tree_after (ascending 7) [1]) = 2 /\
  slots (page_at (tree_after (ascending 7) [1]) 0) = [(2, 2)] /\
  slots (page_at (tree_after (ascending 7) [1]) 2) = [(3, 1); (5, 3)] /\
  GetValue (tree_after (ascending 7) [1]) 2 = Some None.
Proof. evaluate. Qed.

(** C5.  After inserting 1..5 and removing 5, the leaves are page 0 with
    1, 2 and page 1 with 3, 4 (parent slot 1).  [Remove] of 4 makes page 1
    underflow; its entry 3 is written over slot 1 of the left sibling
    instead of after its entries: the sibling ends up with 1, 3, 3 and key 2
    is lost. *)
Theorem leaf_merge_overwrites_sibling :
  InsertFromFile (BPlusTree_new 4 4) (ascending 5) = Some (tree_of (ascending 5)) /\
  Remove (tree_of (ascending 5)) 5 = Some (tree_after (ascending 5) [5]) /\
  slots (page_at (tree_after (ascending 5) [5]) 2) = [(1, 0); (3, 1)] /\
  slots (page_at (tree_after (ascending 5) [5]) 0) = [(1, 1); (2, 2)] /\
  slots (page_at (tree_after (ascending 5) [5]) 1) = [(3, 3); (4, 4)] /\
  Remove (tree_after (ascending 5) [5]) 4 = Some (tree_after (ascending 5) [5; 4]) /\
  slots (page_at (tree_after (ascending 5) [5; 4]) 0) = [(1, 1); (3, 3); (3, 3)] /\
  FetchPage (tree_after (ascending 5) [5; 4]) 1 = None /\
  GetValue (tree_after (ascending 5) [5]) 2 = Some (Some 2) /\
  GetValue (tree_after (ascending 5) [5; 4]) 2 = Some None.
Proof. evaluate. Qed.

(** C6.  After inserting 1..11 and removing 11, 10, 9, the root (page 7) has
    the internal children 2 (slot 0, key 1) and 6 (slot 1, key 5); page 2
    holds (1,0), (3,1) and page 6 holds (5,3), (7,4).  [Remove] of 7 leaves
    page 6 with the single child 3 and merges it into page 2: the merge
    appends (1, 3), with the parent's key of slot 0, and then (5, 3), so
    child 3 is listed twice. *)
Theorem internal_merge_duplicates_first_child :
  InsertFromFile (BPlusTree_new 4 4) (ascending 11) = Some (tree_of (ascending 11)) /\
  RemoveFromFile (tree_of (ascending 11)) [11; 10; 9]
    = Some (tree_after (ascending 11) [11; 10; 9]) /\
  root_page_id_ (tree_after (ascending 11) [11; 10; 9]) = 7 /\
  slots (page_at (tree_after (ascending 11) [11; 10; 9]) 7)
    = [(1, 2); (5, 6)] /\
  slots (page_at (tree_after (ascending 11) [11; 10; 9]) 2)
    = [(1, 0); (3, 1)] /\
  slots (page_at (tree_after (ascending 11) [11; 10; 9]) 6)
    = [(5, 3); (7, 4)] /\
  Remove (tree_after (ascending 11) [11; 10; 9]) 7
    = Some (tree_after (ascending 11) [11; 10; 9; 7]) /\
  slots (page_at (tree_after (ascending 11) [11; 10; 9; 7]) 2)
    = [(1, 0); (3, 1); (1, 3); (5, 3)] /\
  FetchPage (tree_after (ascending 11) [11; 10; 9; 7]) 6 = None.
Proof. evaluate. Qed.

(** C10.  Key 3 is absent from the tree built by inserting
    10, 20, 30, 40, 50, 1, 2, and [GetValue] finds key 1 there; after
    [Insert] of 3, which returns true, [GetValue] reports key 1 absent. *)
Theorem insert_changes_other_binding :
  InsertFromFile (BPlusTree_new 4 4) [10; 20; 30; 40; 50; 1; 2]
    = Some (tree_of [10; 20; 30; 40; 50; 1; 2]) /\
  GetValue (tree_of [10; 20; 30; 40; 50; 1; 2]) 3 = Some None /\
  GetValue (tree_of [10; 20; 30; 40; 50; 1; 2]) 1 = Some (Some 1) /\
  Insert (tree_of [10; 20; 30; 40; 50; 1; 2]) 3 3
    = Some (true, tree_of [10; 20; 30; 40; 50; 1; 2; 3]) /\
  GetValue (tree_of [10; 20; 30; 40; 50; 1; 2; 3]) 1 = Some None /\
  ~ (forall (t t' : BPlusTree) (k k' : KeyType) (v : ValueType),
       GetValue t k = Some None ->
       Insert t k v = Some (true, t') ->
       k' <> k ->
       GetValue t' k' = GetValue t k').
Proof.
  repeat (apply conj; [vm_compute; reflexivity|]).
  intros H.
  assert (Habs : GetValue (tree_of [10; 20; 30; 40; 50; 1; 2]) 3 = Some None)
    by (vm_compute; reflexivity).
  assert (Hins : Insert (tree_of [10; 20; 30; 40; 50; 1; 2]) 3 3
                 = Some (true, tree_of [10; 20; 30; 40; 50; 1; 2; 3]))
    by (vm_compute; reflexivity).
  specialize (H _ _ _ 1 _ Habs Hins ltac:(lia)).
  vm_compute in H. discriminate H.
Qed.

(** * Further properties of the code *)

(** ** Binary search without any order on the keys *)

Lemma bf_loop_bounds (p : BPlusTreePage) (key : KeyType) (fuel : nat) :
  forall l r, l <= r ->
    l <= fst (bf_loop fuel p key l r) /\
    fst (bf_loop fuel p key l r) <= snd (bf_loop fuel p key l r) /\
    snd (bf_loop fuel p key l r) <= r.
Proof.
  induction fuel as [|f IH]; intros l r Hlr; simpl; [lia|].
  destruct (Z.ltb_spec l r) as [Hlt|Hge]; [|simpl; lia].
  rewrite shiftr_1.
  assert (Hmid : l < (l + r + 1) / 2 /\ (l + r + 1) / 2 <= r).
  { pose proof (Z.div_mod (l + r + 1) 2 ltac:(lia)).
    pose proof (Z.mod_pos_bound (l + r + 1) 2 ltac:(lia)). lia. }
  destruct (negb (comparator_ (KeyAt p ((l + r + 1) / 2)) key =? 1)).
  - specialize (IH ((l + r + 1) / 2) r ltac:(lia)). lia.
  - specialize (IH l ((l + r + 1) / 2 - 1) ltac:(lia)). lia.
Qed.

(** Whatever the keys of a page are, the leaf search returns -1 or a live
    slot, and the routing search returns a live slot (slot 0 on a page with
    no slot at all): no caller reads a slot beyond the page's size. *)
Lemma BinaryFind_bounds (p : BPlusTreePage) (key : KeyType) :
  0 <= GetSize p ->
  -1 <= BinaryFind_leaf p key /\ BinaryFind_leaf p key < GetSize p /\
  0 <= BinaryFind_internal p key /\
  (BinaryFind_internal p key = 0 \/ BinaryFind_internal p key < GetSize p).
Proof.
  intros Hsize. unfold BinaryFind_leaf, BinaryFind_internal.
  assert (Hleaf : -1 <= (let '(_, r) := bf_loop (Z.to_nat (GetSize p - 1 - 0)) p key 0
              (GetSize p - 1) in
            if (0 <=? r) && (comparator_ (KeyAt p r) key =? 1) then -1 else r)
          < GetSize p).
  { destruct (Z.eq_dec (GetSize p) 0) as [Hz|Hnz].
    - replace (Z.to_nat (GetSize p - 1 - 0)) with O by lia. simpl.
      rewrite Hz. simpl. lia.
    - pose proof (bf_loop_bounds p key (Z.to_nat (GetSize p - 1 - 0)) 0 (GetSize p - 1)
                    ltac:(lia)) as Hb.
      destruct (bf_loop _ p key 0 (GetSize p - 1)) as [l r]. simpl in Hb.
      destruct ((0 <=? r) && (comparator_ (KeyAt p r) key =? 1)); lia. }
  assert (Hint : 0 <= (let '(_, r) := bf_loop (Z.to_nat (GetSize p - 1 - 1)) p key 1
              (GetSize p - 1) in
            if (r =? -1) || (comparator_ (KeyAt p r) key =? 1) then 0 else r) /\
          ((let '(_, r) := bf_loop (Z.to_nat (GetSize p - 1 - 1)) p key 1
              (GetSize p - 1) in
            if (r =? -1) || (comparator_ (KeyAt p r) key =? 1) then 0 else r) = 0 \/
           (let '(_, r) := bf_loop (Z.to_nat (GetSize p - 1 - 1)) p key 1
              (GetSize p - 1) in
            if (r =? -1) || (comparator_ (KeyAt p r) key =? 1) then 0 else r) < GetSize p)).
  { destruct (Z_le_gt_dec (GetSize p) 1) as [Hsmall|Hbig].
    - replace (Z.to_nat (GetSize p - 1 - 1)) with O by lia. simpl.
      destruct (Z.eqb_spec (GetSize p - 1) (-1)); simpl; [lia|].
      destruct (comparator_ (KeyAt p (GetSize p - 1)) key =? 1); lia.
    - pose proof (bf_loop_bounds p key (Z.to_nat (GetSize p - 1 - 1)) 1 (GetSize p - 1)
                    ltac:(lia)) as Hb.
      destruct (bf_loop _ p key 1 (GetSize p - 1)) as [l r]. simpl in Hb.
      destruct ((r =? -1) || (comparator_ (KeyAt p r) key =? 1)); lia. }
  lia.
Qed.

(** ** Operations on keys that are, or are not, in the tree *)

(** A duplicate insert on the tree 1, 3, 5: key 3 is found, so nothing changes. *)
Lemma Insert_duplicate_unchanged_witness :
  GetValue (tree_of [1; 3; 5]) 3 = Some (Some 3) /\
  Insert (tree_of [1; 3; 5]) 3 9 = Some (false, tree_of [1; 3; 5]).
Proof.
  split; [vm_compute; reflexivity|].
  apply (Insert_duplicate_unchanged (tree_of [1; 3; 5]) 3 3 9).
  vm_compute; reflexivity.
Defined.

Lemma descend_slots_descend (fuel : nat) (t : BPlusTree) (key : KeyType) :
  forall pid0 pid p,
    descend fuel t key pid0 = Some (pid, p) ->
    exists pre, descend_slots fuel t key pid0 = Some (pre ++ [(pid, 0)]) /\
                FetchPage t pid = Some p.
Proof.
  induction fuel as [|f IH]; intros pid0 pid p H; simpl in *; [discriminate|].
  destruct (FetchPage t pid0) as [q|] eqn:Hq; [|discriminate].
  destruct (IsLeafPage q).
  - injection H as <- <-. exists []. split; [reflexivity | assumption].
  - destruct (IH _ _ _ H) as (pre & Hroad & Hp).
    rewrite Hroad. exists ((pid0, BinaryFind_internal q key) :: pre).
    split; [reflexivity | assumption].
Qed.

(** [Remove] of a key that [GetValue] reports absent changes nothing: the
    header, every page and the allocator are as before. *)
Theorem Remove_absent_unchanged (t : BPlusTree) (key : KeyType) :
  GetValue t key = Some None -> Remove t key = Some t.
Proof.
  unfold GetValue, Remove. intros H.
  destruct (root_page_id_ t =? INVALID_PAGE_ID); [reflexivity|].
  destruct (descend (descent_fuel t) t key (root_page_id_ t)) as [[pid p]|] eqn:Hd;
    [|discriminate].
  destruct (descend_slots_descend _ _ _ _ _ _ Hd) as (pre & Hroad & Hp).
  rewrite Hroad, rev_app_distr. simpl.
  unfold page_at. unfold FetchPage in Hp. rewrite Hp. simpl.
  destruct (BinaryFind_leaf p key =? -1); simpl in *; [reflexivity|].
  destruct (comparator_ (KeyAt p (BinaryFind_leaf p key)) key =? 0); simpl;
    [discriminate | reflexivity].
Qed.

Lemma Remove_absent_unchanged_witness :
  GetValue (tree_of [1; 3; 5]) 2 = Some None /\
  Remove (tree_of [1; 3; 5]) 2 = Some (tree_of [1; 3; 5]).
Proof.
  split; [vm_compute; reflexivity|].
  apply (Remove_absent_unchanged (tree_of [1; 3; 5]) 2).
  vm_compute; reflexivity.
Defined.

(** When [GetValue] finds [key] with value [v], [Begin(key)] is a cursor on
    a page of the pool, at a slot that holds exactly ([key], [v]); no order
    on the keys is needed. *)
Theorem Begin_key_at_present_key (t : BPlusTree) (key : KeyType) (v : ValueType) :
  GetValue t key = Some (Some v) ->
  exists pid slot p,
    Begin_key t key = Some (mkIterator pid slot) /\
    FetchPage t pid = Some p /\
    IsLeafPage p = true /\
    KeyAt p slot = key /\ ValueAt p slot = v.
Proof.
  unfold GetValue, Begin_key. intros H.
  destruct (root_page_id_ t =? INVALID_PAGE_ID); [discriminate|].
  rewrite descend_begin_descend.
  destruct (descend (descent_fuel t) t key (root_page_id_ t)) as [[pid p]|] eqn:Hd;
    [|discriminate].
  destruct (descend_road_descend _ _ _ _ _ _ Hd) as (road & _ & _ & _ & Hp).
  exists pid, (BinaryFind_leaf p key), p.
  destruct (negb (BinaryFind_leaf p key =? -1)); simpl in H; [|discriminate].
  rewrite comparator_eq in H.
  destruct (Z.eqb_spec (KeyAt p (BinaryFind_leaf p key)) key) as [Hk|]; [|discriminate].
  injection H as Hv.
  repeat split; try assumption.
  clear - Hd. revert Hd. generalize (root_page_id_ t).
  induction (descent_fuel t) as [|f IH]; intros pid0 Hd; simpl in Hd; [discriminate|].
  destruct (FetchPage t pid0) as [q|]; [|discriminate].
  destruct (IsLeafPage q) eqn:Hq.
  - injection Hd as _ <-. assumption.
  - eapply IH; eassumption.
Qed.

Lemma Begin_key_at_present_key_witness :
  GetValue (tree_of [1; 3; 5]) 3 = Some (Some 3) /\
  exists pid slot p,
    Begin_key (tree_of [1; 3; 5]) 3 = Some (mkIterator pid slot) /\
    FetchPage (tree_of [1; 3; 5]) pid = Some p /\
    IsLeafPage p = true /\
    KeyAt p slot = 3 /\ ValueAt p slot = 3.
Proof.
  split; [vm_compute; reflexivity|].
  apply (Begin_key_at_present_key (tree_of [1; 3; 5]) 3 3).
  vm_compute; reflexivity.
Defined.

(** ** The shifting loops on one page *)

Lemma SlotAt_SetKeyAt (q : BPlusTreePage) (i j : Z) (k : KeyType) :
  0 <= i -> 0 <= j ->
  SlotAt (SetKeyAt q i k) j = if i =? j then (k, snd (SlotAt q j)) else SlotAt q j.
Proof.
  intros Hi Hj. unfold SlotAt, SetKeyAt. simpl. rewrite nth_write_slot.
  destruct (Z.eqb_spec i j) as [->|Hne].
  - rewrite Nat.eqb_refl. reflexivity.
  - destruct (Nat.eqb_spec (Z.to_nat i) (Z.to_nat j)) as [Heq|_]; [lia|reflexivity].
Qed.

Lemma shift_up_step_slot (q : BPlusTreePage) (i j : Z) :
  1 <= j -> 0 <= i ->
  SlotAt (shift_up_step j q) i = if j =? i then SlotAt q (j - 1) else SlotAt q i.
Proof.
  intros Hj Hi. unfold shift_up_step. rewrite SlotAt_write by lia.
  destruct (Z.eqb_spec j i) as [->|_]; [|reflexivity].
  unfold ValueAt, KeyAt. rewrite SlotAt_SetKeyAt by lia.
  destruct (Z.eqb_spec i (i - 1)); [lia|].
  destruct (SlotAt q (i - 1)); reflexivity.
Qed.

Lemma shift_down_step_slot (q : BPlusTreePage) (i j : Z) :
  0 <= j -> 0 <= i ->
  SlotAt (shift_down_step j q) i = if j =? i then SlotAt q (j + 1) else SlotAt q i.
Proof.
  intros Hj Hi. unfold shift_down_step. rewrite SlotAt_write by lia.
  destruct (Z.eqb_spec j i) as [->|_]; [|reflexivity].
  unfold ValueAt, KeyAt. rewrite SlotAt_SetKeyAt by lia.
  destruct (Z.eqb_spec i (i + 1)); [lia|].
  destruct (SlotAt q (i + 1)); reflexivity.
Qed.

Lemma same_header_refl (a : BPlusTreePage) : same_header a a.
Proof. repeat split. Qed.

Lemma same_header_trans (a b c : BPlusTreePage) :
  same_header a b -> same_header b c -> same_header a c.
Proof. unfold same_header. intros (? & ? & ? & ?) (? & ? & ? & ?). repeat split; congruence. Qed.

Lemma for_up_same_header (body : Z -> BPlusTreePage -> BPlusTreePage) :
  (forall j q, same_header (body j q) q) ->
  forall n j q, same_header (for_up n j body q) q.
Proof.
  intros Hbody. induction n as [|n IH]; intros j q; simpl.
  - apply same_header_refl.
  - eapply same_header_trans; [apply IH | apply Hbody].
Qed.

Lemma for_down_same_header (body : Z -> BPlusTreePage -> BPlusTreePage) :
  (forall j q, same_header (body j q) q) ->
  forall n j q, same_header (for_down n j body q) q.
Proof.
  intros Hbody. induction n as [|n IH]; intros j q; simpl.
  - apply same_header_refl.
  - eapply same_header_trans; [apply IH | apply Hbody].
Qed.

Lemma shift_up_step_header (j : Z) (q : BPlusTreePage) : same_header (shift_up_step j q) q.
Proof. repeat split. Qed.

Lemma shift_down_step_header (j : Z) (q : BPlusTreePage) : same_header (shift_down_step j q) q.
Proof. repeat split. Qed.

(** The loop [for (j = hi; j > hi - n; j--)] of an insertion moves the
    slots (hi - n, hi] up by one. *)
Lemma shift_up_loop_slot (n : nat) : forall j q i,
  Z.of_nat n <= j -> 0 <= i ->
  SlotAt (for_down n j shift_up_step q) i =
  if (j - Z.of_nat n <? i) && (i <=? j) then SlotAt q (i - 1) else SlotAt q i.
Proof.
  induction n as [|n IH]; intros j q i Hj Hi.
  - simpl for_down.
    destruct (Z.ltb_spec (j - Z.of_nat 0) i), (Z.leb_spec i j); simpl; try reflexivity; lia.
  - simpl for_down. rewrite IH by lia.
    destruct (Z.ltb_spec (j - 1 - Z.of_nat n) i),
             (Z.leb_spec i (j - 1)),
             (Z.ltb_spec (j - Z.of_nat (Datatypes.S n)) i),
             (Z.leb_spec i j);
      simpl; try lia; rewrite shift_up_step_slot by lia.
    + destruct (Z.eqb_spec j (i - 1)); [lia | reflexivity].
    + destruct (Z.eqb_spec j i); [subst j; reflexivity | lia].
    + destruct (Z.eqb_spec j i); [lia | reflexivity].
    + destruct (Z.eqb_spec j i); [lia | reflexivity].
Qed.

(** The loop [for (j = lo; j < lo + n; j++)] of a removal moves the slots
    (lo, lo + n] down by one. *)
Lemma shift_down_loop_slot (n : nat) : forall j q i,
  0 <= j -> 0 <= i ->
  SlotAt (for_up n j shift_down_step q) i =
  if (j <=? i) && (i <? j + Z.of_nat n) then SlotAt q (i + 1) else SlotAt q i.
Proof.
  induction n as [|n IH]; intros j q i Hj Hi.
  - simpl for_up.
    destruct (Z.leb_spec j i), (Z.ltb_spec i (j + Z.of_nat 0)); simpl; try reflexivity; lia.
  - simpl for_up. rewrite IH by lia.
    destruct (Z.leb_spec (j + 1) i),
             (Z.ltb_spec i (j + 1 + Z.of_nat n)),
             (Z.leb_spec j i),
             (Z.ltb_spec i (j + Z.of_nat (Datatypes.S n)));
      simpl; try lia; rewrite shift_down_step_slot by lia.
    + destruct (Z.eqb_spec j (i + 1)); [lia | reflexivity].
    + destruct (Z.eqb_spec j i); [lia | reflexivity].
    + destruct (Z.eqb_spec j i); [subst j; reflexivity | lia].
    + destruct (Z.eqb_spec j i); [lia | reflexivity].
Qed.

(** ** Insertion into and removal from one page *)

Lemma find_pos_spec (p : BPlusTreePage) (key : KeyType) (n : nat) : forall j,
  0 <= j -> j + Z.of_nat n = GetSize p ->
  j <= find_pos n p key j /\ find_pos n p key j <= GetSize p /\
  (forall i, j <= i -> i < find_pos n p key j -> KeyAt p i <= key) /\
  (find_pos n p key j < GetSize p -> key < KeyAt p (find_pos n p key j)).
Proof.
  induction n as [|n IH]; intros j Hj Hn; simpl.
  - repeat split; intros; lia.
  - rewrite comparator_gt. destruct (Z.ltb_spec key (KeyAt p j)) as [Hgt|Hle].
    + repeat split; intros; lia.
    + destruct (IH (j + 1) ltac:(lia) ltac:(lia)) as (H1 & H2 & H3 & H4).
      repeat split; try lia; try assumption.
      intros i Hi1 Hi2. destruct (Z.eq_dec i j) as [->|?]; [assumption|].
      apply H3; lia.
Qed.

(** The slot chosen for a new entry (lines 143-149, 193-199) is the first
    one whose key is greater than the new key, or [size] when there is
    none. *)
Lemma insert_pos_spec (p : BPlusTreePage) (key : KeyType) :
  0 <= GetSize p ->
  0 <= insert_pos p key /\ insert_pos p key <= GetSize p /\
  (forall i, 0 <= i -> i < insert_pos p key -> KeyAt p i <= key) /\
  (insert_pos p key < GetSize p -> key < KeyAt p (insert_pos p key)).
Proof.
  intros Hsize. unfold insert_pos.
  apply (find_pos_spec p key (Z.to_nat (GetSize p)) 0); lia.
Qed.

Lemma insert_slot_unfold (p : BPlusTreePage) (pos : Z) (key : KeyType) (value : Z) :
  insert_slot p pos key value =
  SetValueAt (SetKeyAt
    (for_down (Z.to_nat (GetSize p + 1 - 1 - pos)) (GetSize p + 1 - 1) shift_up_step
       (IncreaseSize p 1)) pos key) pos value.
Proof. reflexivity. Qed.

Lemma insert_slot_header (p : BPlusTreePage) (pos : Z) (key : KeyType) (value : Z) :
  same_header (insert_slot p pos key value) (IncreaseSize p 1).
Proof.
  rewrite insert_slot_unfold.
  eapply same_header_trans;
    [|apply (for_down_same_header shift_up_step shift_up_step_header)].
  repeat split.
Qed.

(** Writing an entry at slot [pos] of a page (lines 150-156, 200-206) grows
    the page by one, keeps the slots below [pos], puts the entry at [pos]
    and moves the slots [pos, size) up by one. *)
Lemma insert_slot_slots (p : BPlusTreePage) (pos : Z) (key : KeyType) (value : Z) :
  0 <= pos -> pos <= GetSize p ->
  GetSize (insert_slot p pos key value) = GetSize p + 1 /\
  GetMaxSize (insert_slot p pos key value) = GetMaxSize p /\
  IsLeafPage (insert_slot p pos key value) = IsLeafPage p /\
  GetNextPageId (insert_slot p pos key value) = GetNextPageId p /\
  SlotAt (insert_slot p pos key value) pos = (key, value) /\
  (forall i, 0 <= i -> i < pos ->
     SlotAt (insert_slot p pos key value) i = SlotAt p i) /\
  (forall i, pos < i -> i <= GetSize p ->
     SlotAt (insert_slot p pos key value) i = SlotAt p (i - 1)).
Proof.
  intros Hpos0 Hpos1.
  destruct (insert_slot_header p pos key value) as (Ht & Hs & Hm & Hn).
  split; [exact Hs|]. split; [exact Hm|].
  split; [unfold IsLeafPage; rewrite Ht; reflexivity|].
  split; [exact Hn|].
  assert (Hslot : forall i, 0 <= i ->
    SlotAt (insert_slot p pos key value) i =
    if pos =? i then (key, value)
    else if (pos <? i) && (i <=? GetSize p) then SlotAt p (i - 1) else SlotAt p i).
  { intros i Hi. rewrite insert_slot_unfold. rewrite SlotAt_write by lia.
    destruct (Z.eqb_spec pos i); [reflexivity|].
    rewrite shift_up_loop_slot by lia.
    replace (GetSize p + 1 - 1 - Z.of_nat (Z.to_nat (GetSize p + 1 - 1 - pos))) with pos by lia.
    replace (GetSize p + 1 - 1) with (GetSize p) by lia.
    reflexivity. }
  split; [|split].
  - rewrite Hslot by lia. rewrite Z.eqb_refl. reflexivity.
  - intros i Hi0 Hi1. rewrite Hslot by lia.
    destruct (Z.eqb_spec pos i); [lia|].
    destruct (Z.ltb_spec pos i); [lia|]. reflexivity.
  - intros i Hi0 Hi1. rewrite Hslot by lia.
    destruct (Z.eqb_spec pos i); [lia|].
    destruct (Z.ltb_spec pos i); [|lia].
    destruct (Z.leb_spec i (GetSize p)); [|lia]. reflexivity.
Qed.

(** Inserting a new key into a page with strictly increasing keys, at the
    slot the code chooses, leaves the keys strictly increasing. *)
Lemma insert_slot_increasing (p : BPlusTreePage) (key : KeyType) (value : Z) :
  0 <= GetSize p ->
  keys_increasing 0 p ->
  (forall i, 0 <= i -> i < GetSize p -> KeyAt p i <> key) ->
  keys_increasing 0 (insert_slot p (insert_pos p key) key value).
Proof.
  intros Hsize Hsorted Hnew.
  destruct (insert_pos_spec p key Hsize) as (Hp0 & Hp1 & Hbelow & Habove).
  destruct (insert_slot_slots p (insert_pos p key) key value Hp0 Hp1)
    as (Hs & _ & _ & _ & Hat & Hlow & Hhigh).
  assert (Hkey : forall i, 0 <= i -> i <= GetSize p ->
    (i < insert_pos p key /\ KeyAt (insert_slot p (insert_pos p key) key value) i = KeyAt p i
       /\ KeyAt p i < key) \/
    (i = insert_pos p key /\ KeyAt (insert_slot p (insert_pos p key) key value) i = key) \/
    (insert_pos p key < i /\
     KeyAt (insert_slot p (insert_pos p key) key value) i = KeyAt p (i - 1) /\
     key < KeyAt p (i - 1))).
  { intros i Hi0 Hi1.
    destruct (Z.lt_trichotomy i (insert_pos p key)) as [Hlt|[Heq|Hgt]].
    - left. split; [assumption|]. unfold KeyAt at 1. rewrite Hlow by lia.
      split; [reflexivity|].
      pose proof (Hbelow i Hi0 Hlt). pose proof (Hnew i Hi0 ltac:(lia)).
      fold (KeyAt p i). lia.
    - right; left. split; [assumption|]. subst i. unfold KeyAt. rewrite Hat. reflexivity.
    - right; right. split; [assumption|]. unfold KeyAt at 1. rewrite Hhigh by lia.
      split; [reflexivity|]. fold (KeyAt p (i - 1)).
      destruct (Z.eq_dec (i - 1) (insert_pos p key)) as [He|Hne].
      + rewrite He. apply Habove. lia.
      + assert (KeyAt p (insert_pos p key) < KeyAt p (i - 1))
          by (apply (keys_increasing_lt 0); auto; lia).
        pose proof (Habove ltac:(lia)). lia. }
  intros i j Hi Hij Hj. rewrite Hs in Hj. apply comparator_lt.
  destruct (Hkey i ltac:(lia) ltac:(lia)) as [(? & -> & ?)|[(? & ->)|(? & -> & ?)]];
  destruct (Hkey j ltac:(lia) ltac:(lia)) as [(? & -> & ?)|[(? & ->)|(? & -> & ?)]];
    try lia.
  - apply (keys_increasing_lt 0); auto; lia.
  - apply (keys_increasing_lt 0); auto; lia.
Qed.

Lemma remove_slot_unfold (p : BPlusTreePage) (slot : Z) :
  remove_slot p slot =
  for_up (Z.to_nat (GetSize p + -1 - slot)) slot shift_down_step (IncreaseSize p (-1)).
Proof. reflexivity. Qed.

Lemma remove_slot_header (p : BPlusTreePage) (slot : Z) :
  same_header (remove_slot p slot) (IncreaseSize p (-1)).
Proof.
  rewrite remove_slot_unfold.
  apply (for_up_same_header shift_down_step shift_down_step_header).
Qed.

(** Removing slot [slot] of a page (lines 287-291, 330-334) shrinks the
    page by one, keeps the slots below [slot] and moves the slots above it
    down by one. *)
Lemma remove_slot_slots (p : BPlusTreePage) (slot : Z) :
  0 <= slot -> slot < GetSize p ->
  GetSize (remove_slot p slot) = GetSize p - 1 /\
  GetMaxSize (remove_slot p slot) = GetMaxSize p /\
  IsLeafPage (remove_slot p slot) = IsLeafPage p /\
  GetNextPageId (remove_slot p slot) = GetNextPageId p /\
  (forall i, 0 <= i -> i < slot -> SlotAt (remove_slot p slot) i = SlotAt p i) /\
  (forall i, slot <= i -> i < GetSize p - 1 ->
     SlotAt (remove_slot p slot) i = SlotAt p (i + 1)).
Proof.
  intros Hs0 Hs1.
  destruct (remove_slot_header p slot) as (Ht & Hs & Hm & Hn).
  split; [unfold GetSize in *; rewrite Hs; simpl; lia|]. split; [exact Hm|].
  split; [unfold IsLeafPage; rewrite Ht; reflexivity|].
  split; [exact Hn|].
  split.
  - intros i Hi0 Hi1. rewrite remove_slot_unfold, shift_down_loop_slot by lia.
    destruct (Z.leb_spec slot i); [lia|]. reflexivity.
  - intros i Hi0 Hi1. rewrite remove_slot_unfold, shift_down_loop_slot by lia.
    destruct (Z.leb_spec slot i); [|lia].
    destruct (Z.ltb_spec i (slot + Z.of_nat (Z.to_nat (GetSize p + -1 - slot)))); [|lia].
    reflexivity.
Qed.

(** Removing a slot of a page with strictly increasing keys leaves the keys
    strictly increasing. *)
Lemma remove_slot_increasing (p : BPlusTreePage) (slot : Z) :
  0 <= slot -> slot < GetSize p ->
  keys_increasing 0 p ->
  keys_increasing 0 (remove_slot p slot).
Proof.
  intros Hs0 Hs1 Hsorted.
  destruct (remove_slot_slots p slot Hs0 Hs1) as (Hs & _ & _ & _ & Hlow & Hhigh).
  assert (Hkey : forall i, 0 <= i -> i < GetSize p - 1 ->
    exists i', 0 <= i' /\ i' < GetSize p /\ i <= i' /\ i' <= i + 1 /\
               (i < slot -> i' = i) /\ (slot <= i -> i' = i + 1) /\
               KeyAt (remove_slot p slot) i = KeyAt p i').
  { intros i Hi0 Hi1. destruct (Z_lt_le_dec i slot).
    - exists i. unfold KeyAt. rewrite Hlow by lia. repeat split; lia.
    - exists (i + 1). unfold KeyAt. rewrite Hhigh by lia. repeat split; lia. }
  intros i j Hi Hij Hj. rewrite Hs in Hj. apply comparator_lt.
  destruct (Hkey i ltac:(lia) ltac:(lia)) as (i' & ? & ? & ? & ? & ? & ? & ->).
  destruct (Hkey j ltac:(lia) ltac:(lia)) as (j' & ? & ? & ? & ? & ? & ? & ->).
  apply (keys_increasing_lt 0); auto; lia.
Qed.

(** ** Looking a key up on a leaf *)

Lemma leaf_lookup_found (p : BPlusTreePage) (key : KeyType) (i : Z) :
  0 <= GetSize p -> keys_increasing 0 p ->
  0 <= i -> i < GetSize p -> KeyAt p i = key ->
  leaf_lookup p key = Some (ValueAt p i).
Proof.
  intros Hsize Hsorted Hi0 Hi1 Hk. unfold leaf_lookup.
  destruct (BinaryFind_leaf_spec p key Hsize Hsorted)
    as [[Hr Hall]|(H0 & H1 & Hle & Hall)].
  - specialize (Hall i Hi0 Hi1). lia.
  - assert (BinaryFind_leaf p key = i) as ->.
    { destruct (Z.lt_trichotomy (BinaryFind_leaf p key) i) as [Hlt|[Heq|Hgt]].
      - specialize (Hall i Hlt Hi1). lia.
      - assumption.
      - assert (KeyAt p i < KeyAt p (BinaryFind_leaf p key))
          by (apply (keys_increasing_lt 0); auto; lia).
        lia. }
    destruct (Z.eqb_spec i (-1)); [lia|]. simpl.
    rewrite comparator_eq, Hk, Z.eqb_refl. reflexivity.
Qed.

Lemma leaf_lookup_inv (p : BPlusTreePage) (key : KeyType) (v : ValueType) :
  0 <= GetSize p ->
  leaf_lookup p key = Some v ->
  exists i, 0 <= i /\ i < GetSize p /\ KeyAt p i = key /\ ValueAt p i = v.
Proof.
  intros Hsize. unfold leaf_lookup.
  destruct (BinaryFind_bounds p key Hsize) as (Hb0 & Hb1 & _).
  destruct (Z.eqb_spec (BinaryFind_leaf p key) (-1)); simpl; [discriminate|].
  rewrite comparator_eq.
  destruct (Z.eqb_spec (KeyAt p (BinaryFind_leaf p key)) key); [|discriminate].
  intros [= <-]. exists (BinaryFind_leaf p key). repeat split; try assumption; lia.
Qed.

Lemma leaf_lookup_absent (p : BPlusTreePage) (key : KeyType) :
  0 <= GetSize p ->
  (forall i, 0 <= i -> i < GetSize p -> KeyAt p i <> key) ->
  leaf_lookup p key = None.
Proof.
  intros Hsize Hno. destruct (leaf_lookup p key) as [v|] eqn:Hl; [|reflexivity].
  destruct (leaf_lookup_inv p key v Hsize Hl) as (i & Hi0 & Hi1 & Hk & _).
  exfalso. exact (Hno i Hi0 Hi1 Hk).
Qed.

Lemma leaf_lookup_None_inv (p : BPlusTreePage) (key : KeyType) :
  0 <= GetSize p -> keys_increasing 0 p ->
  leaf_lookup p key = None ->
  forall i, 0 <= i -> i < GetSize p -> KeyAt p i <> key.
Proof.
  intros Hsize Hsorted Hl i Hi0 Hi1 Hk.
  rewrite (leaf_lookup_found p key i Hsize Hsorted Hi0 Hi1 Hk) in Hl. discriminate.
Qed.

Lemma GetValue_leaf_lookup (t : BPlusTree) (key : KeyType) :
  GetValue t key =
  if root_page_id_ t =? INVALID_PAGE_ID then Some None
  else match descend (descent_fuel t) t key (root_page_id_ t) with
       | None => None
       | Some (_, leaf_page) => Some (leaf_lookup leaf_page key)
       end.
Proof.
  unfold GetValue, leaf_lookup.
  destruct (root_page_id_ t =? INVALID_PAGE_ID); [reflexivity|].
  destruct (descend _ t key _) as [[pid p]|]; [|reflexivity].
  destruct (negb _ && _); reflexivity.
Qed.

(** ** Descents and the pool *)

Lemma descend_fetch (fuel : nat) (t : BPlusTree) (key : KeyType) :
  forall pid0 pid p,
    descend fuel t key pid0 = Some (pid, p) ->
    FetchPage t pid = Some p /\ IsLeafPage p = true.
Proof.
  induction fuel as [|f IH]; intros pid0 pid p H; simpl in H; [discriminate|].
  destruct (FetchPage t pid0) as [q|] eqn:Hq; [|discriminate].
  destruct (IsLeafPage q) eqn:Hleaf.
  - injection H as <- <-. split; assumption.
  - eapply IH; eassumption.
Qed.

Lemma FetchPage_put_page (t : BPlusTree) (pid q : page_id_t) (p : BPlusTreePage) :
  FetchPage (put_page t pid p) q = if decide (pid = q) then Some p else FetchPage t q.
Proof. unfold FetchPage, put_page. simpl. apply lookup_insert. Qed.

Lemma descent_fuel_put_page (t : BPlusTree) (pid : page_id_t) (p p' : BPlusTreePage) :
  FetchPage t pid = Some p ->
  descent_fuel (put_page t pid p') = descent_fuel t.
Proof.
  intros Hp. unfold descent_fuel, put_page. simpl.
  rewrite map_size_insert_Some; [reflexivity|]. exists p. exact Hp.
Qed.

(** Replacing a leaf by a leaf does not change where a descent ends. *)
Lemma descend_put_leaf (t : BPlusTree) (pid : page_id_t) (p p' : BPlusTreePage)
    (key : KeyType) :
  FetchPage t pid = Some p -> IsLeafPage p = true -> IsLeafPage p' = true ->
  forall fuel pid0,
    descend fuel (put_page t pid p') key pid0 =
    match descend fuel t key pid0 with
    | Some (q, pq) => if decide (pid = q) then Some (pid, p') else Some (q, pq)
    | None => None
    end.
Proof.
  intros Hp Hleaf Hleaf'. induction fuel as [|f IH]; intros pid0; simpl; [reflexivity|].
  rewrite FetchPage_put_page.
  destruct (decide (pid = pid0)) as [<-|Hne].
  - rewrite Hp, Hleaf, Hleaf'. rewrite decide_True by reflexivity. reflexivity.
  - destruct (FetchPage t pid0) as [q|]; [|reflexivity].
    destruct (IsLeafPage q).
    + rewrite decide_False by assumption. reflexivity.
    + apply IH.
Qed.

(** [GetValue] after a leaf of the pool was replaced by another leaf. *)
Lemma GetValue_put_leaf (t : BPlusTree) (pid : page_id_t) (p p' : BPlusTreePage)
    (key : KeyType) :
  root_page_id_ t <> INVALID_PAGE_ID ->
  FetchPage t pid = Some p -> IsLeafPage p = true -> IsLeafPage p' = true ->
  GetValue (put_page t pid p') key =
  match descend (descent_fuel t) t key (root_page_id_ t) with
  | Some (q, pq) => if decide (pid = q) then Some (leaf_lookup p' key)
                    else Some (leaf_lookup pq key)
  | None => None
  end.
Proof.
  intros Hroot Hp Hleaf Hleaf'. rewrite GetValue_leaf_lookup.
  rewrite (descent_fuel_put_page t pid p p' Hp).
  change (root_page_id_ (put_page t pid p')) with (root_page_id_ t).
  destruct (Z.eqb_spec (root_page_id_ t) INVALID_PAGE_ID); [contradiction|].
  rewrite (descend_put_leaf t pid p p' key Hp Hleaf Hleaf').
  destruct (descend _ t key _) as [[q pq]|]; [|reflexivity].
  destruct (decide (pid = q)); reflexivity.
Qed.

(** ** Insertion into a leaf that has room *)

Lemma descend_road_snoc (fuel : nat) (t : BPlusTree) (key : KeyType) :
  forall pid0 pid p,
    descend fuel t key pid0 = Some (pid, p) ->
    exists pre, descend_road fuel t key pid0 = Some (pre ++ [pid]).
Proof.
  induction fuel as [|f IH]; intros pid0 pid p H; simpl in *; [discriminate|].
  destruct (FetchPage t pid0) as [q|] eqn:Hq; [|discriminate].
  destruct (IsLeafPage q).
  - injection H as <- <-. exists []. reflexivity.
  - destruct (IH _ _ _ H) as (pre & Hroad).
    rewrite Hroad. exists (pid0 :: pre). reflexivity.
Qed.

Lemma page_at_fetch (t : BPlusTree) (pid : page_id_t) (p : BPlusTreePage) :
  FetchPage t pid = Some p -> page_at t pid = p.
Proof. unfold FetchPage, page_at. intros ->. reflexivity. Qed.

Lemma leaf_lookup_None_test (p : BPlusTreePage) (key : KeyType) :
  leaf_lookup p key = None ->
  negb (BinaryFind_leaf p key =? -1) &&
  (comparator_ (KeyAt p (BinaryFind_leaf p key)) key =? 0) = false.
Proof.
  unfold leaf_lookup. destruct (negb _ && _); [discriminate | reflexivity].
Qed.

Lemma leaf_lookup_Some_test (p : BPlusTreePage) (key : KeyType) (v : ValueType) :
  leaf_lookup p key = Some v ->
  (BinaryFind_leaf p key =? -1) ||
  negb (comparator_ (KeyAt p (BinaryFind_leaf p key)) key =? 0) = false.
Proof.
  unfold leaf_lookup.
  destruct (BinaryFind_leaf p key =? -1); simpl; [discriminate|].
  destruct (comparator_ _ key =? 0); [reflexivity | discriminate].
Qed.

(** Looking keys up on a leaf after the insertion of a new key. *)
Lemma leaf_lookup_insert_slot (p : BPlusTreePage) (key : KeyType) (value : ValueType) :
  0 <= GetSize p -> keys_increasing 0 p ->
  leaf_lookup p key = None ->
  leaf_lookup (insert_slot p (insert_pos p key) key value) key = Some value /\
  (forall k, k <> key ->
     leaf_lookup (insert_slot p (insert_pos p key) key value) k = leaf_lookup p k).
Proof.
  intros Hsize Hsorted Hnone.
  pose proof (leaf_lookup_None_inv p key Hsize Hsorted Hnone) as Hnew.
  destruct (insert_pos_spec p key Hsize) as (Hp0 & Hp1 & _ & _).
  destruct (insert_slot_slots p (insert_pos p key) key value Hp0 Hp1)
    as (Hs & _ & _ & _ & Hat & Hlow & Hhigh).
  pose proof (insert_slot_increasing p key value Hsize Hsorted Hnew) as Hsorted'.
  set (p' := insert_slot p (insert_pos p key) key value) in *.
  assert (Hsize' : 0 <= GetSize p') by lia.
  split.
  - rewrite (leaf_lookup_found p' key (insert_pos p key) Hsize' Hsorted' Hp0 ltac:(lia)).
    + unfold ValueAt. rewrite Hat. reflexivity.
    + unfold KeyAt. rewrite Hat. reflexivity.
  - intros k Hk.
    destruct (leaf_lookup p k) as [v|] eqn:Hlk.
    + destruct (leaf_lookup_inv p k v Hsize Hlk) as (i & Hi0 & Hi1 & Hki & Hvi).
      destruct (Z_lt_le_dec i (insert_pos p key)).
      * rewrite (leaf_lookup_found p' k i Hsize' Hsorted' Hi0 ltac:(lia)).
        -- unfold ValueAt. rewrite Hlow by lia. rewrite <- Hvi. reflexivity.
        -- unfold KeyAt. rewrite Hlow by lia. exact Hki.
      * rewrite (leaf_lookup_found p' k (i + 1) Hsize' Hsorted' ltac:(lia) ltac:(lia)).
        -- unfold ValueAt. rewrite Hhigh by lia.
           replace (i + 1 - 1) with i by lia. rewrite <- Hvi. reflexivity.
        -- unfold KeyAt. rewrite Hhigh by lia.
           replace (i + 1 - 1) with i by lia. exact Hki.
    + apply leaf_lookup_absent; [assumption|].
      intros i Hi0 Hi1 Hki.
      pose proof (leaf_lookup_None_inv p k Hsize Hsorted Hlk) as Hno.
      destruct (Z.lt_trichotomy i (insert_pos p key)) as [Hlt|[Heq|Hgt]].
      * unfold KeyAt in Hki. rewrite Hlow in Hki by lia. exact (Hno i Hi0 ltac:(lia) Hki).
      * subst i. unfold KeyAt in Hki. rewrite Hat in Hki. simpl in Hki. congruence.
      * unfold KeyAt in Hki. rewrite Hhigh in Hki by lia.
        exact (Hno (i - 1) ltac:(lia) ltac:(lia) Hki).
Qed.

(** Insert when the target leaf has room.  If the descent for [key] ends on
    a leaf with strictly increasing keys, fewer than max_size entries and
    without [key], then [Insert] returns true, rewrites that leaf only,
    [GetValue] finds the new value afterwards, and the result of [GetValue]
    for every other key is what it was. *)
Lemma Insert_room_core (t : BPlusTree) (key : KeyType) (value : ValueType)
    (pid : page_id_t) (p : BPlusTreePage) :
  root_page_id_ t <> INVALID_PAGE_ID ->
  descend (descent_fuel t) t key (root_page_id_ t) = Some (pid, p) ->
  0 <= GetSize p -> GetSize p < GetMaxSize p ->
  keys_increasing 0 p ->
  GetValue t key = Some None ->
  Insert t key value
    = Some (true, put_page t pid (insert_slot p (insert_pos p key) key value)) /\
  GetValue (put_page t pid (insert_slot p (insert_pos p key) key value)) key
    = Some (Some value) /\
  (forall k, k <> key ->
     GetValue (put_page t pid (insert_slot p (insert_pos p key) key value)) k
     = GetValue t k) /\
  keys_increasing 0 (insert_slot p (insert_pos p key) key value).
Proof.
  intros Hroot Hd Hsize Hroom Hsorted Habsent.
  destruct (descend_fetch _ _ _ _ _ _ Hd) as (Hp & Hleaf).
  assert (Hnone : leaf_lookup p key = None).
  { rewrite GetValue_leaf_lookup in Habsent.
    destruct (Z.eqb_spec (root_page_id_ t) INVALID_PAGE_ID); [contradiction|].
    rewrite Hd in Habsent. congruence. }
  pose proof (leaf_lookup_None_inv p key Hsize Hsorted Hnone) as Hnew.
  destruct (insert_pos_spec p key Hsize) as (Hp0 & Hp1 & _ & _).
  destruct (insert_slot_slots p (insert_pos p key) key value Hp0 Hp1)
    as (Hs & Hm & Hl & _).
  pose proof (insert_slot_increasing p key value Hsize Hsorted Hnew) as Hsorted'.
  destruct (leaf_lookup_insert_slot p key value Hsize Hsorted Hnone) as (Hlk & Hlf).
  set (p' := insert_slot p (insert_pos p key) key value) in *.
  assert (Hleaf' : IsLeafPage p' = true) by congruence.
  split; [|split; [|split]].
  - unfold Insert, ensure_root.
    destruct (Z.eqb_spec (root_page_id_ t) INVALID_PAGE_ID); [contradiction|].
    destruct (descend_road_snoc _ _ _ _ _ _ Hd) as (pre & Hroad).
    rewrite Hroad, last_last, (page_at_fetch t pid p Hp).
    rewrite (leaf_lookup_None_test p key Hnone).
    rewrite rev_app_distr. simpl rev. simpl app. unfold insert_levels.
    rewrite (page_at_fetch t pid p Hp). fold p'.
    destruct (Z.leb_spec (GetSize p') (GetMaxSize p')); [reflexivity|lia].
  - rewrite (GetValue_put_leaf t pid p p' key Hroot Hp Hleaf Hleaf'), Hd.
    rewrite decide_True by reflexivity. rewrite Hlk. reflexivity.
  - intros k Hk.
    rewrite (GetValue_put_leaf t pid p p' k Hroot Hp Hleaf Hleaf').
    rewrite GetValue_leaf_lookup.
    destruct (Z.eqb_spec (root_page_id_ t) INVALID_PAGE_ID); [contradiction|].
    destruct (descend (descent_fuel t) t k (root_page_id_ t)) as [[q pq]|] eqn:Hdk;
      [|reflexivity].
    destruct (decide (pid = q)) as [<-|]; [|reflexivity].
    destruct (descend_fetch _ _ _ _ _ _ Hdk) as (Hpq & _).
    assert (pq = p) as -> by congruence.
    rewrite (Hlf k Hk). reflexivity.
  - exact Hsorted'.
Qed.

(** ** Removal from a leaf *)

Lemma FetchPage_page_at_put (t : BPlusTree) (pid : page_id_t) (p : BPlusTreePage) :
  page_at (put_page t pid p) pid = p.
Proof.
  apply page_at_fetch. rewrite FetchPage_put_page. apply decide_True. reflexivity.
Qed.

Lemma descend_slots_leaf_root (t : BPlusTree) (key : KeyType) (p : BPlusTreePage)
    (pre : list (page_id_t * Z)) (pid : page_id_t) :
  FetchPage t (root_page_id_ t) = Some p -> IsLeafPage p = true ->
  descend_slots (descent_fuel t) t key (root_page_id_ t) = Some (pre ++ [(pid, 0)]) ->
  pre = [].
Proof.
  unfold descent_fuel. simpl. intros -> ->. intros [= H].
  destruct pre as [|x [|y pre]]; [reflexivity | discriminate | discriminate].
Qed.

Lemma leaf_lookup_slot (p : BPlusTreePage) (key : KeyType) (v : ValueType) :
  0 <= GetSize p ->
  leaf_lookup p key = Some v ->
  0 <= BinaryFind_leaf p key /\ BinaryFind_leaf p key < GetSize p /\
  KeyAt p (BinaryFind_leaf p key) = key.
Proof.
  intros Hsize. unfold leaf_lookup.
  destruct (BinaryFind_bounds p key Hsize) as (Hb0 & Hb1 & _).
  destruct (Z.eqb_spec (BinaryFind_leaf p key) (-1)); simpl; [discriminate|].
  rewrite comparator_eq.
  destruct (Z.eqb_spec (KeyAt p (BinaryFind_leaf p key)) key); [|discriminate].
  intros _. repeat split; try assumption; lia.
Qed.

(** The first step of the bottom-up loop of [Remove] on the leaf. *)
Lemma Remove_reaches_leaf (t : BPlusTree) (key : KeyType) (v : ValueType)
    (pid : page_id_t) (p : BPlusTreePage) :
  root_page_id_ t <> INVALID_PAGE_ID ->
  descend (descent_fuel t) t key (root_page_id_ t) = Some (pid, p) ->
  leaf_lookup p key = Some v ->
  exists pre,
    descend_slots (descent_fuel t) t key (root_page_id_ t) = Some (pre ++ [(pid, 0)]) /\
    Remove t key = remove_levels t ((pid, BinaryFind_leaf p key) :: rev pre) true.
Proof.
  intros Hroot Hd Hl.
  destruct (descend_slots_descend _ _ _ _ _ _ Hd) as (pre & Hroad & Hp).
  exists pre. split; [assumption|].
  unfold Remove.
  destruct (Z.eqb_spec (root_page_id_ t) INVALID_PAGE_ID); [contradiction|].
  rewrite Hroad, rev_app_distr. simpl rev. simpl app. cbv beta iota.
  rewrite (page_at_fetch t pid p Hp).
  rewrite (leaf_lookup_Some_test p key v Hl). reflexivity.
Qed.

(** Remove without underflow.  If the descent for [key] ends on a leaf with
    strictly increasing keys that holds [key], and the leaf keeps at least
    min_size entries (or it is the root and keeps at least one), then
    [Remove] rewrites that leaf only, [GetValue] reports [key] absent
    afterwards, and its result for every other key is what it was. *)
Lemma Remove_no_underflow_core (t : BPlusTree) (key : KeyType) (v : ValueType)
    (pid : page_id_t) (p : BPlusTreePage) :
  root_page_id_ t <> INVALID_PAGE_ID ->
  descend (descent_fuel t) t key (root_page_id_ t) = Some (pid, p) ->
  0 <= GetSize p ->
  keys_increasing 0 p ->
  GetValue t key = Some (Some v) ->
  GetMinSize p <= GetSize p - 1 \/ (pid = root_page_id_ t /\ 2 <= GetSize p) ->
  Remove t key = Some (put_page t pid (remove_slot p (BinaryFind_leaf p key))) /\
  GetValue (put_page t pid (remove_slot p (BinaryFind_leaf p key))) key = Some None /\
  (forall k, k <> key ->
     GetValue (put_page t pid (remove_slot p (BinaryFind_leaf p key))) k
     = GetValue t k) /\
  keys_increasing 0 (remove_slot p (BinaryFind_leaf p key)).
Proof.
  intros Hroot Hd Hsize Hsorted Hfound Hkeep.
  destruct (descend_fetch _ _ _ _ _ _ Hd) as (Hp & Hleaf).
  assert (Hl : leaf_lookup p key = Some v).
  { rewrite GetValue_leaf_lookup in Hfound.
    destruct (Z.eqb_spec (root_page_id_ t) INVALID_PAGE_ID); [contradiction|].
    rewrite Hd in Hfound. congruence. }
  destruct (leaf_lookup_slot p key v Hsize Hl) as (Hs0 & Hs1 & Hks).
  destruct (remove_slot_slots p (BinaryFind_leaf p key) Hs0 Hs1)
    as (Hs & Hm & Hlf & _ & Hlow & Hhigh).
  pose proof (remove_slot_increasing p _ Hs0 Hs1 Hsorted) as Hsorted'.
  set (s := BinaryFind_leaf p key) in *.
  set (p' := remove_slot p s) in *.
  assert (Hleaf' : IsLeafPage p' = true) by congruence.
  assert (Hsize' : 0 <= GetSize p') by lia.
  assert (Hmin : GetMinSize p' = GetMinSize p)
    by (unfold GetMinSize; unfold GetMaxSize in Hm; rewrite Hm; reflexivity).
  split; [|split; [|split]].
  - destruct (Remove_reaches_leaf t key v pid p Hroot Hd Hl) as (pre & Hroad & ->).
    fold s. simpl remove_levels. rewrite Hp.
    unfold modify_page. rewrite (page_at_fetch t pid p Hp). fold p'.
    rewrite FetchPage_page_at_put, Hmin.
    destruct Hkeep as [Hkeep|[Hisroot Hkeep]].
    + destruct (Z.leb_spec (GetMinSize p) (GetSize p')); [reflexivity|lia].
    + destruct (Z.leb_spec (GetMinSize p) (GetSize p')); [reflexivity|].
      subst pid.
      rewrite (descend_slots_leaf_root t key p pre _ Hp Hleaf Hroad). simpl.
      destruct (Z.eqb_spec (GetSize p') 0); [lia | reflexivity].
  - rewrite (GetValue_put_leaf t pid p p' key Hroot Hp Hleaf Hleaf'), Hd.
    rewrite decide_True by reflexivity. f_equal.
    apply leaf_lookup_absent; [assumption|].
    intros i Hi0 Hi1 Hki. unfold KeyAt in Hki.
    destruct (Z_lt_le_dec i s).
    + rewrite Hlow in Hki by lia. fold (KeyAt p i) in Hki.
      assert (KeyAt p i < KeyAt p s) by (apply (keys_increasing_lt 0); auto; lia).
      change (KeyAt p i = key) in Hki. lia.
    + rewrite Hhigh in Hki by lia.
      assert (KeyAt p s < KeyAt p (i + 1)) by (apply (keys_increasing_lt 0); auto; lia).
      change (KeyAt p (i + 1) = key) in Hki. lia.
  - intros k Hk.
    rewrite (GetValue_put_leaf t pid p p' k Hroot Hp Hleaf Hleaf').
    rewrite GetValue_leaf_lookup.
    destruct (Z.eqb_spec (root_page_id_ t) INVALID_PAGE_ID); [contradiction|].
    destruct (descend (descent_fuel t) t k (root_page_id_ t)) as [[q pq]|] eqn:Hdk;
      [|reflexivity].
    destruct (decide (pid = q)) as [<-|]; [|reflexivity].
    destruct (descend_fetch _ _ _ _ _ _ Hdk) as (Hpq & _).
    assert (pq = p) as -> by congruence.
    f_equal.
    destruct (leaf_lookup p k) as [w|] eqn:Hlk.
    + destruct (leaf_lookup_inv p k w Hsize Hlk) as (i & Hi0 & Hi1 & Hki & Hvi).
      assert (i <> s) by (intros ->; congruence).
      destruct (Z_lt_le_dec i s).
      * rewrite (leaf_lookup_found p' k i Hsize' Hsorted' Hi0 ltac:(lia)).
        -- unfold ValueAt. rewrite Hlow by lia. rewrite <- Hvi. reflexivity.
        -- unfold KeyAt. rewrite Hlow by lia. exact Hki.
      * rewrite (leaf_lookup_found p' k (i - 1) Hsize' Hsorted' ltac:(lia) ltac:(lia)).
        -- unfold ValueAt. rewrite Hhigh by lia.
           replace (i - 1 + 1) with i by lia. rewrite <- Hvi. reflexivity.
        -- unfold KeyAt. rewrite Hhigh by lia.
           replace (i - 1 + 1) with i by lia. exact Hki.
    + apply leaf_lookup_absent; [assumption|].
      intros i Hi0 Hi1 Hki.
      pose proof (leaf_lookup_None_inv p k Hsize Hsorted Hlk) as Hno.
      unfold KeyAt in Hki. destruct (Z_lt_le_dec i s).
      * rewrite Hlow in Hki by lia. exact (Hno i Hi0 ltac:(lia) Hki).
      * rewrite Hhigh in Hki by lia. exact (Hno (i + 1) ltac:(lia) ltac:(lia) Hki).
  - exact Hsorted'.
Qed.

(** Remove of the last key.  If the root is a leaf whose only entry is
    [key] (and max_size is at least 1), [Remove] stores INVALID_PAGE_ID in
    the header and deletes the root page: the tree is empty, and [GetValue]
    reports every key absent. *)
Lemma Remove_last_key_core (t : BPlusTree) (key : KeyType) (v : ValueType)
    (p : BPlusTreePage) :
  root_page_id_ t <> INVALID_PAGE_ID ->
  FetchPage t (root_page_id_ t) = Some p ->
  IsLeafPage p = true ->
  GetSize p = 1 -> 1 <= GetMaxSize p ->
  GetValue t key = Some (Some v) ->
  exists t',
    Remove t key = Some t' /\
    root_page_id_ t' = INVALID_PAGE_ID /\ IsEmpty t' = true /\
    FetchPage t' (root_page_id_ t) = None /\
    (forall q, q <> root_page_id_ t -> FetchPage t' q = FetchPage t q) /\
    (forall k, GetValue t' k = Some None).
Proof.
  intros Hroot Hp Hleaf Hone Hmax Hfound.
  assert (Hd : descend (descent_fuel t) t key (root_page_id_ t) = Some (root_page_id_ t, p)).
  { unfold descent_fuel. simpl. rewrite Hp, Hleaf. reflexivity. }
  assert (Hl : leaf_lookup p key = Some v).
  { rewrite GetValue_leaf_lookup in Hfound.
    destruct (Z.eqb_spec (root_page_id_ t) INVALID_PAGE_ID); [contradiction|].
    rewrite Hd in Hfound. congruence. }
  destruct (leaf_lookup_slot p key v ltac:(lia) Hl) as (Hs0 & Hs1 & _).
  destruct (remove_slot_slots p (BinaryFind_leaf p key) Hs0 Hs1)
    as (Hs & Hm & _ & _ & _ & _).
  destruct (Remove_reaches_leaf t key v _ p Hroot Hd Hl) as (pre & Hroad & HR).
  rewrite (descend_slots_leaf_root t key p pre _ Hp Hleaf Hroad) in HR.
  simpl in HR. rewrite Hp in HR. unfold modify_page in HR.
  rewrite (page_at_fetch t _ p Hp), FetchPage_page_at_put in HR.
  set (p' := remove_slot p (BinaryFind_leaf p key)) in *.
  assert (Hmin : 1 <= GetMinSize p').
  { unfold GetMinSize. unfold GetMaxSize in *. rewrite Hm.
    apply Z.div_le_lower_bound; lia. }
  destruct (Z.leb_spec (GetMinSize p') (GetSize p')) as [?|_]; [lia|].
  destruct (Z.eqb_spec (GetSize p') 0) as [_|?]; [|lia].
  eexists. split; [exact HR|].
  split; [reflexivity|]. split; [reflexivity|].
  split; [|split].
  - unfold FetchPage, DeletePage. simpl. apply lookup_delete_eq.
  - intros q Hq. unfold FetchPage, DeletePage. simpl.
    rewrite lookup_delete_ne by congruence. apply lookup_insert_ne. congruence.
  - intros k. reflexivity.
Qed.

(** ** The first insertion, and the way back to the empty tree *)


Lemma ensure_root_idempotent (t : BPlusTree) :
  root_page_id_ (ensure_root t) <> INVALID_PAGE_ID ->
  ensure_root (ensure_root t) = ensure_root t.
Proof.
  intros H. unfold ensure_root at 1.
  destruct (Z.eqb_spec (root_page_id_ (ensure_root t)) INVALID_PAGE_ID);
    [contradiction | reflexivity].
Qed.

Lemma Insert_ensure_root (t : BPlusTree) (key : KeyType) (value : ValueType) :
  root_page_id_ (ensure_root t) <> INVALID_PAGE_ID ->
  Insert t key value = Insert (ensure_root t) key value.
Proof.
  intros H. unfold Insert. rewrite (ensure_root_idempotent t H). reflexivity.
Qed.

Lemma ensure_root_empty (t : BPlusTree) :
  root_page_id_ t = INVALID_PAGE_ID ->
  ensure_root t =
  mkTree (leaf_max_size_ t) (internal_max_size_ t) (next_alloc_ t)
    (<[next_alloc_ t := mkPage LEAF_PAGE 0 (leaf_max_size_ t) INVALID_PAGE_ID []]>
       (<[next_alloc_ t := zero_page]> (pages_ t)))
    (next_alloc_ t + 1).
Proof.
  intros H. unfold ensure_root. rewrite H. reflexivity.
Qed.

(** Insert into an empty tree, on any pool.  With leaf_max >= 1, the first
    [Insert] returns true; the page it allocates becomes a root leaf holding
    exactly the new entry, every other page of the pool is as before;
    [GetValue] finds the key and reports every other key absent. *)
Lemma Insert_into_empty_core (t : BPlusTree) (key : KeyType) (value : ValueType) :
  root_page_id_ t = INVALID_PAGE_ID ->
  0 <= next_alloc_ t ->
  1 <= leaf_max_size_ t ->
  exists t',
    Insert t key value = Some (true, t') /\
    root_page_id_ t' = next_alloc_ t /\
    next_alloc_ t' = next_alloc_ t + 1 /\
    FetchPage t' (next_alloc_ t)
      = Some (mkPage LEAF_PAGE 1 (leaf_max_size_ t) INVALID_PAGE_ID [(key, value)]) /\
    (forall q, q <> next_alloc_ t -> FetchPage t' q = FetchPage t q) /\
    GetValue t' key = Some (Some value) /\
    (forall k, k <> key -> GetValue t' k = Some None).
Proof.
  intros Hempty Halloc Hmax.
  set (id := next_alloc_ t).
  set (leaf0 := mkPage LEAF_PAGE 0 (leaf_max_size_ t) INVALID_PAGE_ID []).
  set (t1 := ensure_root t).
  assert (Ht1 : t1 = mkTree (leaf_max_size_ t) (internal_max_size_ t) id
                       (<[id := leaf0]> (<[id := zero_page]> (pages_ t))) (id + 1))
    by (apply ensure_root_empty; exact Hempty).
  assert (Hrid : root_page_id_ t1 = id) by (rewrite Ht1; reflexivity).
  assert (Hroot : root_page_id_ t1 <> INVALID_PAGE_ID).
  { rewrite Hrid. unfold INVALID_PAGE_ID. fold id in Halloc. lia. }
  assert (Hp : FetchPage t1 id = Some leaf0).
  { rewrite Ht1. unfold FetchPage. simpl. apply lookup_insert_eq. }
  assert (Hd : forall k, descend (descent_fuel t1) t1 k (root_page_id_ t1) = Some (id, leaf0)).
  { intros k. unfold descent_fuel. cbn [descend]. rewrite Hrid, Hp. reflexivity. }
  assert (Hsorted : keys_increasing 0 leaf0).
  { intros i j Hi Hij Hj. unfold GetSize in Hj. simpl in Hj. lia. }
  assert (Habsent : forall k, GetValue t1 k = Some None).
  { intros k. rewrite GetValue_leaf_lookup.
    destruct (Z.eqb_spec (root_page_id_ t1) INVALID_PAGE_ID); [contradiction|].
    rewrite Hd. reflexivity. }
  destruct (Insert_room_core t1 key value id leaf0 Hroot (Hd key)
              ltac:(unfold GetSize; simpl; lia)
              ltac:(unfold GetSize, GetMaxSize; simpl; lia)
              Hsorted (Habsent key)) as (Hins & Hget & Hframe & _).
  eexists. split.
  { rewrite Insert_ensure_root by exact Hroot. exact Hins. }
  split; [exact Hrid|].
  split; [rewrite Ht1; reflexivity|].
  split; [rewrite FetchPage_put_page; rewrite decide_True by reflexivity; reflexivity|].
  split.
  { intros q Hq. rewrite FetchPage_put_page. rewrite decide_False by congruence.
    rewrite Ht1. unfold FetchPage. simpl.
    rewrite !lookup_insert_ne by congruence. reflexivity. }
  split; [exact Hget|].
  intros k Hk. rewrite (Hframe k Hk). apply Habsent.
Qed.

(** Round trip from an empty tree, on any pool.  With leaf_max >= 1,
    [Insert] of a key into an empty tree followed by [Remove] of that key
    gives an empty tree again: the header holds INVALID_PAGE_ID, the page
    that was allocated for the root has been deleted, and every other page
    of the pool is as before the two calls. *)
Theorem Insert_then_Remove_is_empty (t : BPlusTree) (key : KeyType) (value : ValueType) :
  root_page_id_ t = INVALID_PAGE_ID ->
  0 <= next_alloc_ t ->
  1 <= leaf_max_size_ t ->
  exists t' t'',
    Insert t key value = Some (true, t') /\
    Remove t' key = Some t'' /\
    IsEmpty t'' = true /\
    FetchPage t'' (next_alloc_ t) = None /\
    (forall q, q <> next_alloc_ t -> FetchPage t'' q = FetchPage t q) /\
    (forall k, GetValue t'' k = Some None).
Proof.
  intros Hempty Halloc Hmax.
  destruct (Insert_into_empty_core t key value Hempty Halloc Hmax)
    as (t' & Hins & Hroot & _ & Hp & Hothers & Hget & _).
  assert (Hne : root_page_id_ t' <> INVALID_PAGE_ID)
    by (rewrite Hroot; unfold INVALID_PAGE_ID; lia).
  destruct (Remove_last_key_core t' key value _ Hne
              ltac:(rewrite Hroot; exact Hp)
              eq_refl eq_refl Hmax Hget)
    as (t'' & Hrem & _ & Hnow & Hgone & Hrest & Hall).
  exists t', t''. rewrite Hroot in Hgone.
  repeat split; try assumption.
  intros q Hq. rewrite Hrest by (rewrite Hroot; exact Hq). apply Hothers. exact Hq.
Qed.

(** ** Trees that fit in one leaf *)

Lemma single_leaf_descend (t : BPlusTree) (p : BPlusTreePage) (key : KeyType) :
  single_leaf t p ->
  descend (descent_fuel t) t key (root_page_id_ t) = Some (root_page_id_ t, p).
Proof.
  intros (_ & Hp & Hleaf & _). unfold descent_fuel. simpl. rewrite Hp, Hleaf. reflexivity.
Qed.




Lemma GetValue_single_leaf (t : BPlusTree) (p : BPlusTreePage) (key : KeyType) :
  single_leaf t p -> GetValue t key = Some (leaf_lookup p key).
Proof.
  intros Hsl. rewrite GetValue_leaf_lookup, (single_leaf_descend t p key Hsl).
  destruct Hsl as (Hroot & _).
  destruct (Z.eqb_spec (root_page_id_ t) INVALID_PAGE_ID); [contradiction | reflexivity].
Qed.





(** ** The split of a root leaf *)

Lemma move_slot_header (old_page : BPlusTreePage) (half j : Z) (q : BPlusTreePage) :
  same_header (move_slot old_page half j q) q.
Proof. repeat split. Qed.

(** What [split_page] leaves on the two pages, for any size. *)
Lemma split_page_spec (old_page new_page : BPlusTreePage) :
  0 <= GetSize old_page ->
  fst (split_page old_page new_page) = SetSize old_page (GetSize old_page / 2) /\
  GetSize (snd (split_page old_page new_page)) = GetSize old_page - GetSize old_page / 2 /\
  IsLeafPage (snd (split_page old_page new_page)) = IsLeafPage new_page /\
  GetNextPageId (snd (split_page old_page new_page)) = GetNextPageId new_page /\
  (forall j, 0 <= j -> j < GetSize old_page - GetSize old_page / 2 ->
     SlotAt (snd (split_page old_page new_page)) j
     = SlotAt old_page (GetSize old_page / 2 + j)).
Proof.
  intros Hsize.
  assert (Hq : Z.quot (GetSize old_page) 2 = GetSize old_page / 2)
    by (apply Z.quot_div_nonneg; lia).
  assert (Hhalf : 0 <= GetSize old_page / 2 /\ GetSize old_page / 2 <= GetSize old_page).
  { pose proof (Z.div_mod (GetSize old_page) 2 ltac:(lia)).
    pose proof (Z.mod_pos_bound (GetSize old_page) 2 ltac:(lia)). lia. }
  unfold split_page. rewrite Hq. simpl fst. simpl snd. unfold for_range.
  destruct (for_up_same_header (move_slot old_page (GetSize old_page / 2))
              (move_slot_header old_page (GetSize old_page / 2))
              (Z.to_nat (GetSize old_page - GetSize old_page / 2))
              (GetSize old_page / 2)
              (SetSize new_page (GetSize old_page - GetSize old_page / 2)))
    as (Ht & Hs & _ & Hn).
  split; [reflexivity|]. split; [exact Hs|].
  split; [unfold IsLeafPage; rewrite Ht; reflexivity|].
  split; [exact Hn|].
  intros j Hj0 Hj1. rewrite copy_loop_slot by lia.
  destruct (Z.leb_spec (GetSize old_page / 2 - GetSize old_page / 2) j); [|lia].
  destruct (Z.ltb_spec j (GetSize old_page / 2 - GetSize old_page / 2 +
    Z.of_nat (Z.to_nat (GetSize old_page - GetSize old_page / 2)))); [|lia].
  simpl. f_equal. lia.
Qed.

Lemma BinaryFind_internal_two (r : BPlusTreePage) (key : KeyType) :
  GetSize r = 2 ->
  BinaryFind_internal r key = if key <? KeyAt r 1 then 0 else 1.
Proof.
  intros Hs. unfold BinaryFind_internal. rewrite Hs.
  change (Z.to_nat (2 - 1 - 1)) with O. change (2 - 1) with 1. simpl.
  rewrite comparator_gt. destruct (key <? KeyAt r 1); reflexivity.
Qed.

Lemma map_size_pos (m : gmap Z BPlusTreePage) (i : Z) (x : BPlusTreePage) :
  m !! i = Some x -> exists n, size m = Datatypes.S n.
Proof.
  intros H. destruct (size m) as [|n] eqn:Hn; [|exists n; reflexivity].
  apply map_size_empty_inv in Hn. subst m. rewrite lookup_empty in H. discriminate.
Qed.

(** Looking keys up on the two halves of a split page with strictly
    increasing keys: keys below the first key of the upper half are looked
    up on the lower half, the others on the upper half. *)
Lemma leaf_lookup_halves (p1 left_page right_page : BPlusTreePage) (k : KeyType) :
  2 <= GetSize p1 -> keys_increasing 0 p1 ->
  GetSize left_page = GetSize p1 / 2 ->
  (forall j, 0 <= j -> j < GetSize p1 / 2 -> SlotAt left_page j = SlotAt p1 j) ->
  GetSize right_page = GetSize p1 - GetSize p1 / 2 ->
  (forall j, 0 <= j -> j < GetSize p1 - GetSize p1 / 2 ->
     SlotAt right_page j = SlotAt p1 (GetSize p1 / 2 + j)) ->
  leaf_lookup (if k <? KeyAt right_page 0 then left_page else right_page) k
  = leaf_lookup p1 k.
Proof.
  intros Hsize Hsorted HsL HslL HsR HslR.
  assert (Hhalf : 1 <= GetSize p1 / 2 /\ GetSize p1 / 2 < GetSize p1).
  { pose proof (Z.div_mod (GetSize p1) 2 ltac:(lia)).
    pose proof (Z.mod_pos_bound (GetSize p1) 2 ltac:(lia)). lia. }
  set (h := GetSize p1 / 2) in *.
  assert (HkL : forall j, 0 <= j -> j < h -> KeyAt left_page j = KeyAt p1 j)
    by (intros; unfold KeyAt; rewrite HslL by lia; reflexivity).
  assert (HkR : forall j, 0 <= j -> j < GetSize p1 - h -> KeyAt right_page j = KeyAt p1 (h + j))
    by (intros; unfold KeyAt; rewrite HslR by lia; reflexivity).
  assert (HsortL : keys_increasing 0 left_page).
  { intros i j Hi Hij Hj. rewrite HsL in Hj. rewrite !HkL by lia. apply Hsorted; lia. }
  assert (HsortR : keys_increasing 0 right_page).
  { intros i j Hi Hij Hj. rewrite HsR in Hj. rewrite !HkR by lia. apply Hsorted; lia. }
  assert (HK : KeyAt right_page 0 = KeyAt p1 h)
    by (rewrite HkR by lia; f_equal; lia).
  rewrite HK.
  destruct (Z.ltb_spec k (KeyAt p1 h)) as [Hlt|Hge].
  - destruct (leaf_lookup p1 k) as [v|] eqn:Hl.
    + destruct (leaf_lookup_inv p1 k v ltac:(lia) Hl) as (i & Hi0 & Hi1 & Hki & Hvi).
      assert (i < h).
      { destruct (Z_lt_le_dec i h); [assumption|].
        destruct (Z.eq_dec i h) as [->|]; [lia|].
        assert (KeyAt p1 h < KeyAt p1 i) by (apply (keys_increasing_lt 0); auto; lia).
        lia. }
      rewrite (leaf_lookup_found left_page k i ltac:(lia) HsortL Hi0 ltac:(lia)).
      * unfold ValueAt. rewrite HslL by lia. rewrite <- Hvi. reflexivity.
      * rewrite HkL by lia. exact Hki.
    + apply leaf_lookup_absent; [lia|].
      intros i Hi0 Hi1 Hki. rewrite HsL in Hi1. rewrite HkL in Hki by lia.
      exact (leaf_lookup_None_inv p1 k ltac:(lia) Hsorted Hl i Hi0 ltac:(lia) Hki).
  - destruct (leaf_lookup p1 k) as [v|] eqn:Hl.
    + destruct (leaf_lookup_inv p1 k v ltac:(lia) Hl) as (i & Hi0 & Hi1 & Hki & Hvi).
      assert (h <= i).
      { destruct (Z_lt_le_dec i h); [|assumption].
        assert (KeyAt p1 i < KeyAt p1 h) by (apply (keys_increasing_lt 0); auto; lia).
        lia. }
      rewrite (leaf_lookup_found right_page k (i - h) ltac:(lia) HsortR ltac:(lia) ltac:(lia)).
      * unfold ValueAt. rewrite HslR by lia.
        replace (h + (i - h)) with i by lia. rewrite <- Hvi. reflexivity.
      * rewrite HkR by lia. replace (h + (i - h)) with i by lia. exact Hki.
    + apply leaf_lookup_absent; [lia|].
      intros i Hi0 Hi1 Hki. rewrite HsR in Hi1. rewrite HkR in Hki by lia.
      exact (leaf_lookup_None_inv p1 k ltac:(lia) Hsorted Hl (h + i) ltac:(lia) ltac:(lia) Hki).
Qed.

Lemma GetValue_two_level (t : BPlusTree) (r left_page right_page : BPlusTreePage)
    (k : KeyType) :
  root_page_id_ t <> INVALID_PAGE_ID ->
  FetchPage t (root_page_id_ t) = Some r ->
  IsLeafPage r = false -> GetSize r = 2 ->
  FetchPage t (ValueAt r 0) = Some left_page ->
  FetchPage t (ValueAt r 1) = Some right_page ->
  IsLeafPage left_page = true -> IsLeafPage right_page = true ->
  GetValue t k = Some (leaf_lookup (if k <? KeyAt r 1 then left_page else right_page) k).
Proof.
  intros Hroot Hr Hint Hs HL HR HlL HlR.
  rewrite GetValue_leaf_lookup.
  destruct (Z.eqb_spec (root_page_id_ t) INVALID_PAGE_ID); [contradiction|].
  destruct (map_size_pos (pages_ t) _ _ Hr) as (n' & Hn).
  unfold descent_fuel. rewrite Hn. simpl descend.
  rewrite Hr, Hint, (BinaryFind_internal_two r k Hs).
  destruct (k <? KeyAt r 1).
  - rewrite HL, HlL. reflexivity.
  - rewrite HR, HlR. reflexivity.
Qed.

(** Insert into a full root leaf.  When the tree is one leaf with strictly
    increasing keys that is full (size = max_size >= 1) and does not hold
    [key], [Insert] returns true, splits the leaf and makes a new internal
    root over the two halves; afterwards [GetValue] finds the new value, and
    its result for every other key is what it was. *)
Theorem Insert_splits_root_leaf (t : BPlusTree) (p : BPlusTreePage)
    (key : KeyType) (value : ValueType) :
  single_leaf t p ->
  GetSize p = GetMaxSize p -> 1 <= GetMaxSize p ->
  0 <= root_page_id_ t -> root_page_id_ t < next_alloc_ t ->
  GetValue t key = Some None ->
  exists t' r left_page right_page,
    Insert t key value = Some (true, t') /\
    root_page_id_ t' = next_alloc_ t + 1 /\
    FetchPage t' (next_alloc_ t + 1) = Some r /\
    IsLeafPage r = false /\ GetSize r = 2 /\
    ValueAt r 0 = root_page_id_ t /\ ValueAt r 1 = next_alloc_ t /\
    KeyAt r 1 = KeyAt right_page 0 /\
    FetchPage t' (root_page_id_ t) = Some left_page /\
    FetchPage t' (next_alloc_ t) = Some right_page /\
    IsLeafPage left_page = true /\ IsLeafPage right_page = true /\
    GetSize left_page = (GetSize p + 1) / 2 /\
    GetSize right_page = GetSize p + 1 - (GetSize p + 1) / 2 /\
    GetNextPageId left_page = next_alloc_ t /\
    GetNextPageId right_page = GetNextPageId p /\
    GetValue t' key = Some (Some value) /\
    (forall k, k <> key -> GetValue t' k = GetValue t k).
Proof.
  intros Hsl Hfull Hmax Hroot0 Hroot1 Habsent.
  pose proof Hsl as (Hroot & Hp & Hleaf & Hsize & Hsorted).
  assert (Hnone : leaf_lookup p key = None).
  { rewrite (GetValue_single_leaf t p key Hsl) in Habsent. congruence. }
  pose proof (leaf_lookup_None_inv p key Hsize Hsorted Hnone) as Hnew.
  destruct (insert_pos_spec p key Hsize) as (Hp0 & Hp1 & _ & _).
  destruct (insert_slot_slots p (insert_pos p key) key value Hp0 Hp1)
    as (Hs1 & Hm1 & Hl1 & Hn1 & _).
  pose proof (insert_slot_increasing p key value Hsize Hsorted Hnew) as Hsorted1.
  destruct (leaf_lookup_insert_slot p key value Hsize Hsorted Hnone) as (Hlk & Hlf).
  set (p1 := insert_slot p (insert_pos p key) key value) in *.
  set (n0 := next_alloc_ t) in *.
  set (newp := SetNextPageId (SetPageType (InitLeaf zero_page (leaf_max_size_ t)) LEAF_PAGE)
                 (GetNextPageId p1)).
  destruct (split_page_spec (SetNextPageId p1 n0) newp ltac:(change (0 <= GetSize p1); lia))
    as (HL & HsR & HlR & HnR & HslR).
  change (GetSize (SetNextPageId p1 n0)) with (GetSize p1) in *.
  set (left_page := fst (split_page (SetNextPageId p1 n0) newp)) in *.
  set (right_page := snd (split_page (SetNextPageId p1 n0) newp)) in *.
  set (t' := new_root (put_page (put_page (snd (NewPage t)) (root_page_id_ t) left_page)
                         n0 right_page)
               (root_page_id_ t) left_page (KeyAt right_page 0) n0).
  assert (Hins : Insert t key value = Some (true, t')).
  { unfold Insert, ensure_root.
    destruct (Z.eqb_spec (root_page_id_ t) INVALID_PAGE_ID); [contradiction|].
    unfold descent_fuel. simpl descend_road. rewrite Hp, Hleaf.
    cbv beta iota.
    change (List.last [root_page_id_ t] INVALID_PAGE_ID) with (root_page_id_ t).
    rewrite (page_at_fetch t _ p Hp).
    rewrite (leaf_lookup_None_test p key Hnone).
    simpl rev. unfold insert_levels. rewrite (page_at_fetch t _ p Hp). fold p1.
    destruct (Z.leb_spec (GetSize p1) (GetMaxSize p1)); [lia|].
    reflexivity. }
  assert (Hr : exists r, FetchPage t' (n0 + 1) = Some r /\
             IsLeafPage r = false /\ GetSize r = 2 /\
             ValueAt r 0 = root_page_id_ t /\ ValueAt r 1 = n0 /\
             KeyAt r 1 = KeyAt right_page 0).
  { eexists. split.
    - unfold t', new_root, NewPage, FetchPage. simpl. apply lookup_insert_eq.
    - repeat split. }
  destruct Hr as (r & Hr & Hrl & Hrs & Hr0 & Hr1 & Hrk).
  assert (HfR : FetchPage t' n0 = Some right_page).
  { unfold t', new_root, NewPage, FetchPage. simpl. fold n0.
    do 2 (rewrite lookup_insert_ne by lia). apply lookup_insert_eq. }
  assert (HfL : FetchPage t' (root_page_id_ t) = Some left_page).
  { unfold t', new_root, NewPage, FetchPage. simpl. fold n0.
    do 3 (rewrite lookup_insert_ne by lia). apply lookup_insert_eq. }
  assert (HlL : IsLeafPage left_page = true) by (rewrite HL; exact (eq_trans Hl1 Hleaf)).
  assert (HlR' : IsLeafPage right_page = true) by (rewrite HlR; reflexivity).
  assert (Hroot' : root_page_id_ t' = n0 + 1) by reflexivity.
  assert (Hget : forall k, GetValue t' k = Some (leaf_lookup p1 k)).
  { intros k.
    rewrite (GetValue_two_level t' r left_page right_page k); try assumption.
    - rewrite Hrk. f_equal.
      apply leaf_lookup_halves; try assumption; try lia.
      + rewrite HL. reflexivity.
      + intros j _ _. rewrite HL. reflexivity.
    - rewrite Hroot'. unfold INVALID_PAGE_ID. lia.
    - rewrite Hr0. exact HfL.
    - rewrite Hr1. exact HfR. }
  exists t', r, left_page, right_page.
  split; [exact Hins|]. split; [exact Hroot'|]. split; [exact Hr|].
  split; [exact Hrl|]. split; [exact Hrs|]. split; [exact Hr0|]. split; [exact Hr1|].
  split; [exact Hrk|]. split; [exact HfL|]. split; [exact HfR|].
  split; [exact HlL|]. split; [exact HlR'|].
  split; [rewrite HL; change (GetSize p1 / 2 = (GetSize p + 1) / 2); rewrite Hs1; reflexivity|].
  split; [rewrite HsR, Hs1; reflexivity|].
  split; [rewrite HL; reflexivity|].
  split; [rewrite HnR; exact Hn1|].
  split; [rewrite Hget, Hlk; reflexivity|].
  intros k Hk. rewrite Hget, (Hlf k Hk). symmetry. apply GetValue_single_leaf. exact Hsl.
Qed.

(** ** Insert followed by Remove *)

(** Insert followed by Remove of the same key.  If the descent for an
    absent [key] ends on a leaf with strictly increasing keys that has room
    and holds at least min_size entries (or is a non-empty root), then
    [Insert] and [Remove] of [key] succeed one after the other and
    [GetValue] answers every key as before the two calls. *)
Theorem Insert_then_Remove_restores (t : BPlusTree) (key : KeyType) (value : ValueType)
    (pid : page_id_t) (p : BPlusTreePage) :
  root_page_id_ t <> INVALID_PAGE_ID ->
  descend (descent_fuel t) t key (root_page_id_ t) = Some (pid, p) ->
  0 <= GetSize p -> GetSize p < GetMaxSize p ->
  keys_increasing 0 p ->
  GetValue t key = Some None ->
  GetMinSize p <= GetSize p \/ (pid = root_page_id_ t /\ 1 <= GetSize p) ->
  exists t1 t2,
    Insert t key value = Some (true, t1) /\
    Remove t1 key = Some t2 /\
    root_page_id_ t2 = root_page_id_ t /\
    (forall k, GetValue t2 k = GetValue t k).
Proof.
  intros Hroot Hd Hsize Hroom Hsorted Habsent Hkeep.
  destruct (descend_fetch _ _ _ _ _ _ Hd) as (Hp & Hleaf).
  destruct (Insert_room_core t key value pid p Hroot Hd Hsize Hroom Hsorted Habsent)
    as (Hins & Hget & Hframe & Hsorted1).
  destruct (insert_pos_spec p key Hsize) as (Hp0 & Hp1 & _ & _).
  destruct (insert_slot_slots p (insert_pos p key) key value Hp0 Hp1)
    as (Hs1 & Hm1 & Hl1 & _).
  set (p1 := insert_slot p (insert_pos p key) key value) in *.
  set (t1 := put_page t pid p1) in *.
  assert (Hleaf1 : IsLeafPage p1 = true) by congruence.
  assert (Hd1 : descend (descent_fuel t1) t1 key (root_page_id_ t1) = Some (pid, p1)).
  { unfold t1. rewrite (descent_fuel_put_page t pid p p1 Hp).
    change (root_page_id_ (put_page t pid p1)) with (root_page_id_ t).
    rewrite (descend_put_leaf t pid p p1 key Hp Hleaf Hleaf1), Hd.
    apply decide_True. reflexivity. }
  assert (Hmin : GetMinSize p1 = GetMinSize p)
    by (unfold GetMinSize; unfold GetMaxSize in Hm1; rewrite Hm1; reflexivity).
  destruct (Remove_no_underflow_core t1 key value pid p1 Hroot Hd1 ltac:(lia) Hsorted1 Hget)
    as (Hrem & Hgone & Hframe2 & _).
  { destruct Hkeep as [Hk|[Hk1 Hk2]]; [left; lia | right; split; [exact Hk1 | lia]]. }
  exists t1, (put_page t1 pid (remove_slot p1 (BinaryFind_leaf p1 key))).
  split; [exact Hins|]. split; [exact Hrem|]. split; [reflexivity|].
  intros k. destruct (Z.eq_dec k key) as [->|Hk].
  - rewrite Hgone. symmetry. exact Habsent.
  - rewrite (Hframe2 k Hk). apply Hframe. exact Hk.
Qed.

(** ** The cursor of [Begin()] *)

Lemma descend_leftmost_sound (fuel : nat) (t : BPlusTree) : forall pid leaf,
  descend_leftmost fuel t pid = Some leaf -> leftmost_leaf t pid leaf.
Proof.
  induction fuel as [|f IH]; intros pid leaf H; simpl in H; [discriminate|].
  destruct (FetchPage t pid) as [p|] eqn:Hp; [|discriminate].
  destruct (IsLeafPage p) eqn:Hleaf.
  - injection H as <-. eapply leftmost_here; eassumption.
  - eapply leftmost_below; eauto.
Qed.

Lemma descend_leftmost_mono (fuel : nat) (t : BPlusTree) : forall fuel' pid leaf,
  descend_leftmost fuel t pid = Some leaf -> (fuel <= fuel')%nat ->
  descend_leftmost fuel' t pid = Some leaf.
Proof.
  induction fuel as [|f IH]; intros fuel' pid leaf H Hle; simpl in H; [discriminate|].
  destruct fuel' as [|f']; [lia|]. simpl.
  destruct (FetchPage t pid) as [p|]; [|discriminate].
  destruct (IsLeafPage p); [assumption|].
  apply IH; [assumption | lia].
Qed.

Lemma leftmost_leaf_reach (t : BPlusTree) (pid leaf : page_id_t) :
  leftmost_leaf t pid leaf -> exists n, reach_in n t pid leaf.
Proof.
  induction 1 as [pid p Hp Hleaf | pid leaf p Hp Hleaf _ [n [Hs Hn]]].
  - exists O. split; [|reflexivity]. simpl. rewrite Hp, Hleaf. reflexivity.
  - exists (Datatypes.S n). split.
    + change (descend_leftmost (Datatypes.S (Datatypes.S n)) t pid)
        with (match FetchPage t pid with
              | None => None
              | Some p => if IsLeafPage p then Some pid
                          else descend_leftmost (Datatypes.S n) t (ValueAt p 0)
              end).
      rewrite Hp, Hleaf. exact Hs.
    + simpl. rewrite Hp, Hleaf. exact Hn.
Qed.

Lemma reach_in_unique (t : BPlusTree) (pid leaf leaf' : page_id_t) (n m : nat) :
  reach_in n t pid leaf -> reach_in m t pid leaf' -> n = m.
Proof.
  intros [Hn Hn0] [Hm Hm0].
  destruct (Nat.lt_trichotomy n m) as [Hlt|[Heq|Hgt]]; [|assumption|].
  - rewrite (descend_leftmost_mono _ t m pid leaf Hn) in Hm0 by lia. discriminate.
  - rewrite (descend_leftmost_mono _ t n pid leaf' Hm) in Hn0 by lia. discriminate.
Qed.

Lemma reach_in_path (t : BPlusTree) (leaf : page_id_t) (n : nat) : forall pid,
  reach_in n t pid leaf ->
  exists path : list page_id_t,
    length path = Datatypes.S n /\ NoDup path /\
    (forall x, x ∈ path -> is_Some (pages_ t !! x)) /\
    (forall x, x ∈ path -> exists m, (m <= n)%nat /\ reach_in m t x leaf).
Proof.
  induction n as [|n IH]; intros pid [Hs Hn].
  - exists [pid]. split; [reflexivity|]. split; [apply NoDup_singleton|].
    simpl in Hs. destruct (FetchPage t pid) as [p|] eqn:Hp; [|discriminate].
    split; intros x Hx; apply list_elem_of_singleton in Hx; subst x.
    + unfold FetchPage in Hp. rewrite Hp. eexists; reflexivity.
    + exists O. split; [lia|]. split; [simpl; rewrite Hp; exact Hs | reflexivity].
  - assert (Hs' := Hs).
    change (descend_leftmost (Datatypes.S (Datatypes.S n)) t pid)
      with (match FetchPage t pid with
            | None => None
            | Some p => if IsLeafPage p then Some pid
                        else descend_leftmost (Datatypes.S n) t (ValueAt p 0)
            end) in Hs.
    change (descend_leftmost (Datatypes.S n) t pid)
      with (match FetchPage t pid with
            | None => None
            | Some p => if IsLeafPage p then Some pid
                        else descend_leftmost n t (ValueAt p 0)
            end) in Hn.
    destruct (FetchPage t pid) as [p|] eqn:Hp; [|discriminate].
    destruct (IsLeafPage p) eqn:Hleaf; [discriminate|].
    destruct (IH (ValueAt p 0) (conj Hs Hn)) as (path & Hlen & Hnd & Hin & Hreach).
    exists (pid :: path). split; [simpl; lia|]. split.
    + apply NoDup_cons. split; [|assumption].
      intros Hmem. destruct (Hreach pid Hmem) as (m & Hm & Hr).
      assert (Hpid : reach_in (Datatypes.S n) t pid leaf).
      { split; [exact Hs'|]. simpl. rewrite Hp, Hleaf. exact Hn. }
      pose proof (reach_in_unique t pid leaf leaf _ _ Hr Hpid). lia.
    + split; intros x Hx; apply elem_of_cons in Hx; destruct Hx as [->|Hx].
      * unfold FetchPage in Hp. rewrite Hp. eexists; reflexivity.
      * apply Hin; assumption.
      * exists (Datatypes.S n). split; [lia|]. split; [exact Hs'|].
        simpl. rewrite Hp, Hleaf. exact Hn.
      * destruct (Hreach x Hx) as (m & Hm & Hr). exists m. split; [lia | exact Hr].
Qed.

Lemma pool_pigeonhole (m : gmap Z BPlusTreePage) (l : list Z) :
  NoDup l -> (forall x, x ∈ l -> is_Some (m !! x)) -> (length l <= size m)%nat.
Proof.
  intros Hnd Hin.
  assert (Hsub : (list_to_set l : gset Z) ⊆ dom m).
  { intros x Hx. apply elem_of_list_to_set in Hx. apply elem_of_dom. auto. }
  apply subseteq_size in Hsub.
  rewrite size_list_to_set in Hsub by exact Hnd.
  rewrite size_dom in Hsub. exact Hsub.
Qed.

Lemma leftmost_leaf_descend (t : BPlusTree) (pid leaf : page_id_t) :
  leftmost_leaf t pid leaf ->
  descend_leftmost (descent_fuel t) t pid = Some leaf.
Proof.
  intros H. destruct (leftmost_leaf_reach t pid leaf H) as [n Hr].
  destruct (reach_in_path t leaf n pid Hr) as (path & Hlen & Hnd & Hin & _).
  pose proof (pool_pigeonhole (pages_ t) path Hnd Hin) as Hsize.
  destruct Hr as [Hs _].
  apply (descend_leftmost_mono _ t (descent_fuel t) pid leaf Hs).
  unfold descent_fuel. unfold page_id_t in Hlen. lia.
Qed.

(** [Begin()] returns the end cursor on the empty tree.  On a non-empty
    tree it returns exactly when the slot-0 children lead from the root to
    a leaf, and then its result is slot 0 of that leaf, the leftmost one,
    whatever the size of the leaf is. *)
Theorem Begin_is_leftmost_leaf (t : BPlusTree) :
  (root_page_id_ t = INVALID_PAGE_ID -> Begin t = Some End) /\
  (root_page_id_ t <> INVALID_PAGE_ID ->
   forall it : IndexIterator,
     Begin t = Some it <->
     it_index it = 0 /\ leftmost_leaf t (root_page_id_ t) (it_page_id it)).
Proof.
  unfold Begin. split.
  - intros ->. reflexivity.
  - intros Hne it.
    destruct (Z.eqb_spec (root_page_id_ t) INVALID_PAGE_ID) as [|_]; [contradiction|].
    split.
    + destruct (descend_leftmost (descent_fuel t) t (root_page_id_ t)) as [pid|] eqn:Hd;
        [|discriminate].
      intros H. injection H as <-. split; [reflexivity|].
      exact (descend_leftmost_sound _ _ _ _ Hd).
    + intros [Hidx Hleft]. rewrite (leftmost_leaf_descend _ _ _ Hleft).
      destruct it as [pid idx]. simpl in *. subst idx. reflexivity.
Qed.

(** On the tree 1, ..., 5 the root is the internal page 2, and [Begin()]
    is slot 0 of the leaf below its slot 0. *)
Lemma Begin_is_leftmost_leaf_witness :
  root_page_id_ (tree_of (ascending 5)) = 2 /\
  IsLeafPage (page_at (tree_of (ascending 5)) 2) = false /\
  slots (page_at (tree_of (ascending 5)) 2) = [(1, 0); (3, 1)] /\
  Begin (tree_of (ascending 5)) = Some (mkIterator 0 0) /\
  leftmost_leaf (tree_of (ascending 5)) (root_page_id_ (tree_of (ascending 5))) 0.
Proof.
  assert (Hne : root_page_id_ (tree_of (ascending 5)) <> INVALID_PAGE_ID)
    by (vm_compute; discriminate).
  assert (Hb : Begin (tree_of (ascending 5)) = Some (mkIterator 0 0))
    by (vm_compute; reflexivity).
  split; [vm_compute; reflexivity|].
  split; [vm_compute; reflexivity|].
  split; [vm_compute; reflexivity|].
  split; [exact Hb|].
  exact (proj2 (proj1 (proj2 (Begin_is_leftmost_leaf (tree_of (ascending 5))) Hne
                         (mkIterator 0 0)) Hb)).
Defined.

(** ** What Insert and Remove do to the header and the allocator *)

(** Case analysis on the condition of a conditional of the goal, or of a
    hypothesis. *)
Ltac case_if := match goal with |- context [if ?c then _ else _] => destruct c end.
Ltac case_if_in H :=
  match type of H with context [if ?c then _ else _] => destruct c end.

Ltac header_fields :=
  cbn [next_alloc_ root_page_id_ leaf_max_size_ internal_max_size_
       put_page set_pages set_root new_root NewPage fst snd].

Lemma insert_keeps_trans (a b c : BPlusTree) :
  insert_keeps a b -> insert_keeps b c -> insert_keeps a c.
Proof.
  unfold insert_keeps. intros (? & ? & ? & ? & ?) (? & ? & ? & ? & ?).
  repeat split; try congruence; lia.
Qed.

Lemma insert_keeps_put_page (t : BPlusTree) (pid : page_id_t) (p : BPlusTreePage) :
  0 <= root_page_id_ t -> root_page_id_ t < next_alloc_ t ->
  insert_keeps t (put_page t pid p).
Proof. intros. unfold insert_keeps. header_fields. repeat split; lia. Qed.

Lemma insert_keeps_split (t : BPlusTree) (pid : page_id_t) (p q : BPlusTreePage) :
  0 <= root_page_id_ t -> root_page_id_ t < next_alloc_ t ->
  insert_keeps t (put_page (put_page (snd (NewPage t)) pid p) (next_alloc_ t) q).
Proof. intros. unfold insert_keeps. header_fields. repeat split; lia. Qed.

Lemma insert_keeps_new_root (t : BPlusTree) (old_root : page_id_t)
    (old_page : BPlusTreePage) (new_key : KeyType) (new_page_id : page_id_t) :
  0 <= next_alloc_ t ->
  insert_keeps t (new_root t old_root old_page new_key new_page_id).
Proof. intros. unfold insert_keeps. header_fields. repeat split; lia. Qed.

Lemma insert_internal_levels_keeps (up : list page_id_t) :
  forall (t : BPlusTree) (new_key : KeyType) (new_page_id : page_id_t),
    0 <= root_page_id_ t -> root_page_id_ t < next_alloc_ t ->
    insert_keeps t (insert_internal_levels t up new_key new_page_id).
Proof.
  induction up as [|pid rest IH]; intros t new_key new_page_id H0 H1.
  - cbn [insert_internal_levels]. unfold insert_keeps. repeat split; lia.
  - cbn [insert_internal_levels]. case_if.
    + apply insert_keeps_put_page; assumption.
    + unfold split_page. cbv beta iota zeta.
      change (NewPage t) with (next_alloc_ t, snd (NewPage t)). cbv beta iota.
      match goal with
      | |- insert_keeps _ (match rest with
                           | [] => new_root ?t2 _ _ _ _
                           | _ :: _ => _ end) =>
          assert (H2 : insert_keeps t t2) by (apply insert_keeps_split; assumption)
      end.
      pose proof H2 as (_ & _ & _ & Hd & He).
      destruct rest as [|pid' rest'].
      * eapply insert_keeps_trans; [exact H2|]. apply insert_keeps_new_root. lia.
      * eapply insert_keeps_trans; [exact H2|]. apply IH; assumption.
Qed.

Lemma insert_levels_keeps (up : list page_id_t) (t : BPlusTree)
    (key : KeyType) (value : ValueType) :
  0 <= root_page_id_ t -> root_page_id_ t < next_alloc_ t ->
  insert_keeps t (insert_levels t up key value).
Proof.
  intros H0 H1. destruct up as [|pid rest].
  - cbn [insert_levels]. unfold insert_keeps. repeat split; lia.
  - cbn [insert_levels]. case_if.
    + apply insert_keeps_put_page; assumption.
    + unfold split_page. cbv beta iota zeta.
      change (NewPage t) with (next_alloc_ t, snd (NewPage t)). cbv beta iota.
      match goal with
      | |- insert_keeps _ (match rest with
                           | [] => new_root ?t2 _ _ _ _
                           | _ :: _ => _ end) =>
          assert (H2 : insert_keeps t t2) by (apply insert_keeps_split; assumption)
      end.
      pose proof H2 as (_ & _ & _ & Hd & He).
      destruct rest as [|pid' rest'].
      * eapply insert_keeps_trans; [exact H2|]. apply insert_keeps_new_root. lia.
      * eapply insert_keeps_trans; [exact H2|].
        apply insert_internal_levels_keeps; assumption.
Qed.

(** [Insert] never leaves the tree empty.  From a state whose allocator is
    not negative and whose root, if any, was allocated before, every
    [Insert] that returns leaves a root id that is an allocated page id,
    keeps leaf_max and internal_max, and moves the allocator forward
    only. *)
Theorem Insert_keeps_root_valid (t t' : BPlusTree) (key : KeyType)
    (value : ValueType) (inserted : bool) :
  0 <= next_alloc_ t ->
  (root_page_id_ t = INVALID_PAGE_ID \/
   (0 <= root_page_id_ t /\ root_page_id_ t < next_alloc_ t)) ->
  Insert t key value = Some (inserted, t') ->
  IsEmpty t' = false /\
  0 <= root_page_id_ t' /\ root_page_id_ t' < next_alloc_ t' /\
  next_alloc_ t <= next_alloc_ t' /\
  leaf_max_size_ t' = leaf_max_size_ t /\
  internal_max_size_ t' = internal_max_size_ t.
Proof.
  intros Halloc Hroot Hins.
  assert (H1 : insert_keeps t (ensure_root t)).
  { unfold ensure_root, insert_keeps.
    destruct (Z.eqb_spec (root_page_id_ t) INVALID_PAGE_ID) as [He|Hne].
    - header_fields. repeat split; lia.
    - destruct Hroot as [?|[? ?]]; [contradiction|]. repeat split; lia. }
  assert (H2 : insert_keeps t t').
  { unfold Insert in Hins.
    destruct (descend_road _ (ensure_root t) key _) as [road|]; [|discriminate].
    case_if_in Hins.
    - injection Hins as _ <-. exact H1.
    - injection Hins as _ <-.
      destruct H1 as (Ha & Hb & Hc & Hd & He).
      eapply insert_keeps_trans;
        [|apply (insert_levels_keeps (rev road) (ensure_root t) key value Hd He)].
      unfold insert_keeps. repeat split; assumption. }
  destruct H2 as (Ha & Hb & Hc & Hd & He).
  split; [|repeat split; assumption].
  unfold IsEmpty, INVALID_PAGE_ID. apply Z.eqb_neq. lia.
Qed.

Lemma Insert_keeps_root_valid_witness :
  0 <= next_alloc_ tree_135 /\
  (root_page_id_ tree_135 = INVALID_PAGE_ID \/
   (0 <= root_page_id_ tree_135 /\ root_page_id_ tree_135 < next_alloc_ tree_135)) /\
  Insert tree_135 4 4 = Some (true, tree_of [1; 3; 5; 4]) /\
  IsEmpty (tree_of [1; 3; 5; 4]) = false /\
  0 <= root_page_id_ (tree_of [1; 3; 5; 4]) /\
  root_page_id_ (tree_of [1; 3; 5; 4]) < next_alloc_ (tree_of [1; 3; 5; 4]) /\
  next_alloc_ tree_135 <= next_alloc_ (tree_of [1; 3; 5; 4]) /\
  leaf_max_size_ (tree_of [1; 3; 5; 4]) = leaf_max_size_ tree_135 /\
  internal_max_size_ (tree_of [1; 3; 5; 4]) = internal_max_size_ tree_135.
Proof.
  split; [vm_compute; discriminate|].
  split; [right; split; [vm_compute; discriminate | vm_compute; reflexivity]|].
  split; [vm_compute; reflexivity|].
  apply (Insert_keeps_root_valid tree_135 (tree_of [1; 3; 5; 4]) 4 4 true).
  - vm_compute; discriminate.
  - right; split; [vm_compute; discriminate | vm_compute; reflexivity].
  - vm_compute; reflexivity.
Defined.

Lemma same_allocator_refl (t : BPlusTree) : same_allocator t t.
Proof. unfold same_allocator. auto. Qed.

Lemma same_allocator_modify_page (a t : BPlusTree) (pid : page_id_t)
    (f : BPlusTreePage -> BPlusTreePage) :
  same_allocator a t -> same_allocator a (modify_page t pid f).
Proof. exact (fun H => H). Qed.

Lemma same_allocator_copy_slot (a t : BPlusTree) (dst : page_id_t) (di : Z)
    (src : page_id_t) (si : Z) :
  same_allocator a t -> same_allocator a (copy_slot t dst di src si).
Proof. exact (fun H => H). Qed.

Lemma same_allocator_DeletePage (a t : BPlusTree) (pid : page_id_t) :
  same_allocator a t -> same_allocator a (DeletePage t pid).
Proof. exact (fun H => H). Qed.

Lemma same_allocator_set_root (a t : BPlusTree) (r : page_id_t) :
  same_allocator a t -> same_allocator a (set_root t r).
Proof. exact (fun H => H). Qed.

Lemma same_allocator_for_up (body : Z -> BPlusTree -> BPlusTree) (a : BPlusTree) :
  (forall j s, same_allocator a s -> same_allocator a (body j s)) ->
  forall n j s, same_allocator a s -> same_allocator a (for_up n j body s).
Proof.
  intros Hbody. induction n as [|n IH]; intros j s Hs; simpl.
  - exact Hs.
  - apply IH. apply Hbody. exact Hs.
Qed.

(** One step through a state built from the primitives of [Remove]. *)
Ltac allocator_step :=
  first
    [ assumption
    | apply same_allocator_refl
    | apply same_allocator_modify_page
    | apply same_allocator_DeletePage
    | apply same_allocator_set_root
    | apply same_allocator_for_up; [intros; apply same_allocator_copy_slot; assumption|] ].

Lemma Some_state_inj (a b : BPlusTree) (f g : flow) :
  Some (a, f) = Some (b, g) -> a = b.
Proof. intros [= -> _]. reflexivity. Qed.

Ltac allocator_steps := repeat allocator_step.

Lemma leaf_underflow_same_allocator (t t' : BPlusTree) (pid ppid : page_id_t)
    (pos : Z) (f : flow) :
  leaf_underflow t pid ppid pos = Some (t', f) -> same_allocator t t'.
Proof.
  unfold leaf_underflow, for_range. intros H.
  destruct (FetchPage t ppid) as [parent|]; [|discriminate].
  destruct (negb (pos =? 0)); [|injection H as <- _; apply same_allocator_refl].
  destruct (FetchPage t (ValueAt parent (pos - 1))) as [sib|]; [|discriminate].
  case_if_in H; apply Some_state_inj in H; rewrite <- H; allocator_steps.
Qed.

Lemma internal_underflow_same_allocator (t t' : BPlusTree) (pid ppid : page_id_t)
    (pos : Z) (f : flow) :
  internal_underflow t pid ppid pos = Some (t', f) -> same_allocator t t'.
Proof.
  unfold internal_underflow, for_range. intros H.
  destruct (FetchPage t ppid) as [parent|]; [|discriminate].
  destruct (negb (pos =? 0)); [|injection H as <- _; apply same_allocator_refl].
  destruct (FetchPage t (ValueAt parent (pos - 1))) as [sib|]; [|discriminate].
  case_if_in H; apply Some_state_inj in H; rewrite <- H; allocator_steps.
Qed.

Lemma remove_levels_same_allocator (up : list (page_id_t * Z)) :
  forall (a t t' : BPlusTree) (leaf_level : bool),
    same_allocator a t ->
    remove_levels t up leaf_level = Some t' -> same_allocator a t'.
Proof.
  induction up as [|[pid slot] rest IH]; intros a t t' leaf_level Ha H;
    cbn [remove_levels] in H.
  - injection H as <-. exact Ha.
  - destruct (FetchPage t pid) as [p|]; [|discriminate].
    cbv zeta in H.
    case_if_in H; [injection H as <-; repeat allocator_step|].
    destruct rest as [|[ppid pos] rest'].
    + destruct leaf_level; case_if_in H; injection H as <-; repeat allocator_step.
    + destruct (if leaf_level
                then leaf_underflow (modify_page t pid (fun p0 => remove_slot p0 slot))
                       pid ppid pos
                else internal_underflow (modify_page t pid (fun p0 => remove_slot p0 slot))
                       pid ppid pos) as [[t2 f]|] eqn:Hu; [|discriminate].
      assert (H2 : same_allocator a t2).
      { destruct leaf_level.
        - apply leaf_underflow_same_allocator in Hu.
          unfold same_allocator in *. destruct Ha as (? & ? & ?), Hu as (? & ? & ?).
          cbn [leaf_max_size_ internal_max_size_ next_alloc_ modify_page put_page set_pages] in *.
          repeat split; congruence.
        - apply internal_underflow_same_allocator in Hu.
          unfold same_allocator in *. destruct Ha as (? & ? & ?), Hu as (? & ? & ?).
          cbn [leaf_max_size_ internal_max_size_ next_alloc_ modify_page put_page set_pages] in *.
          repeat split; congruence. }
      destruct f.
      * injection H as <-. exact H2.
      * eapply IH; eassumption.
Qed.

(** [Remove] never allocates.  Whatever the state, a [Remove] that returns
    leaves the allocator where it was and keeps leaf_max and internal_max,
    also when it merges, redistributes or collapses the root. *)
Theorem Remove_never_allocates (t t' : BPlusTree) (key : KeyType) :
  Remove t key = Some t' ->
  next_alloc_ t' = next_alloc_ t /\
  leaf_max_size_ t' = leaf_max_size_ t /\
  internal_max_size_ t' = internal_max_size_ t.
Proof.
  unfold Remove. intros H.
  assert (Hs : same_allocator t t').
  { destruct (root_page_id_ t =? INVALID_PAGE_ID);
      [injection H as <-; apply same_allocator_refl|].
    destruct (descend_slots _ t key _) as [road|]; [|discriminate].
    destruct (rev road) as [|[leaf_id s] rest]; [discriminate|].
    case_if_in H; [injection H as <-; apply same_allocator_refl|].
    exact (remove_levels_same_allocator _ t _ _ _ (same_allocator_refl t) H). }
  destruct Hs as (Ha & Hb & Hc). repeat split; assumption.
Qed.

(** * Summary theorems *)

(** ** Binary search *)

(** The loop of both searches makes progress in every iteration, whatever
    the keys are: started on [l, r] with any number of iterations allowed
    that is at least [r - l], it stops because its condition [l < r] has
    become false. *)
Lemma bf_loop_exit (p : BPlusTreePage) (key : KeyType) (fuel : nat) :
  forall l r, (Z.to_nat (r - l) <= fuel)%nat ->
    ~ fst (bf_loop fuel p key l r) < snd (bf_loop fuel p key l r).
Proof.
  induction fuel as [|f IH]; intros l r Hfuel; simpl; [lia|].
  destruct (Z.ltb_spec l r) as [Hlt|Hge]; [|simpl; lia].
  rewrite shiftr_1.
  assert (Hmid : l < (l + r + 1) / 2 /\ (l + r + 1) / 2 <= r).
  { pose proof (Z.div_mod (l + r + 1) 2 ltac:(lia)).
    pose proof (Z.mod_pos_bound (l + r + 1) 2 ltac:(lia)). lia. }
  destruct (negb (comparator_ (KeyAt p ((l + r + 1) / 2)) key =? 1));
    apply IH; lia.
Qed.

(** Iterations allowed beyond [r - l] are never used. *)
Lemma bf_loop_fuel_irrelevant (p : BPlusTreePage) (key : KeyType) (fuel : nat) :
  forall fuel' l r,
    (Z.to_nat (r - l) <= fuel)%nat -> (Z.to_nat (r - l) <= fuel')%nat ->
    bf_loop fuel p key l r = bf_loop fuel' p key l r.
Proof.
  induction fuel as [|f IH]; intros fuel' l r Hf Hf'.
  - destruct fuel' as [|f']; simpl; [reflexivity|].
    destruct (Z.ltb_spec l r); [lia | reflexivity].
  - destruct fuel' as [|f']; simpl.
    + destruct (Z.ltb_spec l r); [lia | reflexivity].
    + destruct (Z.ltb_spec l r) as [Hlt|Hge]; [|reflexivity].
      rewrite shiftr_1.
      assert (Hmid : l < (l + r + 1) / 2 /\ (l + r + 1) / 2 <= r).
      { pose proof (Z.div_mod (l + r + 1) 2 ltac:(lia)).
        pose proof (Z.mod_pos_bound (l + r + 1) 2 ltac:(lia)). lia. }
      destruct (negb (comparator_ (KeyAt p ((l + r + 1) / 2)) key =? 1));
        apply IH; lia.
Qed.

Lemma bf_loop_fuel_enough (p : BPlusTreePage) (key : KeyType) (fuel : nat) (l r : Z) :
  (Z.to_nat (r - l) <= fuel)%nat ->
  bf_loop fuel p key l r = bf_loop (Z.to_nat (r - l)) p key l r.
Proof. intros H. apply bf_loop_fuel_irrelevant; [exact H | apply Nat.le_refl]. Qed.

(** Both searches end, whatever the keys of the page are (sorted or not):
    the loop started on [l, r] leaves through its condition within [r - l]
    iterations, and further iterations allowed change nothing.  The leaf
    search returns -1 or a live slot; the routing search returns slot 0 or
    a live slot (on a page of size 0 it returns 0, which is no live
    slot). *)
Theorem BinaryFind_in_bounds (p : BPlusTreePage) (key : KeyType) :
  0 <= GetSize p ->
  (forall (l r : Z) (fuel : nat), (Z.to_nat (r - l) <= fuel)%nat ->
     bf_loop fuel p key l r = bf_loop (Z.to_nat (r - l)) p key l r /\
     ~ fst (bf_loop fuel p key l r) < snd (bf_loop fuel p key l r)) /\
  -1 <= BinaryFind_leaf p key /\ BinaryFind_leaf p key < GetSize p /\
  0 <= BinaryFind_internal p key /\
  BinaryFind_internal p key < Z.max 1 (GetSize p).
Proof.
  intros Hsize. split.
  - intros l r fuel Hfuel. split.
    + apply bf_loop_fuel_enough. exact Hfuel.
    + apply bf_loop_exit. exact Hfuel.
  - destruct (BinaryFind_bounds p key Hsize) as (H1 & H2 & H3 & H4).
    repeat split; try assumption. lia.
Qed.

Lemma BinaryFind_in_bounds_witness :
  0 <= GetSize example_leaf /\
  bf_loop (Z.to_nat (2 - 0)) example_leaf 4 0 2 = (1, 1) /\
  (forall (l r : Z) (fuel : nat), (Z.to_nat (r - l) <= fuel)%nat ->
     bf_loop fuel example_leaf 4 l r = bf_loop (Z.to_nat (r - l)) example_leaf 4 l r /\
     ~ fst (bf_loop fuel example_leaf 4 l r) < snd (bf_loop fuel example_leaf 4 l r)) /\
  -1 <= BinaryFind_leaf example_leaf 4 /\
  BinaryFind_leaf example_leaf 4 < GetSize example_leaf /\
  0 <= BinaryFind_internal example_leaf 4 /\
  BinaryFind_internal example_leaf 4 < Z.max 1 (GetSize example_leaf).
Proof.
  split; [vm_compute; discriminate|].
  split; [vm_compute; reflexivity|].
  apply (BinaryFind_in_bounds example_leaf 4). vm_compute; discriminate.
Defined.

(** ** One page *)

(** Writing an entry at slot [pos] of a page (lines 150-156, 200-206) grows
    the page by one, keeps its kind, capacity and link, keeps the slots
    below [pos], puts the entry at [pos] and moves the slots [pos, size) up
    by one. *)
Theorem insert_slot_content (p : BPlusTreePage) (pos : Z) (key : KeyType) (value : Z) :
  0 <= pos -> pos <= GetSize p ->
  GetSize (insert_slot p pos key value) = GetSize p + 1 /\
  GetMaxSize (insert_slot p pos key value) = GetMaxSize p /\
  IsLeafPage (insert_slot p pos key value) = IsLeafPage p /\
  GetNextPageId (insert_slot p pos key value) = GetNextPageId p /\
  SlotAt (insert_slot p pos key value) pos = (key, value) /\
  (forall i, 0 <= i -> i < pos ->
     SlotAt (insert_slot p pos key value) i = SlotAt p i) /\
  (forall i, pos < i -> i <= GetSize p ->
     SlotAt (insert_slot p pos key value) i = SlotAt p (i - 1)).
Proof. exact (insert_slot_slots p pos key value). Qed.

Lemma insert_slot_content_witness :
  0 <= 1 /\ 1 <= GetSize example_leaf /\
  slots (insert_slot example_leaf 1 2 2) = [(1, 1); (2, 2); (3, 3); (5, 5)] /\
  GetSize (insert_slot example_leaf 1 2 2) = GetSize example_leaf + 1.
Proof.
  split; [lia|]. split; [vm_compute; discriminate|].
  split; [vm_compute; reflexivity|].
  apply (insert_slot_content example_leaf 1 2 2); [lia | vm_compute; discriminate].
Defined.

(** Inserting a new key into a page with strictly increasing keys, at the
    slot the code chooses (the first slot with a greater key), leaves the
    keys strictly increasing. *)
Theorem insert_keeps_keys_increasing (p : BPlusTreePage) (key : KeyType) (value : Z) :
  0 <= GetSize p ->
  keys_increasing 0 p ->
  (forall i, 0 <= i -> i < GetSize p -> KeyAt p i <> key) ->
  keys_increasing 0 (insert_slot p (insert_pos p key) key value).
Proof. exact (insert_slot_increasing p key value). Qed.

(** Key 4 is not on the leaf 1, 3, 5. *)
Lemma example_leaf_without_4 :
  forall i, 0 <= i -> i < GetSize example_leaf -> KeyAt example_leaf i <> 4.
Proof.
  intros i Hi0 Hi1. unfold GetSize in Hi1. simpl in Hi1.
  assert (Hc : i = 0 \/ i = 1 \/ i = 2) by lia.
  destruct Hc as [Hc | [Hc | Hc]]; subst i; vm_compute; discriminate.
Defined.

Lemma insert_keeps_keys_increasing_witness :
  0 <= GetSize example_leaf /\ keys_increasing 0 example_leaf /\
  (forall i, 0 <= i -> i < GetSize example_leaf -> KeyAt example_leaf i <> 4) /\
  slots (insert_slot example_leaf (insert_pos example_leaf 4) 4 4)
    = [(1, 1); (3, 3); (4, 4); (5, 5)] /\
  keys_increasing 0 (insert_slot example_leaf (insert_pos example_leaf 4) 4 4).
Proof.
  split; [vm_compute; discriminate|].
  split; [exact example_leaf_increasing|].
  split; [exact example_leaf_without_4|].
  split; [vm_compute; reflexivity|].
  apply (insert_keeps_keys_increasing example_leaf 4 4).
  - vm_compute; discriminate.
  - exact example_leaf_increasing.
  - exact example_leaf_without_4.
Defined.

(** Removing slot [slot] of a page (lines 287-291, 330-334) shrinks the
    page by one, keeps its kind, capacity and link, keeps the slots below
    [slot] and moves the slots above it down by one. *)
Theorem remove_slot_content (p : BPlusTreePage) (slot : Z) :
  0 <= slot -> slot < GetSize p ->
  GetSize (remove_slot p slot) = GetSize p - 1 /\
  GetMaxSize (remove_slot p slot) = GetMaxSize p /\
  IsLeafPage (remove_slot p slot) = IsLeafPage p /\
  GetNextPageId (remove_slot p slot) = GetNextPageId p /\
  (forall i, 0 <= i -> i < slot -> SlotAt (remove_slot p slot) i = SlotAt p i) /\
  (forall i, slot <= i -> i < GetSize p - 1 ->
     SlotAt (remove_slot p slot) i = SlotAt p (i + 1)).
Proof. exact (remove_slot_slots p slot). Qed.

Lemma remove_slot_content_witness :
  0 <= 1 /\ 1 < GetSize example_leaf /\
  slots (remove_slot example_leaf 1) = [(1, 1); (5, 5)] /\
  GetSize (remove_slot example_leaf 1) = GetSize example_leaf - 1.
Proof.
  split; [lia|]. split; [vm_compute; reflexivity|].
  split; [vm_compute; reflexivity|].
  apply (remove_slot_content example_leaf 1); [lia | vm_compute; reflexivity].
Defined.

(** Removing a slot of a page with strictly increasing keys leaves the keys
    strictly increasing. *)
Theorem remove_keeps_keys_increasing (p : BPlusTreePage) (slot : Z) :
  0 <= slot -> slot < GetSize p ->
  keys_increasing 0 p ->
  keys_increasing 0 (remove_slot p slot).
Proof. exact (remove_slot_increasing p slot). Qed.

Lemma remove_keeps_keys_increasing_witness :
  0 <= 1 /\ 1 < GetSize example_leaf /\ keys_increasing 0 example_leaf /\
  keys_increasing 0 (remove_slot example_leaf 1).
Proof.
  split; [lia|]. split; [vm_compute; reflexivity|].
  split; [exact example_leaf_increasing|].
  apply (remove_keeps_keys_increasing example_leaf 1);
    [lia | vm_compute; reflexivity | exact example_leaf_increasing].
Defined.

(** ** Whole operations *)

(** [Insert] of a new key whose leaf has room (lines 150-162): the call
    returns true, only that leaf changes (it takes the entry at its sorted
    position), afterwards [GetValue] finds the key with the value given,
    every other key is found or absent exactly as before, and the leaf's
    keys are still strictly increasing. *)
Theorem Insert_with_room (t : BPlusTree) (key : KeyType) (value : ValueType)
    (pid : page_id_t) (p : BPlusTreePage) :
  root_page_id_ t <> INVALID_PAGE_ID ->
  descend (descent_fuel t) t key (root_page_id_ t) = Some (pid, p) ->
  0 <= GetSize p -> GetSize p < GetMaxSize p ->
  keys_increasing 0 p ->
  GetValue t key = Some None ->
  Insert t key value
    = Some (true, put_page t pid (insert_slot p (insert_pos p key) key value)) /\
  GetValue (put_page t pid (insert_slot p (insert_pos p key) key value)) key
    = Some (Some value) /\
  (forall k, k <> key ->
     GetValue (put_page t pid (insert_slot p (insert_pos p key) key value)) k
     = GetValue t k) /\
  keys_increasing 0 (insert_slot p (insert_pos p key) key value).
Proof. exact (Insert_room_core t key value pid p). Qed.

Lemma tree_135_root : root_page_id_ tree_135 <> INVALID_PAGE_ID.
Proof. vm_compute; discriminate. Defined.

Lemma tree_135_descend (key : KeyType) :
  descend (descent_fuel tree_135) tree_135 key (root_page_id_ tree_135)
  = Some (0, example_leaf).
Proof. vm_compute; reflexivity. Defined.

Lemma Insert_with_room_witness :
  GetValue tree_135 4 = Some None /\
  GetSize example_leaf < GetMaxSize example_leaf /\
  Insert tree_135 4 4
    = Some (true, put_page tree_135 0
                    (insert_slot example_leaf (insert_pos example_leaf 4) 4 4)) /\
  GetValue (put_page tree_135 0
              (insert_slot example_leaf (insert_pos example_leaf 4) 4 4)) 4
    = Some (Some 4).
Proof.
  split; [vm_compute; reflexivity|].
  split; [vm_compute; reflexivity|].
  pose proof (Insert_with_room tree_135 4 4 0 example_leaf tree_135_root
                (tree_135_descend 4)) as H.
  assert (H0 : 0 <= GetSize example_leaf) by (vm_compute; discriminate).
  assert (H1 : GetSize example_leaf < GetMaxSize example_leaf)
    by (vm_compute; reflexivity).
  assert (H2 : GetValue tree_135 4 = Some None) by (vm_compute; reflexivity).
  specialize (H H0 H1 example_leaf_increasing H2).
  destruct H as (Ha & Hb & _). split; assumption.
Defined.

(** [Remove] of a key that is found, when its leaf does not underflow (it
    keeps at least min_size entries, or it is the root and keeps at least
    one): only that leaf changes (it loses the key's slot), afterwards
    [GetValue] reports the key absent, every other key is found or absent
    exactly as before, and the leaf's keys are still strictly increasing. *)
Theorem Remove_without_underflow (t : BPlusTree) (key : KeyType) (v : ValueType)
    (pid : page_id_t) (p : BPlusTreePage) :
  root_page_id_ t <> INVALID_PAGE_ID ->
  descend (descent_fuel t) t key (root_page_id_ t) = Some (pid, p) ->
  0 <= GetSize p ->
  keys_increasing 0 p ->
  GetValue t key = Some (Some v) ->
  GetMinSize p <= GetSize p - 1 \/ (pid = root_page_id_ t /\ 2 <= GetSize p) ->
  Remove t key = Some (put_page t pid (remove_slot p (BinaryFind_leaf p key))) /\
  GetValue (put_page t pid (remove_slot p (BinaryFind_leaf p key))) key = Some None /\
  (forall k, k <> key ->
     GetValue (put_page t pid (remove_slot p (BinaryFind_leaf p key))) k
     = GetValue t k) /\
  keys_increasing 0 (remove_slot p (BinaryFind_leaf p key)).
Proof. exact (Remove_no_underflow_core t key v pid p). Qed.

Lemma Remove_without_underflow_witness :
  GetValue tree_135 3 = Some (Some 3) /\
  (0 = root_page_id_ tree_135 /\ 2 <= GetSize example_leaf) /\
  Remove tree_135 3
    = Some (put_page tree_135 0
              (remove_slot example_leaf (BinaryFind_leaf example_leaf 3))) /\
  GetValue (put_page tree_135 0
              (remove_slot example_leaf (BinaryFind_leaf example_leaf 3))) 3
    = Some None.
Proof.
  assert (H0 : 0 <= GetSize example_leaf) by (vm_compute; discriminate).
  assert (H1 : GetValue tree_135 3 = Some (Some 3)) by (vm_compute; reflexivity).
  assert (H2 : 0 = root_page_id_ tree_135 /\ 2 <= GetSize example_leaf)
    by (split; [vm_compute; reflexivity | vm_compute; discriminate]).
  split; [exact H1|]. split; [exact H2|].
  destruct (Remove_without_underflow tree_135 3 3 0 example_leaf tree_135_root
              (tree_135_descend 3) H0 example_leaf_increasing H1 (or_intror H2))
    as (Ha & Hb & _).
  split; assumption.
Defined.

(** [Remove] of the only key of a root leaf (lines 294-299) frees the root
    page and makes the tree empty: the header holds INVALID_PAGE_ID, every
    other page of the pool is untouched, and [GetValue] reports every key
    absent. *)
Theorem Remove_last_key_empties (t : BPlusTree) (key : KeyType) (v : ValueType)
    (p : BPlusTreePage) :
  root_page_id_ t <> INVALID_PAGE_ID ->
  FetchPage t (root_page_id_ t) = Some p ->
  IsLeafPage p = true ->
  GetSize p = 1 -> 1 <= GetMaxSize p ->
  GetValue t key = Some (Some v) ->
  exists t',
    Remove t key = Some t' /\
    root_page_id_ t' = INVALID_PAGE_ID /\ IsEmpty t' = true /\
    FetchPage t' (root_page_id_ t) = None /\
    (forall q, q <> root_page_id_ t -> FetchPage t' q = FetchPage t q) /\
    (forall k, GetValue t' k = Some None).
Proof. exact (Remove_last_key_core t key v p). Qed.

Lemma Remove_last_key_empties_witness :
  FetchPage (tree_of [7]) (root_page_id_ (tree_of [7])) = Some leaf_7 /\
  GetValue (tree_of [7]) 7 = Some (Some 7) /\
  exists t',
    Remove (tree_of [7]) 7 = Some t' /\
    root_page_id_ t' = INVALID_PAGE_ID /\ IsEmpty t' = true /\
    FetchPage t' (root_page_id_ (tree_of [7])) = None /\
    (forall q, q <> root_page_id_ (tree_of [7]) ->
       FetchPage t' q = FetchPage (tree_of [7]) q) /\
    (forall k, GetValue t' k = Some None).
Proof.
  assert (H0 : root_page_id_ (tree_of [7]) <> INVALID_PAGE_ID)
    by (vm_compute; discriminate).
  assert (H1 : FetchPage (tree_of [7]) (root_page_id_ (tree_of [7])) = Some leaf_7)
    by (vm_compute; reflexivity).
  assert (H2 : IsLeafPage leaf_7 = true) by (vm_compute; reflexivity).
  assert (H3 : GetSize leaf_7 = 1) by (vm_compute; reflexivity).
  assert (H4 : 1 <= GetMaxSize leaf_7) by (vm_compute; discriminate).
  assert (H5 : GetValue (tree_of [7]) 7 = Some (Some 7)) by (vm_compute; reflexivity).
  split; [exact H1|]. split; [exact H5|].
  exact (Remove_last_key_empties (tree_of [7]) 7 7 leaf_7 H0 H1 H2 H3 H4 H5).
Defined.

(** The first [Insert] into an empty tree (lines 108-121, then 150-162), on
    any pool: it returns true, the page it allocates becomes the root, a
    leaf holding exactly the entry given; every other page of the pool is
    untouched; [GetValue] finds the key and reports every other key
    absent. *)
Theorem Insert_into_empty_tree (t : BPlusTree) (key : KeyType) (value : ValueType) :
  root_page_id_ t = INVALID_PAGE_ID ->
  0 <= next_alloc_ t ->
  1 <= leaf_max_size_ t ->
  exists t',
    Insert t key value = Some (true, t') /\
    root_page_id_ t' = next_alloc_ t /\
    next_alloc_ t' = next_alloc_ t + 1 /\
    FetchPage t' (next_alloc_ t)
      = Some (mkPage LEAF_PAGE 1 (leaf_max_size_ t) INVALID_PAGE_ID [(key, value)]) /\
    (forall q, q <> next_alloc_ t -> FetchPage t' q = FetchPage t q) /\
    GetValue t' key = Some (Some value) /\
    (forall k, k <> key -> GetValue t' k = Some None).
Proof. exact (Insert_into_empty_core t key value). Qed.

Lemma Insert_into_empty_tree_witness :
  root_page_id_ tree_on_used_pool = INVALID_PAGE_ID /\
  FetchPage tree_on_used_pool 0 = Some zero_page /\
  exists t',
    Insert tree_on_used_pool 7 7 = Some (true, t') /\
    root_page_id_ t' = next_alloc_ tree_on_used_pool /\
    next_alloc_ t' = next_alloc_ tree_on_used_pool + 1 /\
    FetchPage t' (next_alloc_ tree_on_used_pool)
      = Some (mkPage LEAF_PAGE 1 (leaf_max_size_ tree_on_used_pool)
                INVALID_PAGE_ID [(7, 7)]) /\
    (forall q, q <> next_alloc_ tree_on_used_pool ->
       FetchPage t' q = FetchPage tree_on_used_pool q) /\
    GetValue t' 7 = Some (Some 7) /\
    (forall k, k <> 7 -> GetValue t' k = Some None).
Proof.
  split; [reflexivity|]. split; [vm_compute; reflexivity|].
  apply (Insert_into_empty_tree tree_on_used_pool 7 7);
    [reflexivity | vm_compute; discriminate | vm_compute; discriminate].
Defined.

Lemma Insert_then_Remove_is_empty_witness :
  root_page_id_ tree_on_used_pool = INVALID_PAGE_ID /\
  exists t' t'',
    Insert tree_on_used_pool 7 7 = Some (true, t') /\
    Remove t' 7 = Some t'' /\
    IsEmpty t'' = true /\
    FetchPage t'' (next_alloc_ tree_on_used_pool) = None /\
    (forall q, q <> next_alloc_ tree_on_used_pool ->
       FetchPage t'' q = FetchPage tree_on_used_pool q) /\
    (forall k, GetValue t'' k = Some None).
Proof.
  split; [reflexivity|].
  apply (Insert_then_Remove_is_empty tree_on_used_pool 7 7);
    [reflexivity | vm_compute; discriminate | vm_compute; discriminate].
Defined.





Lemma full_leaf_increasing : keys_increasing 0 full_leaf.
Proof.
  intros i j Hi Hij Hj. unfold GetSize in Hj. simpl in Hj.
  assert (Hc : i = 0 \/ i = 1 \/ i = 2) by lia.
  assert (Hd : j = 1 \/ j = 2 \/ j = 3) by lia.
  destruct Hc as [Hc | [Hc | Hc]], Hd as [Hd | [Hd | Hd]]; subst i j;
    try lia; reflexivity.
Defined.

Lemma full_leaf_single : single_leaf (tree_of (ascending 4)) full_leaf.
Proof.
  split; [vm_compute; discriminate|].
  split; [vm_compute; reflexivity|].
  split; [vm_compute; reflexivity|].
  split; [vm_compute; discriminate | exact full_leaf_increasing].
Defined.

Lemma Insert_splits_root_leaf_witness :
  single_leaf (tree_of (ascending 4)) full_leaf /\
  GetSize full_leaf = GetMaxSize full_leaf /\
  GetValue (tree_of (ascending 4)) 5 = Some None /\
  exists t', Insert (tree_of (ascending 4)) 5 5 = Some (true, t') /\
             root_page_id_ t' = 2 /\
             GetValue t' 5 = Some (Some 5) /\
             (forall k, k <> 5 -> GetValue t' k = GetValue (tree_of (ascending 4)) k).
Proof.
  assert (H1 : GetSize full_leaf = GetMaxSize full_leaf) by (vm_compute; reflexivity).
  assert (H2 : 1 <= GetMaxSize full_leaf) by (vm_compute; discriminate).
  assert (H3 : 0 <= root_page_id_ (tree_of (ascending 4)))
    by (vm_compute; discriminate).
  assert (H4 : root_page_id_ (tree_of (ascending 4)) < next_alloc_ (tree_of (ascending 4)))
    by (vm_compute; reflexivity).
  assert (H5 : GetValue (tree_of (ascending 4)) 5 = Some None)
    by (vm_compute; reflexivity).
  assert (H6 : next_alloc_ (tree_of (ascending 4)) + 1 = 2)
    by (vm_compute; reflexivity).
  split; [exact full_leaf_single|]. split; [exact H1|]. split; [exact H5|].
  destruct (Insert_splits_root_leaf (tree_of (ascending 4)) full_leaf 5 5
              full_leaf_single H1 H2 H3 H4 H5)
    as (t' & r & lp & rp & Ha & Hb & Hrest).
  exists t'. split; [exact Ha|]. split; [rewrite Hb; exact H6|].
  split; apply Hrest.
Defined.

Lemma Insert_then_Remove_restores_witness :
  GetValue tree_135 4 = Some None /\
  exists t1 t2,
    Insert tree_135 4 4 = Some (true, t1) /\
    Remove t1 4 = Some t2 /\
    root_page_id_ t2 = root_page_id_ tree_135 /\
    (forall k, GetValue t2 k = GetValue tree_135 k).
Proof.
  assert (H0 : 0 <= GetSize example_leaf) by (vm_compute; discriminate).
  assert (H1 : GetSize example_leaf < GetMaxSize example_leaf)
    by (vm_compute; reflexivity).
  assert (H2 : GetValue tree_135 4 = Some None) by (vm_compute; reflexivity).
  assert (H3 : GetMinSize example_leaf <= GetSize example_leaf)
    by (vm_compute; discriminate).
  split; [exact H2|].
  exact (Insert_then_Remove_restores tree_135 4 4 0 example_leaf tree_135_root
           (tree_135_descend 4) H0 H1 example_leaf_increasing H2 (or_introl H3)).
Defined.

Lemma Remove_never_allocates_witness :
  Remove tree_135 3 = Some (tree_after [1; 3; 5] [3]) /\
  next_alloc_ (tree_after [1; 3; 5] [3]) = next_alloc_ tree_135 /\
  leaf_max_size_ (tree_after [1; 3; 5] [3]) = leaf_max_size_ tree_135 /\
  internal_max_size_ (tree_after [1; 3; 5] [3]) = internal_max_size_ tree_135.
Proof.
  assert (H : Remove tree_135 3 = Some (tree_after [1; 3; 5] [3]))
    by (vm_compute; reflexivity).
  split; [exact H|].
  exact (Remove_never_allocates tree_135 (tree_after [1; 3; 5] [3]) 3 H).
Defined.

(** ** Routing *)




(** ** Splits in the bottom-up loop of [Insert] *)

Lemma new_root_carried (t : BPlusTree) (pid : page_id_t) (left right : BPlusTreePage) :
  pid < next_alloc_ t ->
  carried_up t pid [] left right
    (new_root (put_page (put_page (snd (NewPage t)) pid left) (next_alloc_ t) right)
       pid left (KeyAt right 0) (next_alloc_ t)).
Proof.
  intros Hpid. unfold carried_up.
  split; [reflexivity|].
  split.
  { unfold new_root, NewPage, FetchPage. simpl.
    do 3 (rewrite lookup_insert_ne by lia). apply lookup_insert_eq. }
  split.
  { unfold new_root, NewPage, FetchPage. simpl.
    do 2 (rewrite lookup_insert_ne by lia). apply lookup_insert_eq. }
  eexists. split.
  - unfold new_root, NewPage, FetchPage. simpl. apply lookup_insert_eq.
  - repeat split.
Qed.

Lemma split_page_is_halves (old_page new_page : BPlusTreePage) :
  0 <= GetSize old_page ->
  split_halves old_page (fst (split_page old_page new_page))
    (snd (split_page old_page new_page)) /\
  (0 < GetSize old_page ->
   KeyAt (snd (split_page old_page new_page)) 0 = KeyAt old_page (GetSize old_page / 2)).
Proof.
  intros Hsize.
  destruct (split_page_spec old_page new_page Hsize) as (HL & HsR & _ & _ & Hslots).
  assert (Hhalf : GetSize old_page / 2 < GetSize old_page \/ GetSize old_page = 0).
  { pose proof (Z.div_mod (GetSize old_page) 2 ltac:(lia)).
    pose proof (Z.mod_pos_bound (GetSize old_page) 2 ltac:(lia)). lia. }
  split.
  - unfold split_halves. rewrite HL.
    split; [reflexivity|]. split; [exact HsR|].
    split; [intros; reflexivity | exact Hslots].
  - intros Hpos. unfold KeyAt. rewrite Hslots by lia. f_equal. f_equal. lia.
Qed.

(** When [GetValue] reports [key] absent, [Insert] runs the bottom-up loop
    on the road of its descent, target leaf first. *)
Lemma Insert_runs_levels (t : BPlusTree) (key : KeyType) (value : ValueType)
    (road : list page_id_t) :
  root_page_id_ t <> INVALID_PAGE_ID ->
  descend_road (descent_fuel t) t key (root_page_id_ t) = Some road ->
  GetValue t key = Some None ->
  Insert t key value = Some (true, insert_levels t (rev road) key value).
Proof.
  intros Hroot Hroad Hget. unfold GetValue in Hget. unfold Insert, ensure_root.
  destruct (Z.eqb_spec (root_page_id_ t) INVALID_PAGE_ID) as [|_]; [contradiction|].
  destruct (descend (descent_fuel t) t key (root_page_id_ t)) as [[pid p]|] eqn:Hd;
    [|discriminate].
  destruct (descend_road_descend _ _ _ _ _ _ Hd) as (road' & Hroad' & _ & Hlast & Hp).
  rewrite Hroad in Hroad'. injection Hroad' as <-.
  rewrite Hroad, Hlast. unfold page_at. unfold FetchPage in Hp. rewrite Hp. simpl.
  destruct (negb (BinaryFind_leaf p key =? -1) &&
            (comparator_ (KeyAt p (BinaryFind_leaf p key)) key =? 0));
    [discriminate | reflexivity].
Qed.

(** C8, as the code has it.  A level of [Insert]'s loop whose page [pid] is
    over-filled to max_size + 1 entries splits it at [size / 2], whether
    the page is the target leaf or an internal page: page [pid] keeps the
    first [size / 2] entries, the page allocated for the split receives the
    remaining entries in order, and the carry handed to the level above
    (or written into slot 1 of a new root) is the first key of the new
    page, that is, the key of slot [size / 2] of the over-full page,
    together with the new page's id.  When [GetValue] reports [key] absent,
    [Insert] is this loop run on the road of its descent. *)
Theorem Insert_split_halves (t : BPlusTree) (pid : page_id_t) (rest : list page_id_t)
    (key : KeyType) (value : Z) :
  GetSize (grown_page t pid key value) = GetMaxSize (grown_page t pid key value) + 1 ->
  0 <= GetMaxSize (grown_page t pid key value) ->
  pid < next_alloc_ t ->
  (exists left right : BPlusTreePage,
     split_halves (grown_page t pid key value) left right /\
     KeyAt right 0
       = KeyAt (grown_page t pid key value) (GetSize (grown_page t pid key value) / 2) /\
     IsLeafPage right = true /\
     GetNextPageId left = next_alloc_ t /\
     GetNextPageId right = GetNextPageId (grown_page t pid key value) /\
     carried_up t pid rest left right (insert_levels t (pid :: rest) key value)) /\
  (exists left right : BPlusTreePage,
     split_halves (grown_page t pid key value) left right /\
     KeyAt right 0
       = KeyAt (grown_page t pid key value) (GetSize (grown_page t pid key value) / 2) /\
     IsLeafPage right = false /\
     carried_up t pid rest left right (insert_internal_levels t (pid :: rest) key value)) /\
  (forall road : list page_id_t,
     root_page_id_ t <> INVALID_PAGE_ID ->
     descend_road (descent_fuel t) t key (root_page_id_ t) = Some road ->
     rev road = pid :: rest ->
     GetValue t key = Some None ->
     Insert t key value = Some (true, insert_levels t (pid :: rest) key value)).
Proof.
  intros Hfull Hmax Hpid.
  set (over := grown_page t pid key value) in *.
  assert (Hsize : 0 < GetSize over) by lia.
  assert (Hif : (GetSize over <=? GetMaxSize over) = false)
    by (apply Z.leb_gt; lia).
  split; [|split].
  3: { intros road Hroot Hroad Hrev Hget. rewrite <- Hrev.
       apply Insert_runs_levels; assumption. }
  - set (new_page := SetNextPageId
                       (SetPageType (InitLeaf zero_page (leaf_max_size_ t)) LEAF_PAGE)
                       (GetNextPageId over)).
    set (old_page := SetNextPageId over (next_alloc_ t)).
    destruct (split_page_is_halves old_page new_page ltac:(change (0 <= GetSize over); lia))
      as (Hhalves & Hkey).
    destruct (split_page_spec old_page new_page ltac:(change (0 <= GetSize over); lia))
      as (HL & _ & HlR & HnR & _).
    exists (fst (split_page old_page new_page)), (snd (split_page old_page new_page)).
    split; [exact Hhalves|].
    split; [exact (Hkey Hsize)|].
    split; [rewrite HlR; reflexivity|].
    split; [rewrite HL; reflexivity|].
    split; [rewrite HnR; reflexivity|].
    assert (Hstep : insert_levels t (pid :: rest) key value =
              match rest with
              | [] => new_root
                        (put_page (put_page (snd (NewPage t)) pid
                                     (fst (split_page old_page new_page)))
                           (next_alloc_ t) (snd (split_page old_page new_page)))
                        pid (fst (split_page old_page new_page))
                        (KeyAt (snd (split_page old_page new_page)) 0) (next_alloc_ t)
              | _ :: _ => insert_internal_levels
                        (put_page (put_page (snd (NewPage t)) pid
                                     (fst (split_page old_page new_page)))
                           (next_alloc_ t) (snd (split_page old_page new_page)))
                        rest (KeyAt (snd (split_page old_page new_page)) 0) (next_alloc_ t)
              end).
    { unfold insert_levels. fold (grown_page t pid key value). fold over.
      rewrite Hif. reflexivity. }
    rewrite Hstep. destruct rest as [|ppid rest'].
    + apply new_root_carried. exact Hpid.
    + reflexivity.
  - set (new_page := SetPageType (InitInternal zero_page (internal_max_size_ t))
                       INTERNAL_PAGE).
    destruct (split_page_is_halves over new_page ltac:(lia)) as (Hhalves & Hkey).
    destruct (split_page_spec over new_page ltac:(lia)) as (_ & _ & HlR & _ & _).
    exists (fst (split_page over new_page)), (snd (split_page over new_page)).
    split; [exact Hhalves|].
    split; [exact (Hkey Hsize)|].
    split; [rewrite HlR; reflexivity|].
    assert (Hstep : insert_internal_levels t (pid :: rest) key value =
              match rest with
              | [] => new_root
                        (put_page (put_page (snd (NewPage t)) pid
                                     (fst (split_page over new_page)))
                           (next_alloc_ t) (snd (split_page over new_page)))
                        pid (fst (split_page over new_page))
                        (KeyAt (snd (split_page over new_page)) 0) (next_alloc_ t)
              | _ :: _ => insert_internal_levels
                        (put_page (put_page (snd (NewPage t)) pid
                                     (fst (split_page over new_page)))
                           (next_alloc_ t) (snd (split_page over new_page)))
                        rest (KeyAt (snd (split_page over new_page)) 0) (next_alloc_ t)
              end).
    { cbn [insert_internal_levels]. fold (grown_page t pid key value). fold over.
      rewrite Hif. reflexivity. }
    rewrite Hstep. destruct rest as [|ppid rest'].
    + apply new_root_carried. exact Hpid.
    + reflexivity.
Qed.

(** C8 on the insert of 11 into the tree 1, ..., 10 (leaf_max =
    internal_max = 4): the leaf 7, 8, 9, 10 (page 4) takes 11 and splits
    into 7, 8 and 9, 10, 11 (page 5) with the carry (9, 5); the root
    (page 2), over-filled by that carry, splits into two slots and three
    slots (page 6), and a new root (page 7) receives the carry (5, 6). *)
Lemma Insert_split_halves_witness :
  Insert (tree_of (ascending 10)) 11 11 = Some (true, tree_of (ascending 11)) /\
  descend_road (descent_fuel (tree_of (ascending 10))) (tree_of (ascending 10)) 11
    (root_page_id_ (tree_of (ascending 10))) = Some [2; 4] /\
  Insert (tree_of (ascending 10)) 11 11
    = Some (true, insert_levels (tree_of (ascending 10)) [4; 2] 11 11) /\
  slots (grown_page (tree_of (ascending 10)) 4 11 11)
    = [(7, 7); (8, 8); (9, 9); (10, 10); (11, 11)] /\
  insert_levels (tree_of (ascending 10)) [4; 2] 11 11
    = insert_internal_levels (leaf_split_state (tree_of (ascending 10)) 4 11 11) [2] 9 5 /\
  slots (grown_page (leaf_split_state (tree_of (ascending 10)) 4 11 11) 2 9 5)
    = [(1, 0); (3, 1); (5, 3); (7, 4); (9, 5)] /\
  (exists left right : BPlusTreePage,
     split_halves (grown_page (tree_of (ascending 10)) 4 11 11) left right /\
     KeyAt right 0
       = KeyAt (grown_page (tree_of (ascending 10)) 4 11 11)
           (GetSize (grown_page (tree_of (ascending 10)) 4 11 11) / 2) /\
     IsLeafPage right = true /\
     GetNextPageId left = next_alloc_ (tree_of (ascending 10)) /\
     GetNextPageId right = GetNextPageId (grown_page (tree_of (ascending 10)) 4 11 11) /\
     carried_up (tree_of (ascending 10)) 4 [2] left right
       (insert_levels (tree_of (ascending 10)) [4; 2] 11 11)) /\
  (exists left right : BPlusTreePage,
     split_halves (grown_page (leaf_split_state (tree_of (ascending 10)) 4 11 11) 2 9 5)
       left right /\
     KeyAt right 0
       = KeyAt (grown_page (leaf_split_state (tree_of (ascending 10)) 4 11 11) 2 9 5)
           (GetSize (grown_page (leaf_split_state (tree_of (ascending 10)) 4 11 11) 2 9 5)
            / 2) /\
     IsLeafPage right = false /\
     carried_up (leaf_split_state (tree_of (ascending 10)) 4 11 11) 2 [] left right
       (insert_internal_levels (leaf_split_state (tree_of (ascending 10)) 4 11 11)
          [2] 9 5)).
Proof.
  assert (H1 : GetSize (grown_page (tree_of (ascending 10)) 4 11 11)
               = GetMaxSize (grown_page (tree_of (ascending 10)) 4 11 11) + 1)
    by (vm_compute; reflexivity).
  assert (H2 : 0 <= GetMaxSize (grown_page (tree_of (ascending 10)) 4 11 11))
    by (vm_compute; discriminate).
  assert (H3 : 4 < next_alloc_ (tree_of (ascending 10))) by (vm_compute; reflexivity).
  assert (Hroot : root_page_id_ (tree_of (ascending 10)) <> INVALID_PAGE_ID)
    by (vm_compute; discriminate).
  assert (Hroad : descend_road (descent_fuel (tree_of (ascending 10)))
                    (tree_of (ascending 10)) 11
                    (root_page_id_ (tree_of (ascending 10))) = Some [2; 4])
    by (vm_compute; reflexivity).
  assert (Hget : GetValue (tree_of (ascending 10)) 11 = Some None)
    by (vm_compute; reflexivity).
  destruct (Insert_split_halves (tree_of (ascending 10)) 4 [2] 11 11 H1 H2 H3)
    as (Hleaf & _ & Hins).
  split; [vm_compute; reflexivity|].
  split; [exact Hroad|].
  split; [exact (Hins [2; 4] Hroot Hroad eq_refl Hget)|].
  split; [vm_compute; reflexivity|].
  split; [vm_compute; reflexivity|].
  split; [vm_compute; reflexivity|].
  split.
  - exact Hleaf.
  - apply (Insert_split_halves (leaf_split_state (tree_of (ascending 10)) 4 11 11)
             2 [] 9 5);
      [vm_compute; reflexivity | vm_compute; discriminate | vm_compute; reflexivity].
Defined.
